(** * python-training: the gallery notebooks as sequential programs

    The repository holds two notebooks.  [SatelliteSfcObs] embeds
    pages/gallery/satellite_sfc_obs.ipynb and [MapResources] embeds the AWIPS
    maps-database notebook.  Every cell is a computation in the monad [Py.NB]:
    explicit state passing over the kernel's world (the log of third-party
    library calls, the local file system, the figure) with Python exceptions
    as the left injection of the result.  The third-party libraries are
    interfaces (type classes); the notebooks are written against them.  Every
    library call goes through [call], which logs the function called together
    with the exception it raised, if any. *)

From Stdlib Require Import ZArith List Ascii String Floats.
From stdpp Require Import gmap strings list pretty.

Set Warnings "-inexact-float".

Open Scope Z_scope.

(** ** Python: exceptions, the notebook monad, sequences *)

Module Py.

Inductive Exn : Type :=
| IndexError
| ValueError
| TypeError
| KeyError (key : string)
| FileNotFoundError (path : string)
| LibraryError (library message : string).

(** A cell run from world [W]: the world it leaves and either the exception
    that reached the top level or the value. *)
Definition NB (W A : Type) : Type := W -> W * (Exn + A).

Definition ret {W A} (a : A) : NB W A := fun w => (w, inr a).

Definition bind {W A B} (m : NB W A) (k : A -> NB W B) : NB W B :=
  fun w =>
    match m w with
    | (w', inl e) => (w', inl e)
    | (w', inr a) => k a w'
    end.

Definition raise {W A} (e : Exn) : NB W A := fun w => (w, inl e).

Definition lift {W A} (r : Exn + A) : NB W A := fun w => (w, r).

Definition modify {W} (f : W -> W) : NB W unit := fun w => (f w, inr tt).

Definition gets {W A} (f : W -> A) : NB W A := fun w => (w, inr (f w)).

(** The exception an outcome carries, if any. *)
Definition failure_of {A} (r : Exn + A) : option Exn :=
  match r with
  | inl e => Some e
  | inr _ => None
  end.

#[global] Instance nb_ret {W} : MRet (NB W) := fun A => @ret W A.
#[global] Instance nb_bind {W} : MBind (NB W) := fun A B k m => bind m k.

(** [for x in xs: body] *)
Fixpoint for_each {W A} (xs : list A) (body : A -> NB W unit) : NB W unit :=
  match xs with
  | [] => ret tt
  | x :: xs' => bind (body x) (fun _ => for_each xs' body)
  end.

(** [xs[i]] on a sequence: negative indices count from the end, anything
    outside [-len, len) raises IndexError. *)
Definition getitem {A} (xs : list A) (i : Z) : Exn + A :=
  let n := Z.of_nat (length xs) in
  let j := if i <? 0 then i + n else i in
  if (j <? 0) || (n <=? j) then inl IndexError
  else match xs !! Z.to_nat j with
       | Some x => inr x
       | None => inl IndexError
       end.

(** [xs.index(x)]: position of the first occurrence, ValueError if none. *)
Fixpoint index (xs : list string) (x : string) : Exn + Z :=
  match xs with
  | [] => inl ValueError
  | y :: ys =>
      if String.eqb y x then inr 0
      else match index ys x with
           | inr i => inr (i + 1)
           | inl e => inl e
           end
  end.

(** Truthiness of a [str]. *)
Definition truthy (s : string) : bool := negb (String.eqb s EmptyString).

(** [datetime] values and the formats the notebooks use. *)
Record datetime : Type := mkDatetime {
  year : N; month : N; day : N;
  hour : N; minute : N; second : N; microsecond : N
}.

Fixpoint zeros (n : nat) : string :=
  match n with O => EmptyString | S n' => String "0"%char (zeros n') end.

(** Zero padding on the left to [width] characters. *)
Definition zfill (width : nat) (s : string) : string :=
  zeros (width - String.length s) +:+ s.

(** [{:02d}] *)
Definition fmt_02d (n : Z) : string := zfill 2 (pretty n).

(** [{:%Y%m%d}] *)
Definition fmt_Ymd (d : datetime) : string :=
  zfill 4 (pretty (year d)) +:+ zfill 2 (pretty (month d)) +:+ zfill 2 (pretty (day d)).

(** [{:%H}] *)
Definition fmt_H (d : datetime) : string := zfill 2 (pretty (hour d)).

(** [str(d)] *)
Definition str_datetime (d : datetime) : string :=
  zfill 4 (pretty (year d)) +:+ "-" +:+ zfill 2 (pretty (month d)) +:+ "-"
    +:+ zfill 2 (pretty (day d)) +:+ " " +:+ zfill 2 (pretty (hour d)) +:+ ":"
    +:+ zfill 2 (pretty (minute d)) +:+ ":" +:+ zfill 2 (pretty (second d))
    +:+ (if (microsecond d =? 0)%N then EmptyString
         else "." +:+ zfill 6 (pretty (microsecond d))).

(** [int(s)] on a [str] in base 10.  A [str] is a Rocq string with one
    character per code point, so the strings of the model are the ones whose
    code points are below 256.  Surrounding blanks are dropped: the six ASCII
    blanks (9 to 13 and 32) and, above 127, the code points Python counts as
    whitespace, 133 and 160; the separators 28 to 31 are whitespace for
    [str.isspace] but not for [int].  One sign is allowed, single underscores
    may separate digits; anything else raises ValueError.  Below 256 the
    decimal digits are 0 to 9. *)
Definition is_space (c : ascii) : bool :=
  match c with
  | " " | "009" | "010" | "011" | "012" | "013" | "133" | "160" => true
  | _ => false
  end%char.

Definition digit_of (c : ascii) : option Z :=
  let n := Z.of_N (N_of_ascii c) in
  if (48 <=? n) && (n <=? 57) then Some (n - 48) else None.

Fixpoint lstrip (cs : list ascii) : list ascii :=
  match cs with
  | c :: cs' => if is_space c then lstrip cs' else cs
  | [] => []
  end.

Definition strip (cs : list ascii) : list ascii := rev (lstrip (rev (lstrip cs))).

Fixpoint digits (acc : Z) (after_digit : bool) (cs : list ascii) : option Z :=
  match cs with
  | [] => if after_digit then Some acc else None
  | c :: cs' =>
      if Ascii.eqb c "_"
      then (if after_digit then digits acc false cs' else None)
      else match digit_of c with
           | Some d => digits (10 * acc + d) true cs'
           | None => None
           end
  end.

Definition int (s : string) : Exn + Z :=
  let cs := strip (list_ascii_of_string s) in
  let '(negative, ds) :=
    match cs with
    | c :: rest =>
        if Ascii.eqb c "-" then (true, rest)
        else if Ascii.eqb c "+" then (false, rest)
        else (false, cs)
    | [] => (false, cs)
    end in
  match digits 0 false ds with
  | Some n => inr (if negative then - n else n)
  | None => inl ValueError
  end.

End Py.

Import Py.

(** ** The third-party functions the notebooks call *)

Inductive LibCall : Type :=
(* siphon, metpy, pint *)
| TDSCatalog_ | remote_access_ | download_ | parse_metar_file_ | units_to_
| PlotObs_ | ImagePlot_ | MapPanel_ | PanelContainer_ | show_
(* awips *)
| changeEDEXHost_ | newDataRequest_ | addIdentifier_ | setLocationNames_
| setParameters_ | setEnvelope_ | getGeometryData_ | getGridData_
| getGeometry_ | getString_ | getNumber_ | getRawData_ | getLatLonCoords_
(* numpy *)
| np_array_ | np_append_ | masked_invalid_ | ma_min_ | ma_max_
(* shapely *)
| cascaded_union_ | buffer_ | bounds_ | Polygon_ | intersects_ | intersection_
(* cartopy, matplotlib *)
| subplots_ | set_extent_ | coastlines_ | gridlines_ | NaturalEarthFeature_
| ShapelyFeature_ | add_feature_ | scatter_ | annotate_ | contourf_
| colorbar_ | set_label_ | get_cmap_.

#[global] Instance LibCall_eq_dec : EqDecision LibCall.
Proof. solve_decision. Defined.

(** ** pages/gallery/satellite_sfc_obs.ipynb *)

Module SatelliteSfcObs.

(** *** Data the libraries hand back *)

(** A catalog entry. *)
Record Dataset : Type := mkDataset { ds_name : string; ds_url : string }.

(** [cat.datasets]: an ordered mapping from names to entries that may also
    be indexed by position.  [list(cat.datasets)] is the list of its names. *)
Record Catalog : Type := mkCatalog { datasets : list (string * Dataset) }.

Definition names (cat : Catalog) : list string := map fst (datasets cat).
Definition entries (cat : Catalog) : list Dataset := map snd (datasets cat).

(** The dataset opened with xarray; [x_time] is [ds.time.values] as a
    datetime object. *)
Record XDataset : Type := mkXDataset { x_title : string; x_time : datetime }.

(** A parsed METAR report, and the same report with the added column. *)
Record MetarRow : Type := mkMetarRow {
  station_id : string;
  latitude : float;
  longitude : float;
  air_temperature : float
}.

Record ObsRow : Type := mkObsRow { report : MetarRow; tmpf : float }.

Record DataFrame : Type := mkDataFrame {
  rows : list MetarRow;
  units : gmap string string
}.

(** *** The declarative plot objects *)

Record PlotObs : Type := mkPlotObs {
  po_data : list ObsRow;
  po_time : datetime;
  po_time_window_minutes : Z;
  po_level : option Z;
  po_fields : list string;
  po_colors : list string;
  po_reduce_points : float
}.

Record ImagePlot : Type := mkImagePlot {
  ip_data : XDataset; ip_field : string; ip_colormap : string
}.

Inductive Plot : Type := PImage (p : ImagePlot) | PObs (p : PlotObs).

Record MapPanel : Type := mkMapPanel {
  mp_area : list Z;
  mp_title : string;
  mp_layers : list string;
  mp_plots : list Plot
}.

Record PanelContainer : Type := mkPanelContainer {
  pc_size : Z * Z;
  pc_panels : list MapPanel
}.

(** *** The libraries *)

Class Siphon : Type := {
  TDSCatalog : string -> Exn + Catalog;
  remote_access : Dataset -> Exn + XDataset;
  (** what [download] reads from the server before writing the local file *)
  remote_read : Dataset -> Exn + string
}.

Class MetPy : Type := {
  (** [metar.parse_metar_file] on the text of the file *)
  parse_metar_text : string -> Exn + DataFrame;
  (** [(values * units(src)).to(dst)]: pint converts an array element by
      element; this is the conversion of one value, when the two units are
      known and compatible *)
  units_to : string -> string -> Exn + (float -> float);
  (** [pc.show()]: draws the panels of the container; raises when they
      cannot be drawn *)
  show : PanelContainer -> Exn + unit
}.

(** *** The kernel's world *)

Record Kernel : Type := mkKernel {
  (* library calls made so far, oldest first, each with the exception it
     raised, if any *)
  trace : list (LibCall * option Exn);
  (* the local files: path to content *)
  files : gmap string string;
  (* what [open(path, 'wb')] raises in the kernel's working directory, if
     anything: FileNotFoundError when the directory of [path] is missing *)
  open_wb : string -> option Exn;
  (* figures shown so far *)
  displayed : list PanelContainer
}.

Definition record (f : LibCall) (failure : option Exn) (w : Kernel) : Kernel :=
  mkKernel (trace w ++ [(f, failure)]) (files w) (open_wb w) (displayed w).

(** A call that returned. *)
Definition log (f : LibCall) (w : Kernel) : Kernel := record f None w.

Definition write_file (path content : string) (w : Kernel) : Kernel :=
  mkKernel (trace w) (<[path := content]> (files w)) (open_wb w) (displayed w).

Definition display (pc : PanelContainer) (w : Kernel) : Kernel :=
  mkKernel (trace w) (files w) (open_wb w) (displayed w ++ [pc]).

(** A call of library function [f] whose outcome is [r]. *)
Definition call {A} (f : LibCall) (r : Exn + A) : NB Kernel A :=
  fun w => (record f (failure_of r) w, r).

Section Notebook.
Context `{Siphon} `{MetPy}.

(** *** [get_goes_image] *)

Definition goes_url (region : string) (channel : Z) (date : datetime) : string :=
  "https://thredds.ucar.edu/thredds/catalog/satellite/goes/east/products/"
    +:+ "CloudAndMoistureImagery/" +:+ region +:+ "/Channel" +:+ fmt_02d channel
    +:+ "/" +:+ fmt_Ymd date +:+ "/" +:+ "catalog.xml".

(** The index [get_goes_image] computes from the catalog. *)
Definition file_num (cat : Catalog) : Z :=
  if Z.of_nat (length (names cat)) <? 10
  then Z.of_nat (length (names cat))
  else 10.

Definition get_goes_image (date : datetime) (channel : Z) (region : string)
  : NB Kernel XDataset :=
  cat ← call TDSCatalog_ (TDSCatalog (goes_url region channel date));
  ds ← lift (getitem (entries cat) (file_num cat));
  ds ← call remote_access_ (remote_access ds);
  mret ds.

(** *** Get Satellite data *)

Definition get_satellite_cell (utcnow : datetime) : NB Kernel XDataset :=
  get_goes_image utcnow 14 "CONUS".

Definition vtime_cell (ds : XDataset) : datetime := x_time ds.

(** *** Get METAR Observations *)

Definition metar_catalog_url : string :=
  "https://thredds-test.unidata.ucar.edu/thredds/catalog/noaaport/text/metar/catalog.xml".

Definition metar_file_name (vtime : datetime) : string :=
  "metar_" +:+ fmt_Ymd vtime +:+ "_" +:+ fmt_H vtime +:+ "00.txt".

Definition data_path (ds : Dataset) : string := "../../data/" +:+ ds_name ds.

(** What [ds.download(filename)] has in hand when it starts to write: the
    remote file is read first, then the local file is opened for writing;
    either step may raise. *)
Definition opened_for_download (ds : Dataset) (filename : string) (w : Kernel)
  : Exn + string :=
  match remote_read ds with
  | inl e => inl e
  | inr content =>
      match open_wb w filename with
      | Some e => inl e
      | None => inr content
      end
  end.

(** [ds.download(filename)]: read the remote file, write it locally. *)
Definition download (ds : Dataset) (filename : string) : NB Kernel unit :=
  content ← (fun w => call download_ (opened_for_download ds filename w) w);
  modify (write_file filename content).

(** What [metar.parse_metar_file(filename)] makes of the local file. *)
Definition parsed_file (filename : string) (w : Kernel) : Exn + DataFrame :=
  match files w !! filename with
  | None => inl (FileNotFoundError filename)
  | Some text => parse_metar_text text
  end.

(** [metar.parse_metar_file(filename)]: read the local file, parse it. *)
Definition parse_metar_file (filename : string) : NB Kernel DataFrame :=
  fun w => call parse_metar_file_ (parsed_file filename w) w.

Definition metar_cell (vtime : datetime) : NB Kernel DataFrame :=
  cat ← call TDSCatalog_ (TDSCatalog metar_catalog_url);
  time_idx ← lift (index (names cat) (metar_file_name vtime));
  metar_df ← lift (getitem (entries cat) time_idx);
  download metar_df (data_path metar_df);;
  df ← parse_metar_file (data_path metar_df);
  mret df.

(** *** Convert Variable *)

(** [df['tmpf'] = column] where [column] is the conversion of
    [df.air_temperature.values], element by element: each report gets the
    conversion of its own temperature. *)
Definition set_tmpf (to_degF : float -> float) (rs : list MetarRow) : list ObsRow :=
  map (fun r => mkObsRow r (to_degF (air_temperature r))) rs.

Definition in_latitudes (r : ObsRow) : bool :=
  PrimFloat.ltb 25 (latitude (report r)) && PrimFloat.ltb (latitude (report r)) 60.

Definition in_longitudes (r : ObsRow) : bool :=
  PrimFloat.ltb (longitude (report r)) (-60) && PrimFloat.ltb (-150) (longitude (report r)).

Definition conus_subset (df : list ObsRow) : list ObsRow :=
  List.filter in_longitudes (List.filter in_latitudes df).

Definition convert_cell (df : DataFrame) : NB Kernel (list ObsRow) :=
  unit_name ← lift (match units df !! "air_temperature" with
                    | Some u => inr u
                    | None => inl (KeyError "air_temperature")
                    end);
  to_degF ← call units_to_ (units_to unit_name "degF");
  let df := set_tmpf to_degF (rows df) in
  mret (conus_subset df).

(** *** Create Plot *)

(** [df[df.tmpf > 32]] *)
Definition above_freezing (df : list ObsRow) : list ObsRow :=
  List.filter (fun r => PrimFloat.ltb 32 (tmpf r)) df.

(** [df[df.tmpf <= 32]] *)
Definition at_or_below_freezing (df : list ObsRow) : list ObsRow :=
  List.filter (fun r => PrimFloat.leb (tmpf r) 32) df.

Definition plot_cell (df : list ObsRow) (ds : XDataset) (vtime : datetime)
  : NB Kernel unit :=
  call PlotObs_ (inr tt);;
  let obs := mkPlotObs (above_freezing df) vtime 30 None ["tmpf"] ["red"] 0.7 in
  call PlotObs_ (inr tt);;
  let obs2 := mkPlotObs (at_or_below_freezing df) vtime 30 None ["tmpf"] ["blue"] 0.7 in
  call ImagePlot_ (inr tt);;
  let img := mkImagePlot ds "Sectorized_CMI" "Greys" in
  call MapPanel_ (inr tt);;
  let panel :=
    mkMapPanel [-112; -65; 20; 50]
      ("IR Satellite Data Channel 14 with Surface Temperature (F) at " +:+ str_datetime vtime)
      ["coastline"; "borders"; "states"]
      [PImage img; PObs obs; PObs obs2] in
  call PanelContainer_ (inr tt);;
  let pc := mkPanelContainer (20, 20) [panel] in
  call show_ (show pc);;
  modify (display pc).

(** The notebook, top to bottom. *)
Definition notebook (utcnow : datetime) : NB Kernel unit :=
  ds ← get_satellite_cell utcnow;
  let vtime := vtime_cell ds in
  df ← metar_cell vtime;
  df ← convert_cell df;
  plot_cell df ds vtime.

End Notebook.

End SatelliteSfcObs.

(** ** The AWIPS maps-database notebook *)

Module MapResources.

(** *** Libraries *)

(** shapely, over whatever represents a geometry. *)
Class Shapely (Geom : Type) : Type := {
  Polygon : Geom -> Geom;
  intersects : Geom -> Geom -> bool;
  intersection : Geom -> Geom -> Geom;
  cascaded_union : list Geom -> Geom;
  buffer : Geom -> float -> Geom;
  (** [g.bounds]: the tuple [(minx, miny, maxx, maxy)]; the library decides
      what the tuple of an empty geometry is, the empty tuple for one *)
  bounds : Geom -> list float;
  (** [point.x], [point.y] *)
  point_x : Geom -> float;
  point_y : Geom -> float;
  (** the elements numpy makes of a geometry it is given as an array: the
      geometry itself, or its parts where the library lets numpy iterate a
      multi-part geometry *)
  as_elements : Geom -> list Geom
}.

Section Data.
Context {Geom : Type}.

(** The request object: [newDataRequest] creates it, the setters update it. *)
Record Request : Type := mkRequest {
  datatype : string;
  identifiers : gmap string string;
  locationNames : list string;
  parameters : list string;
  envelope : option Geom
}.

(** One returned row: its geometry and what [getString] and [getNumber]
    read for each parameter. *)
Record GeometryData : Type := mkGeometryData {
  geometry : Geom;
  strings : gmap string string;
  numbers : gmap string Z
}.

(** One returned grid: what [getRawData] and [getLatLonCoords] give. *)
Record GridData : Type := mkGridData {
  rawData : list (list float);
  latLonCoords : list (list float) * list (list float)
}.

(** A logged library call: the function, its string arguments, the
    geometries it reads and the geometries it returns, the request it
    submits, if it submits one, and the exception it raised, if any. *)
Record Event : Type := mkEvent {
  fn : LibCall;
  strs : list string;
  uses : list Geom;
  defs : list Geom;
  sent : option Request;
  failure : option Exn
}.

(** A call that submits no request and returns. *)
Definition event (f : LibCall) (ss : list string) (us ds : list Geom) : Event :=
  mkEvent f ss us ds None None.

Definition Style : Type := list (string * string).

(** What has been drawn on [ax]. *)
Inductive Artist : Type :=
| Coastlines (resolution : string)
| Gridlines (draw_labels top_labels right_labels : bool)
| NaturalEarth (category name scale : string) (style : Style)
| ShapelyFeat (geoms : list Geom) (style : Style)
| Scatter (xs ys : list float) (marker facecolor : string)
| Annotation (text : string) (xy : float * float) (xytext : Z * Z)
| Contourf (lons lats : list (list float)) (z : list (list (option float)))
           (levels : Z) (cmap : string) (alpha : float) (extend : string)
| Colorbar (shrink : float) (orientation label : string).

Record Figure : Type := mkFigure {
  figsize : Z * Z;
  projection : string;
  extent : option (list float);
  artists : list Artist
}.

Record Kernel : Type := mkKernel {
  trace : list Event;      (* library calls made so far, oldest first *)
  edex_host : string;      (* the server DataAccessLayer talks to *)
  figure : Figure          (* the figure [fig], [ax] name *)
}.

Definition log (e : Event) (w : Kernel) : Kernel :=
  mkKernel (trace w ++ [e]) (edex_host w) (figure w).

Definition set_host (host : string) (w : Kernel) : Kernel :=
  mkKernel (trace w) host (figure w).

Definition set_figure (f : Figure) (w : Kernel) : Kernel :=
  mkKernel (trace w) (edex_host w) f.

Definition draw (a : Artist) (w : Kernel) : Kernel :=
  set_figure (mkFigure (figsize (figure w)) (projection (figure w))
                       (extent (figure w)) (artists (figure w) ++ [a])) w.

Definition set_extent (bbox : list float) (w : Kernel) : Kernel :=
  set_figure (mkFigure (figsize (figure w)) (projection (figure w))
                       (Some bbox) (artists (figure w))) w.

(** A call of [f] with string arguments [ss] that reads the geometries
    [us], returns the geometries [ds] and has outcome [r]. *)
Definition call {A} (f : LibCall) (ss : list string) (us ds : list Geom)
    (r : Exn + A) : NB Kernel A :=
  fun w => (log (mkEvent f ss us ds None (failure_of r)) w, r).

(** A call of [f] that submits [request], returns the geometries [ds] and
    has outcome [r]. *)
Definition submit {A} (f : LibCall) (request : Request) (ds : list Geom)
    (r : Exn + A) : NB Kernel A :=
  fun w =>
    (log (mkEvent f [datatype request] (option_list (envelope request)) ds
            (Some request) (failure_of r)) w, r).

(** A geometry operation [f] on [us] that returns the geometry [g]. *)
Definition geometry_call (f : LibCall) (us : list Geom) (g : Geom) : NB Kernel Geom :=
  call f [] us [g] (inr g).

End Data.

Arguments Request : clear implicits.
Arguments GeometryData : clear implicits.
Arguments Event : clear implicits.
Arguments Artist : clear implicits.
Arguments Figure : clear implicits.
Arguments Kernel : clear implicits.

(** python-awips: the service behind [DataAccessLayer], as seen from the
    host set by [changeEDEXHost]. *)
Class Awips (Geom : Type) : Type := {
  getGeometryData_on : string -> Request Geom -> Exn + list (GeometryData Geom);
  getGridData_on : string -> Request Geom -> Exn + list GridData
}.

(** *** The cells *)

Section Notebook.
Context {Geom : Type} `{Shapely Geom} `{Awips Geom}.

Local Abbreviation NBK := (NB (Kernel Geom)).

(** **** Setup *)

(** [make_map(bbox, projection)]: a new figure with the standard
    decorations.  What it returns, [fig, ax], is the kernel's figure. *)
Definition make_map (bbox : list float) (projection : string) : NBK unit :=
  call subplots_ [projection] [] [] (inr tt);;
  modify (set_figure (mkFigure (12, 12) projection None []));;
  call set_extent_ [] [] [] (inr tt);;
  modify (set_extent bbox);;
  call coastlines_ ["50m"] [] [] (inr tt);;
  modify (draw (Coastlines "50m"));;
  call gridlines_ [] [] [] (inr tt);;
  modify (draw (Gridlines true false false)).

Definition changeEDEXHost (host : string) : NBK unit :=
  call changeEDEXHost_ [host] [] [] (inr tt);;
  modify (set_host host).

Definition newDataRequest (datatype : string) (envelope : option Geom)
  : NBK (Request Geom) :=
  call newDataRequest_ [datatype] (option_list envelope) []
    (inr (mkRequest datatype ∅ [] [] envelope)).

Definition addIdentifier (request : Request Geom) (key value : string)
  : NBK (Request Geom) :=
  call addIdentifier_ [key; value] [] []
    (inr (mkRequest (datatype request) (<[key := value]> (identifiers request))
            (locationNames request) (parameters request) (envelope request))).

Definition setLocationNames (request : Request Geom) (names : list string)
  : NBK (Request Geom) :=
  call setLocationNames_ names [] []
    (inr (mkRequest (datatype request) (identifiers request) names
            (parameters request) (envelope request))).

Definition setParameters (request : Request Geom) (params : list string)
  : NBK (Request Geom) :=
  call setParameters_ params [] []
    (inr (mkRequest (datatype request) (identifiers request)
            (locationNames request) params (envelope request))).

Definition setEnvelope (request : Request Geom) (env : Geom) : NBK (Request Geom) :=
  call setEnvelope_ [] [env] []
    (inr (mkRequest (datatype request) (identifiers request)
            (locationNames request) (parameters request) (Some env))).

(** The geometries a response carries; none when the call failed. *)
Definition fetched (r : Exn + list (GeometryData Geom)) : list Geom :=
  match r with
  | inr response => map geometry response
  | inl _ => []
  end.

Definition getGeometryData (request : Request Geom) : NBK (list (GeometryData Geom)) :=
  fun w =>
    let r := getGeometryData_on (edex_host w) request in
    submit getGeometryData_ request (fetched r) r w.

Definition getGridData (request : Request Geom) : NBK (list GridData) :=
  fun w => submit getGridData_ request [] (getGridData_on (edex_host w) request) w.

Definition getGeometry (ob : GeometryData Geom) : NBK Geom :=
  call getGeometry_ [] [geometry ob] [] (inr (geometry ob)).

Definition getString (ob : GeometryData Geom) (param : string) : NBK string :=
  call getString_ [param] [] []
    (match strings ob !! param with
     | Some s => inr s
     | None => inl (KeyError param)
     end).

Definition getNumber (ob : GeometryData Geom) (param : string) : NBK Z :=
  call getNumber_ [param] [] []
    (match numbers ob !! param with
     | Some n => inr n
     | None => inl (KeyError param)
     end).

Definition setup_cell : NBK (Request Geom) :=
  changeEDEXHost "edex-cloud.unidata.ucar.edu";;
  request ← newDataRequest "maps" None;
  addIdentifier request "table" "mapdata.county".

(** **** Request County Boundaries for a WFO *)

(** numpy and shapely: each call logs the geometries it is given and the
    geometries it returns. *)
Definition np_array_empty : NBK (list Geom) := call np_array_ [] [] [] (inr []).

(** [np.append(arr, g)]: a new array, [arr] followed by the elements numpy
    makes of [g]. *)
Definition np_append (arr : list Geom) (g : Geom) : NBK (list Geom) :=
  call np_append_ [] [g] (as_elements g) (inr (arr ++ as_elements g)).

Definition shapely_cascaded_union (geometries : list Geom) : NBK Geom :=
  geometry_call cascaded_union_ geometries (cascaded_union geometries).

Definition shapely_buffer (g : Geom) (distance : float) : NBK Geom :=
  geometry_call buffer_ [g] (buffer g distance).

Definition shapely_bounds (g : Geom) : NBK (list float) :=
  call bounds_ [] [g] [] (inr (bounds g)).

Definition shapely_Polygon (g : Geom) : NBK Geom :=
  geometry_call Polygon_ [g] (Polygon g).

Definition shapely_intersects (g h : Geom) : NBK bool :=
  call intersects_ [] [g; h] [] (inr (intersects g h)).

Definition shapely_intersection (g h : Geom) : NBK Geom :=
  geometry_call intersection_ [g; h] (intersection g h).

(** [arr = np.array([])] then [arr = np.append(arr, ob.getGeometry())]
    for each row of the response. *)
Fixpoint collect_geometries (arr : list Geom) (response : list (GeometryData Geom))
  : NBK (list Geom) :=
  match response with
  | [] => mret arr
  | ob :: rest =>
      g ← getGeometry ob;
      arr ← np_append arr g;
      collect_geometries arr rest
  end.

(** The generator [(intersection(geom) for geom in geometries
    if cbounds.intersects(geom))], run to its end. *)
Fixpoint intersecting (cbounds : Geom) (geometries : list Geom) : NBK (list Geom) :=
  match geometries with
  | [] => mret []
  | geom :: rest =>
      hit ← shapely_intersects cbounds geom;
      if hit : bool
      then
        part ← shapely_intersection cbounds geom;
        parts ← intersecting cbounds rest;
        mret (part :: parts)
      else intersecting cbounds rest
  end.

(** [ShapelyFeature(geometries, crs, **style)] on geometries at hand, and
    [NaturalEarthFeature(category, name, scale, **style)] *)
Definition ShapelyFeature (geometries : list Geom) (style : Style) : NBK (Artist Geom) :=
  call ShapelyFeature_ [] geometries [] (inr (ShapelyFeat geometries style)).

(** [ShapelyFeature(geometries, crs, **style)] on a generator: the
    constructor is entered first and runs the generator to its end. *)
Definition ShapelyFeature_of (geometries : NBK (list Geom)) (style : Style)
  : NBK (Artist Geom) :=
  call ShapelyFeature_ [] [] [] (inr tt);;
  geoms ← geometries;
  mret (ShapelyFeat geoms style).

Definition NaturalEarthFeature (category name scale : string) (style : Style)
  : NBK (Artist Geom) :=
  call NaturalEarthFeature_ [category; name; scale] [] []
    (inr (NaturalEarth category name scale style)).

Definition artist_geoms (a : Artist Geom) : list Geom :=
  match a with
  | ShapelyFeat geoms _ => geoms
  | _ => []
  end.

Definition restyle (a : Artist Geom) (kwargs : Style) : Artist Geom :=
  match a with
  | ShapelyFeat geoms style => ShapelyFeat geoms (style ++ kwargs)
  | NaturalEarth category name scale style =>
      NaturalEarth category name scale (style ++ kwargs)
  | _ => a
  end.

(** [ax.add_feature(feature, **kwargs)] *)
Definition add_feature (feature : Artist Geom) (kwargs : Style) : NBK unit :=
  call add_feature_ [] (artist_geoms feature) [] (inr tt);;
  modify (draw (restyle feature kwargs)).

(** The loop that plots counties, the merged boundary and lakes: the
    source writes it three times, with a different style each time. *)
Definition plot_outlines (geometries : list Geom) (style : Style) : NBK unit :=
  for_each geometries (fun geom =>
    cbounds ← shapely_Polygon geom;
    shape_feature ← ShapelyFeature_of (intersecting cbounds geometries) style;
    add_feature shape_feature []).

(** [[bounds[0]-1, bounds[2]+1, bounds[1]-1.5, bounds[3]+1.5]]: IndexError
    when the tuple is too short. *)
Definition bbox_of (bounds : list float) : Exn + list float :=
  match getitem bounds 0, getitem bounds 2, getitem bounds 1, getitem bounds 3 with
  | inr b0, inr b2, inr b1, inr b3 =>
      inr [PrimFloat.sub b0 1; PrimFloat.add b2 1;
           PrimFloat.sub b1 1.5; PrimFloat.add b3 1.5]
  | inl e, _, _, _ => inl e
  | _, inl e, _, _ => inl e
  | _, _, inl e, _ => inl e
  | _, _, _, inl e => inl e
  end.

(** What the cell leaves in the notebook's variables. *)
Record CountyVars : Type := mkCountyVars {
  counties : list Geom;
  merged_counties : Geom;
  envelope_var : Geom;
  boundaries : list Geom;
  bbox : list float
}.

Definition county_cell (request : Request Geom) : NBK CountyVars :=
  request ← setLocationNames request ["BOU"];
  request ← addIdentifier request "cwa" "BOU";
  request ← addIdentifier request "geomField" "the_geom";
  request ← addIdentifier request "inLocation" "true";
  request ← addIdentifier request "locationField" "cwa";
  response ← getGeometryData request;
  counties ← np_array_empty;
  counties ← collect_geometries counties response;
  merged_counties ← shapely_cascaded_union counties;
  envelope ← shapely_buffer merged_counties 2;
  let boundaries := [merged_counties] in
  bounds ← shapely_bounds merged_counties;
  bbox ← lift (bbox_of bounds);
  make_map bbox "PlateCarree";;
  political_boundaries ← NaturalEarthFeature "cultural" "admin_0_boundary_lines_land"
                           "50m" [("facecolor", "none")];
  states ← NaturalEarthFeature "cultural" "admin_1_states_provinces_lines"
             "50m" [("facecolor", "none")];
  add_feature political_boundaries [("linestyle", "-"); ("edgecolor", "black")];;
  add_feature states [("linestyle", "-"); ("edgecolor", "black"); ("linewidth", "2")];;
  plot_outlines counties
    [("facecolor", "none"); ("linestyle", "-"); ("edgecolor", "#86989B")];;
  mret (mkCountyVars counties merged_counties envelope boundaries bbox).

(** **** Create a merged CWA with cascaded_union *)

Definition boundary_cell (boundaries : list Geom) : NBK unit :=
  plot_outlines boundaries
    [("facecolor", "none"); ("linestyle", "-"); ("linewidth", "3.");
     ("edgecolor", "#cc5000")].

(** **** WFO boundary spatial filter for interstates, and Major Rivers *)

(** The loop that plots interstates and rivers. *)
Definition plot_lines (response : list (GeometryData Geom)) (style : Style) : NBK unit :=
  for_each response (fun ob =>
    g ← getGeometry ob;
    shape_feature ← ShapelyFeature [g] style;
    add_feature shape_feature []).

Definition interstate_cell (envelope : Geom) : NBK unit :=
  request ← newDataRequest "maps" (Some envelope);
  request ← addIdentifier request "table" "mapdata.interstate";
  request ← addIdentifier request "geomField" "the_geom";
  request ← setParameters request ["name"];
  interstates ← getGeometryData request;
  plot_lines interstates
    [("facecolor", "none"); ("linestyle", "-"); ("edgecolor", "orange")].

Definition river_cell (envelope : Geom) : NBK unit :=
  request ← newDataRequest "maps" (Some envelope);
  request ← addIdentifier request "table" "mapdata.majorrivers";
  request ← addIdentifier request "geomField" "the_geom";
  request ← setParameters request ["pname"];
  rivers ← getGeometryData request;
  plot_lines rivers
    [("facecolor", "none"); ("linestyle", ":"); ("edgecolor", "#20B2AA")].

(** **** Nearby cities *)

(** The filtering loop, from [citylist = []], [cityname = []]. *)
Fixpoint city_filter (citylist : list Geom) (cityname : list string)
    (cities : list (GeometryData Geom)) : NBK (list Geom * list string) :=
  match cities with
  | [] => mret (citylist, cityname)
  | ob :: rest =>
      population ← getString ob "population";
      if truthy population
      then
        prog_disc ← getNumber ob "prog_disc";
        if 50 <? prog_disc
        then
          population ← getString ob "population";
          population ← lift (int population);
          if 5000 <? population
          then
            g ← getGeometry ob;
            name ← getString ob "name";
            city_filter (citylist ++ [g]) (cityname ++ [name]) rest
          else city_filter citylist cityname rest
        else city_filter citylist cityname rest
      else city_filter citylist cityname rest
  end.

(** [ax.scatter([point.x for point in points], [point.y for point in points], ...)] *)
Definition scatter (points : list Geom) (marker facecolor : string) : NBK unit :=
  call scatter_ [] points [] (inr tt);;
  modify (draw (Scatter (map point_x points) (map point_y points) marker facecolor)).

(** [ax.annotate(txt, (p.x, q.y), xytext=xytext, ...)] *)
Definition annotate (txt : string) (p q : Geom) (xytext : Z * Z) : NBK unit :=
  call annotate_ [txt] [p; q] [] (inr tt);;
  modify (draw (Annotation txt (point_x p, point_y q) xytext)).

(** [for i, txt in enumerate(cityname): ax.annotate(txt, (citylist[i].x, citylist[i].y), ...)] *)
Fixpoint annotate_cities (i : Z) (citylist : list Geom) (cityname : list string)
  : NBK unit :=
  match cityname with
  | [] => mret tt
  | txt :: rest =>
      p ← lift (getitem citylist i);
      q ← lift (getitem citylist i);
      annotate txt p q (3, 3);;
      annotate_cities (i + 1) citylist rest
  end.

Definition city_cell (envelope : Geom) : NBK (list Geom * list string) :=
  request ← newDataRequest "maps" (Some envelope);
  request ← addIdentifier request "table" "mapdata.city";
  request ← addIdentifier request "geomField" "the_geom";
  request ← setParameters request ["name"; "population"; "prog_disc"];
  cities ← getGeometryData request;
  '(citylist, cityname) ← city_filter [] [] cities;
  scatter citylist "+" "black";;
  annotate_cities 0 citylist cityname;;
  mret (citylist, cityname).

(** **** Lakes *)

Definition lake_cell (envelope : Geom) : NBK unit :=
  request ← newDataRequest "maps" (Some envelope);
  request ← addIdentifier request "table" "mapdata.lake";
  request ← addIdentifier request "geomField" "the_geom";
  request ← setParameters request ["name"];
  response ← getGeometryData request;
  lakes ← np_array_empty;
  lakes ← collect_geometries lakes response;
  plot_outlines lakes
    [("facecolor", "blue"); ("linestyle", "-"); ("edgecolor", "#20B2AA")].

(** **** Topography *)

(** [a.shape] of a two-dimensional array, rows first. *)
Definition shape {A} (a : list (list A)) : nat * nat :=
  (length a, match a with [] => O | row :: _ => length row end).

(** [ma.masked_invalid(a)]: NaN and the infinities are masked. *)
Definition masked_invalid (a : list (list float)) : list (list (option float)) :=
  map (map (fun x => if is_nan x || is_infinity x then None else Some x)) a.

(** [a.min()], [a.max()] raise ValueError on an array without elements;
    the value is only printed. *)
Definition reduction (f : LibCall) (a : list (list (option float))) : NBK unit :=
  call f [] [] [] (match concat a with [] => inl ValueError | _ :: _ => inr tt end).

Definition getRawData (grid : GridData) : NBK (list (list float)) :=
  call getRawData_ [] [] [] (inr (rawData grid)).

Definition getLatLonCoords (grid : GridData)
  : NBK (list (list float) * list (list float)) :=
  call getLatLonCoords_ [] [] [] (inr (latLonCoords grid)).

(** [ax.contourf(x, y, z, levels, ...)]: with two-dimensional [x] and [y]
    the three shapes must agree and [z] be at least 2 by 2, else
    TypeError. *)
Definition contourf (lons lats : list (list float)) (z : list (list (option float)))
    (levels : Z) (cmap : string) (alpha : float) (extend : string) : NBK unit :=
  call contourf_ [cmap; extend] [] []
    (if decide (shape lons = shape z ∧ shape lats = shape z
                ∧ (2 <= fst (shape z))%nat ∧ (2 <= snd (shape z))%nat)
     then inr tt else inl TypeError);;
  modify (draw (Contourf lons lats z levels cmap alpha extend)).

Definition topo_request_cell (envelope : Geom) : NBK (list GridData) :=
  request ← newDataRequest "topo" None;
  request ← addIdentifier request "group" "/";
  request ← addIdentifier request "dataset" "full";
  request ← setEnvelope request envelope;
  gridData ← getGridData request;
  first ← lift (getitem gridData 0);
  getRawData first;;
  first ← lift (getitem gridData 0);
  getRawData first;;
  mret gridData.

Definition topo_plot_cell (gridData : list GridData) : NBK unit :=
  grid ← lift (getitem gridData 0);
  raw ← getRawData grid;
  topo ← call masked_invalid_ [] [] [] (inr (masked_invalid raw));
  '(lons, lats) ← getLatLonCoords grid;
  reduction ma_min_ topo;;
  reduction ma_max_ topo;;
  call get_cmap_ ["terrain"] [] [] (inr tt);;
  contourf lons lats topo 80 "terrain" 0.1 "both";;
  call colorbar_ [] [] [] (inr tt);;
  call set_label_ ["topography height in meters"] [] [] (inr tt);;
  modify (draw (Colorbar 0.5 "horizontal" "topography height in meters")).

(** **** The notebook, top to bottom *)

Definition notebook : NBK unit :=
  request ← setup_cell;
  vars ← county_cell request;
  boundary_cell (boundaries vars);;
  interstate_cell (envelope_var vars);;
  city_cell (envelope_var vars);;
  lake_cell (envelope_var vars);;
  river_cell (envelope_var vars);;
  gridData ← topo_request_cell (envelope_var vars);
  topo_plot_cell gridData.

End Notebook.

(** The world of a freshly started kernel. *)
Definition fresh {Geom} : Kernel Geom :=
  mkKernel [] EmptyString (mkFigure (0, 0) EmptyString None []).

End MapResources.

(** ** Concrete libraries to run the notebooks on *)

Module Fixtures.

(** *** A catalog server and a METAR parser *)

Module Sat.
Import SatelliteSfcObs.

Definition noon : datetime := mkDatetime 2020 1 14 12 0 0 0.

Definition entry (n : string) : string * Dataset :=
  (n, mkDataset n ("https://thredds.ucar.edu/" +:+ n)).

Definition three_images : Catalog :=
  mkCatalog [entry "img_1100.nc"; entry "img_1130.nc"; entry "img_1200.nc"].

Definition metar_files : Catalog :=
  mkCatalog [entry "metar_20200114_1100.txt"; entry "metar_20200114_1200.txt"].

(** Two stations in Colorado, the second without a temperature group. *)
Definition two_reports : DataFrame :=
  mkDataFrame
    [mkMetarRow "KDEN" 39.85 (-104.65) (-3);
     mkMetarRow "KBJC" 39.9 (-105.1) nan]
    {[ "air_temperature" := "degC" ]}.

(** A server whose satellite catalog is [images]. *)
Definition siphon (images : Catalog) : Siphon := {|
  TDSCatalog url :=
    if String.eqb url metar_catalog_url then inr metar_files else inr images;
  remote_access ds := inr (mkXDataset (ds_name ds) noon);
  remote_read ds := inr ("METAR " +:+ ds_name ds)
|}.

(** A server that is down. *)
Definition offline : Siphon := {|
  TDSCatalog url := inl (LibraryError "siphon" "HTTPError");
  remote_access ds := inl (LibraryError "siphon" "HTTPError");
  remote_read ds := inl (LibraryError "siphon" "HTTPError")
|}.

Definition metpy : MetPy := {|
  parse_metar_text text := inr two_reports;
  units_to src dst := inr (fun c => PrimFloat.add (PrimFloat.mul c 1.8) 32);
  show pc := inr tt
|}.

(** A parser that rejects every file, a registry without units and a
    renderer without a display. *)
Definition strict_metpy : MetPy := {|
  parse_metar_text text := inl (LibraryError "metpy" "ParseError");
  units_to src dst := inl (LibraryError "pint" "UndefinedUnitError");
  show pc := inl (LibraryError "matplotlib" "no display")
|}.

(** The world of a freshly started kernel in a checkout where the directory
    ../../data exists: every file can be opened for writing. *)
Definition fresh : Kernel := mkKernel [] ∅ (fun _ => None) [].

(** The same in a checkout without the directory. *)
Definition without_data_directory : Kernel :=
  mkKernel [] ∅ (fun path => Some (FileNotFoundError path)) [].
End Sat.

(** *** Geometries made of boxes on the integer grid *)

Module Boxes.
Import MapResources.

Record Box : Type := mkBox { x0 : Z; y0 : Z; x1 : Z; y1 : Z }.

#[global] Instance Box_eq_dec : EqDecision Box.
Proof. solve_decision. Defined.

Definition Geom : Type := list Box.

Definition meet (a b : Box) : Box :=
  mkBox (Z.max (x0 a) (x0 b)) (Z.max (y0 a) (y0 b))
        (Z.min (x1 a) (x1 b)) (Z.min (y1 a) (y1 b)).

Definition inhabited (b : Box) : bool := (x0 b <=? x1 b) && (y0 b <=? y1 b).

Definition meets (g h : Geom) : Geom :=
  List.filter inhabited (flat_map (fun a => map (meet a) h) g).

Definition grow (d : Z) (b : Box) : Box :=
  mkBox (x0 b - d) (y0 b - d) (x1 b + d) (y1 b + d).

Definition float_of_Z (z : Z) : float :=
  if z <? 0 then PrimFloat.opp (PrimFloat.of_uint63 (Uint63.of_Z (- z)))
  else PrimFloat.of_uint63 (Uint63.of_Z z).

(** Truncation towards zero. *)
Definition Z_of_float (f : float) : Z :=
  match Prim2SF f with
  | S754_finite s m e => let z := Z.shiftl (Z.pos m) e in if s then - z else z
  | _ => 0
  end.

(** The bounds of a geometry; the empty tuple for the empty geometry. *)
Definition hull (g : Geom) : list float :=
  match g with
  | [] => []
  | b :: bs =>
      [float_of_Z (fold_right Z.min (x0 b) (map x0 bs));
       float_of_Z (fold_right Z.min (y0 b) (map y0 bs));
       float_of_Z (fold_right Z.max (x1 b) (map x1 bs));
       float_of_Z (fold_right Z.max (y1 b) (map y1 bs))]
  end.

Definition shapely : Shapely Geom := {|
  Polygon g := g;
  intersects g h := negb (forallb (fun _ => false) (meets g h));
  intersection g h := meets g h;
  cascaded_union gs := concat gs;
  buffer g d := map (grow (Z_of_float d)) g;
  bounds := hull;
  point_x g := match g with b :: _ => float_of_Z (x0 b) | [] => nan end;
  point_y g := match g with b :: _ => float_of_Z (y0 b) | [] => nan end;
  as_elements g := map (fun b => [b]) g
|}.

Definition square (x y : Z) : Geom := [mkBox x y (x + 2) (y + 2)].
Definition point (x y : Z) : Geom := [mkBox x y x y].

Definition row (g : Geom) (ss : list (string * string)) (ns : list (string * Z))
  : GeometryData Geom :=
  mkGeometryData g (list_to_map ss) (list_to_map ns).

(** Two counties that share an edge. *)
Definition county_rows : list (GeometryData Geom) :=
  [row (square 0 0) [] []; row (square 2 0) [] []].

Definition interstate_rows : list (GeometryData Geom) :=
  [row [mkBox (-2) 1 6 1] [("name", "I-70")] []].

Definition city_rows : list (GeometryData Geom) :=
  [row (point 1 1) [("name", "Denver"); ("population", "600158")] [("prog_disc", 80)];
   row (point 3 1) [("name", "Ward"); ("population", "150")] [("prog_disc", 90)];
   row (point 2 2) [("name", "Erie"); ("population", EmptyString)] [("prog_disc", 60)];
   row (point 3 0) [("name", "Boulder"); ("population", "97385")] [("prog_disc", 70)]].

Definition lake_rows : list (GeometryData Geom) :=
  [row [mkBox 1 1 1 2] [("name", "Barr Lake")] []].

(** One lake in two parts. *)
Definition two_part_lake_rows : list (GeometryData Geom) :=
  [row [mkBox 1 1 1 2; mkBox 3 1 3 2] [("name", "Twin Lakes")] []].

Definition river_rows : list (GeometryData Geom) :=
  [row [mkBox (-2) 0 6 0] [("pname", "SOUTH PLATTE")] []].

Definition topo_grid : GridData :=
  mkGridData [[1600; 1700]; [nan; 2100]]%float
             ([[-105; -104]; [-105; -104]]%float, [[39; 39]; [40; 40]]%float).

(** A server that answers each table with the rows given for it. *)
Definition edex (tables : list (string * list (GeometryData Geom))) : Awips Geom := {|
  getGeometryData_on host request :=
    match identifiers request !! "table" with
    | Some table =>
        match (list_to_map tables : gmap string _) !! table with
        | Some rows => inr rows
        | None => inl (LibraryError "awips" "table not found")
        end
    | None => inl (LibraryError "awips" "no table")
    end;
  getGridData_on host request := inr [topo_grid]
|}.

Definition colorado : Awips Geom :=
  edex [("mapdata.county", county_rows); ("mapdata.interstate", interstate_rows);
        ("mapdata.city", city_rows); ("mapdata.lake", lake_rows);
        ("mapdata.majorrivers", river_rows)].

(** A server that refuses every request. *)
Definition unreachable : Awips Geom := {|
  getGeometryData_on host request := inl (LibraryError "awips" "ThriftRequestException");
  getGridData_on host request := inl (LibraryError "awips" "ThriftRequestException")
|}.
End Boxes.

End Fixtures.


(** ** Properties of runs, as predicates *)

Module Spec.

(** *** Failures of calls, read from the log of calls *)

Module Journal.

Section Journal.
Context {W J : Type} (journal : W -> list J) (failure : J -> option Exn).

(** Calls that all returned. *)
Definition quiet (calls : list J) : Prop := Forall (fun c => failure c = None) calls.

(** How the calls of a step end, given its outcome: when the step returns,
    every call returned; when it raises [e], either every call returned (the
    exception is Python's own) or the last call raised [e] and the calls
    before it returned. *)
Definition ends {A} (calls : list J) (r : Exn + A) : Prop :=
  match r with
  | inr _ => quiet calls
  | inl e =>
      quiet calls
      \/ exists before last,
           calls = before ++ [last] /\ quiet before /\ failure last = Some e
  end.

(** A step that only appends to the log and whose calls end as its outcome
    says. *)
Definition unhandled {A} (step : NB W A) : Prop :=
  forall w, exists calls,
    journal (fst (step w)) = journal w ++ calls /\ ends calls (snd (step w)).

(** Whenever a call of the step raises, that call is the last one the step
    makes and its exception is the outcome of the step. *)
Definition failures_surface {A} (step : NB W A) : Prop :=
  forall w before c after e,
    journal (fst (step w)) = journal w ++ before ++ c :: after ->
    failure c = Some e ->
    after = [] /\ snd (step w) = inl e.

End Journal.

End Journal.

Module Sat.
Import SatelliteSfcObs.

(** A step that leaves every file as it found it. *)
Definition leaves_files_alone {A} (step : NB Kernel A) : Prop :=
  forall w, files (fst (step w)) = files w.

(** Row [r] is in one of the two plotted layers and not in the other. *)
Definition in_exactly_one_layer (r : ObsRow) (df : list ObsRow) : Prop :=
  (In r (above_freezing df) /\ ~ In r (at_or_below_freezing df))
  \/ (~ In r (above_freezing df) /\ In r (at_or_below_freezing df)).

(** A step that leaves alone what opening a file for writing does. *)
Definition leaves_directories_alone {A} (step : NB Kernel A) : Prop :=
  forall w path, open_wb (fst (step w)) path = open_wb w path.

(** The library calls a step makes when run from [w]. *)
Definition calls_from {A} (step : NB Kernel A) (w : Kernel) : list LibCall :=
  map fst (drop (length (trace w)) (trace (fst (step w)))).

End Sat.

Module Maps.
Import MapResources.

(** The pipeline stage a library function belongs to. *)
Inductive Stage : Type := Configure | Submit | Geometry | Render | Other.

#[global] Instance Stage_eq_dec : EqDecision Stage.
Proof. solve_decision. Defined.

Definition stage (f : LibCall) : Stage :=
  match f with
  | newDataRequest_ | addIdentifier_ | setLocationNames_ | setParameters_
  | setEnvelope_ => Configure
  | getGeometryData_ | getGridData_ => Submit
  | cascaded_union_ | buffer_ | bounds_ | Polygon_ | intersects_
  | intersection_ => Geometry
  | subplots_ | set_extent_ | coastlines_ | gridlines_ | NaturalEarthFeature_
  | ShapelyFeature_ | add_feature_ | scatter_ | annotate_ | contourf_
  | colorbar_ | set_label_ | get_cmap_ => Render
  | _ => Other
  end.

(** Where the current request object stands. *)
Inductive Phase : Type :=
| NoRequest
| Open (identified : bool)   (* created, with or without an identifier yet *)
| Submitted.

#[global] Instance Phase_eq_dec : EqDecision Phase.
Proof. solve_decision. Defined.

Section Traces.
Context {Geom : Type}.
Implicit Types (e : Event Geom) (tr pre post : list (Event Geom)) (g : Geom).

Definition next (ph : Phase) (e : Event Geom) : Phase :=
  match fn e with
  | newDataRequest_ => Open false
  | addIdentifier_ => match ph with Open _ => Open true | _ => ph end
  | getGeometryData_ | getGridData_ => Submitted
  | _ => ph
  end.

Definition phase (tr : list (Event Geom)) : Phase := fold_left next tr NoRequest.

(** What a request names as its source: a table, or a group and a dataset. *)
Definition has_source (r : Request Geom) : Prop :=
  is_Some (identifiers r !! "table")
  \/ (is_Some (identifiers r !! "group") /\ is_Some (identifiers r !! "dataset")).

(** What restricts a request in space: location names or an envelope. *)
Definition has_spatial_filter (r : Request Geom) : Prop :=
  locationNames r <> [] \/ is_Some (envelope r).

Definition well_configured (r : Request Geom) : Prop :=
  has_source r /\ has_spatial_filter r.

(** A table, a location filter and an envelope, all three. *)
Definition fully_configured (r : Request Geom) : Prop :=
  is_Some (identifiers r !! "table") /\ locationNames r <> []
  /\ is_Some (envelope r).

(** A setter needs a request that is not submitted yet; a submission needs
    such a request too, with an identifier set, and the request it sends
    names its source and has a spatial filter. *)
Definition permitted (ph : Phase) (e : Event Geom) : Prop :=
  match fn e with
  | addIdentifier_ | setLocationNames_ | setParameters_ | setEnvelope_ =>
      exists identified, ph = Open identified
  | getGeometryData_ | getGridData_ =>
      ph = Open true /\ exists r, sent e = Some r /\ well_configured r
  | _ => True
  end.

(** Every request is configured, then submitted, and not touched again. *)
Definition configured_before_submitted (tr : list (Event Geom)) : Prop :=
  forall pre e post, tr = pre ++ e :: post -> permitted (phase pre) e.

(** Every request sent has a table, a location filter and an envelope. *)
Definition submits_fully_configured (tr : list (Event Geom)) : Prop :=
  forall e r, e ∈ tr -> sent e = Some r -> fully_configured r.

(** The calls whose results count as produced: a submission, a geometry
    operation, and [np.append], which hands back the elements numpy makes of
    the geometry it is given. *)
Definition produces (f : LibCall) : Prop :=
  stage f = Submit \/ stage f = Geometry \/ f = np_append_.

(** [g] was returned by such a call in [pre]. *)
Definition produced (pre : list (Event Geom)) (g : Geom) : Prop :=
  exists e, e ∈ pre /\ produces (fn e) /\ g ∈ defs e.

(** Every geometry a call reads was returned by an earlier call. *)
Definition reads_produced (tr : list (Event Geom)) : Prop :=
  forall pre e post g, tr = pre ++ e :: post -> g ∈ uses e -> produced pre g.

(** Every geometry a rendering call reads was returned by an earlier geometry
    operation. *)
Definition renders_only_set_operation_results (tr : list (Event Geom)) : Prop :=
  forall pre e post g,
    tr = pre ++ e :: post -> stage (fn e) = Render -> g ∈ uses e ->
    exists e', e' ∈ pre /\ stage (fn e') = Geometry /\ g ∈ defs e'.

(** A trace that keeps both rules. *)
Definition sound (tr : list (Event Geom)) : Prop :=
  reads_produced tr /\ configured_before_submitted tr.

(** The geometries [gs] have been produced and the request is in phase [ph]. *)
Definition known (gs : list Geom) (ph : Phase) (tr : list (Event Geom)) : Prop :=
  (forall g, g ∈ gs -> produced tr g) /\ phase tr = ph.

(** Run from a world whose trace is sound and satisfies [P], the step only
    appends to the trace and leaves it sound, whether it returns or raises;
    when it returns [a] the trace satisfies [Q a]. *)
Definition spec {A} (P : list (Event Geom) -> Prop) (step : NB (Kernel Geom) A)
    (Q : A -> list (Event Geom) -> Prop) : Prop :=
  forall w, sound (trace w) -> P (trace w) ->
    (exists more, trace (fst (step w)) = trace w ++ more)
    /\ sound (trace (fst (step w)))
    /\ match snd (step w) with
       | inr a => Q a (trace (fst (step w)))
       | inl _ => True
       end.

(** The library functions a step calls when run from [w], in order, and what
    it draws. *)
Definition calls_from {A} (step : NB (Kernel Geom) A) (w : Kernel Geom) : list LibCall :=
  map fn (drop (length (trace w)) (trace (fst (step w)))).

Definition drawn_from {A} (step : NB (Kernel Geom) A) (w : Kernel Geom)
  : list (Artist Geom) :=
  drop (length (artists (figure w))) (artists (figure (fst (step w)))).

Definition is_intersects (f : LibCall) : bool := bool_decide (f = intersects_).

(** The world after the calls [evs] and the drawing of [arts]. *)
Definition emit (evs : list (Event Geom)) (arts : list (Artist Geom)) (w : Kernel Geom)
  : Kernel Geom :=
  mkKernel (trace w ++ evs) (edex_host w)
    (mkFigure (figsize (figure w)) (projection (figure w)) (extent (figure w))
       (artists (figure w) ++ arts)).

End Traces.

Section Reference.
Context {Geom : Type} `{Shapely Geom}.

(** A single pass over fetched geometries: each one is handed to the renderer
    once, as it is. *)
Definition single_pass (geometries : list Geom) (style : Style) : NB (Kernel Geom) unit :=
  for_each geometries (fun geom =>
    shape_feature ← ShapelyFeature [geom] style;
    add_feature shape_feature []).

(** What the outline loop hands to the renderer for [geom]. *)
Definition parts (geometries : list Geom) (geom : Geom) : list Geom :=
  map (intersection (Polygon geom))
      (List.filter (intersects (Polygon geom)) geometries).

(** What the collecting loop makes of a response: the elements numpy makes
    of each row's geometry, in the order of the rows. *)
Definition collected (response : list (GeometryData Geom)) : list Geom :=
  flat_map (fun ob => as_elements (geometry ob)) response.

(** The calls of the collecting loop. *)
Definition collect_events (response : list (GeometryData Geom)) : list (Event Geom) :=
  flat_map (fun ob =>
    [event getGeometry_ [] [geometry ob] [];
     event np_append_ [] [geometry ob] (as_elements (geometry ob))]) response.

(** The calls of the generator inside the outline loop. *)
Definition intersecting_events (cbounds : Geom) (geometries : list Geom)
  : list (Event Geom) :=
  flat_map (fun geom =>
    event intersects_ [] [cbounds; geom] []
    :: (if intersects cbounds geom
        then [event intersection_ [] [cbounds; geom] [intersection cbounds geom]]
        else [])) geometries.

(** The calls of one round of the outline loop. *)
Definition outline_events (geometries : list Geom) (geom : Geom) : list (Event Geom) :=
  event Polygon_ [] [geom] [Polygon geom]
  :: event ShapelyFeature_ [] [] []
  :: intersecting_events (Polygon geom) geometries
  ++ [event add_feature_ [] (parts geometries geom) []].

(** The calls of one round of the line loop. *)
Definition line_events (ob : GeometryData Geom) : list (Event Geom) :=
  [event getGeometry_ [] [geometry ob] [];
   event ShapelyFeature_ [] [geometry ob] [];
   event add_feature_ [] [geometry ob] []].

(** The three tests of the city filter. *)
Definition has_population (ob : GeometryData Geom) : bool :=
  match strings ob !! "population" with
  | Some p => truthy p
  | None => false
  end.

Definition disclosed (ob : GeometryData Geom) : bool :=
  match numbers ob !! "prog_disc" with
  | Some d => 50 <? d
  | None => false
  end.

Definition populous (ob : GeometryData Geom) : bool :=
  match strings ob !! "population" with
  | Some p => match int p with inr n => 5000 <? n | inl _ => false end
  | None => false
  end.

Definition selected (ob : GeometryData Geom) : bool :=
  has_population ob && disclosed ob && populous ob.

(** The library calls the city filter makes for one row that has the fields
    it reads. *)
Definition city_calls (ob : GeometryData Geom) : list LibCall :=
  getString_
  :: (if has_population ob
      then getNumber_
           :: (if disclosed ob
               then getString_
                    :: (if populous ob then [getGeometry_; getString_] else [])
               else [])
      else []).

(** [citylist] and [cityname] pair up, index by index, the geometry and the
    name of one returned row that has a non-empty population string, a
    [prog_disc] above 50 and a population above 5000; and every such row is
    in the lists. *)
Definition passes (ob : GeometryData Geom) : Prop :=
  exists p d n,
    strings ob !! "population" = Some p /\ p <> EmptyString
    /\ numbers ob !! "prog_disc" = Some d /\ 50 < d
    /\ int p = inr n /\ 5000 < n.

Definition paired_selection (cities : list (GeometryData Geom))
    (citylist : list Geom) (cityname : list string) : Prop :=
  length citylist = length cityname
  /\ (forall (i : nat) g name,
        citylist !! i = Some g -> cityname !! i = Some name ->
        exists ob, ob ∈ cities /\ geometry ob = g
                   /\ strings ob !! "name" = Some name /\ passes ob)
  /\ (forall ob, ob ∈ cities -> passes ob ->
        exists (i : nat) name,
          citylist !! i = Some (geometry ob) /\ cityname !! i = Some name
          /\ strings ob !! "name" = Some name).

(** What the annotation loop draws for the two lists. *)
Definition annotations (citylist : list Geom) (cityname : list string)
  : list (Artist Geom) :=
  zip_with (fun g name => Annotation name (point_x g, point_y g) (3, 3))
           citylist cityname.

(** **** The requests the cells send *)

(** The county request, from the request the setup cell leaves. *)
Definition county_request (request : Request Geom) : Request Geom :=
  mkRequest (datatype request)
    (<["locationField" := "cwa"]>
       (<["inLocation" := "true"]>
          (<["geomField" := "the_geom"]>
             (<["cwa" := "BOU"]> (identifiers request)))))
    ["BOU"] (parameters request) (envelope request).

(** A request for the rows of [table] inside [env]. *)
Definition table_request (table : string) (params : list string) (env : Geom)
  : Request Geom :=
  mkRequest "maps" (<["geomField" := "the_geom"]> (<["table" := table]> ∅))
    [] params (Some env).

Definition topo_request (env : Geom) : Request Geom :=
  mkRequest "topo" (<["dataset" := "full"]> (<["group" := "/"]> ∅)) [] []
    (Some env).

(** **** The library calls of each step, in order *)

Definition table_request_calls : list LibCall :=
  [newDataRequest_; addIdentifier_; addIdentifier_; setParameters_;
   getGeometryData_].

(** Two calls per row. *)
Definition collect_calls (response : list (GeometryData Geom)) : list LibCall :=
  flat_map (fun _ => [getGeometry_; np_append_]) response.

(** Three calls per row. *)
Definition line_calls (response : list (GeometryData Geom)) : list LibCall :=
  flat_map (fun _ => [getGeometry_; ShapelyFeature_; add_feature_]) response.

(** For each geometry: its polygon, the feature, one test per geometry with
    an intersection after each test that holds, and the drawing. *)
Definition outline_calls (geometries : list Geom) : list LibCall :=
  flat_map (fun geom =>
    [Polygon_; ShapelyFeature_]
    ++ flat_map (fun h =>
         intersects_
         :: (if intersects (Polygon geom) h then [intersection_] else []))
         geometries
    ++ [add_feature_]) geometries.

Definition county_calls (response : list (GeometryData Geom)) : list LibCall :=
  [setLocationNames_; addIdentifier_; addIdentifier_; addIdentifier_;
   addIdentifier_; getGeometryData_; np_array_]
  ++ collect_calls response
  ++ [cascaded_union_; buffer_; bounds_; subplots_; set_extent_; coastlines_;
      gridlines_; NaturalEarthFeature_; NaturalEarthFeature_; add_feature_;
      add_feature_]
  ++ outline_calls (collected response).

Definition city_cell_calls (cities : list (GeometryData Geom)) : list LibCall :=
  table_request_calls
  ++ flat_map city_calls cities
  ++ scatter_ :: map (fun _ => annotate_) (List.filter selected cities).

Definition lake_calls (response : list (GeometryData Geom)) : list LibCall :=
  table_request_calls ++ [np_array_] ++ collect_calls response
  ++ outline_calls (collected response).

Definition topo_request_calls : list LibCall :=
  [newDataRequest_; addIdentifier_; addIdentifier_; setEnvelope_; getGridData_;
   getRawData_; getRawData_].

Definition topo_plot_calls : list LibCall :=
  [getRawData_; masked_invalid_; getLatLonCoords_; ma_min_; ma_max_; get_cmap_;
   contourf_; colorbar_; set_label_].

End Reference.

End Maps.

End Spec.

(** ** More fixtures and predicates *)

Module More.

Module Sat.
Import SatelliteSfcObs.

(** A satellite catalog late in the day: eleven images. *)
Definition eleven_images : Catalog :=
  mkCatalog (map (fun n => Fixtures.Sat.entry ("img_" +:+ pretty n +:+ ".nc"))
                 (seqZ 0 11)).

(** A step that shows nothing. *)
Definition shows_nothing {A} (step : NB Kernel A) : Prop :=
  forall w, displayed (fst (step w)) = displayed w.

End Sat.

Module Maps.
Import MapResources.

Section Reading.
Context {Geom : Type}.

(** A row the city filter can read as far as it goes: it has a population
    string; if that is non-empty it has a [prog_disc]; if that is above 50
    the population parses; if the population is above 5000 it has a name. *)
Definition readable (ob : GeometryData Geom) : bool :=
  match strings ob !! "population" with
  | None => false
  | Some p =>
      if truthy p
      then match numbers ob !! "prog_disc" with
           | None => false
           | Some d =>
               if 50 <? d
               then match int p with
                    | inl _ => false
                    | inr n =>
                        if 5000 <? n
                        then bool_decide (is_Some (strings ob !! "name"))
                        else true
                    end
               else true
           end
      else true
  end.

(** The name [getString("name")] reads from a row that has one. *)
Definition name_of (ob : GeometryData Geom) : string :=
  default EmptyString (strings ob !! "name").

(** The end world talks to the same server as the start world. *)
Definition same_host (w w' : Kernel Geom) : Prop := edex_host w' = edex_host w.

(** The end world shows the start world's figure, with the same extent, and
    possibly more artists after the ones it had. *)
Definition drawing_grows (w w' : Kernel Geom) : Prop :=
  figsize (figure w') = figsize (figure w)
  /\ projection (figure w') = projection (figure w)
  /\ extent (figure w') = extent (figure w)
  /\ artists (figure w) `prefix_of` artists (figure w').

(** The end world talks to the same server, and its figure is the start
    world's with possibly more artists. *)
Definition only_draws (w w' : Kernel Geom) : Prop :=
  same_host w w' /\ drawing_grows w w'.

(** A row that lacks a field the filter asks it for: the population string;
    the [prog_disc] of a row whose population string is not empty; the name
    of a row that passes the three tests. *)
Definition lacks_field (ob : GeometryData Geom) : bool :=
  match strings ob !! "population" with
  | None => true
  | Some p =>
      truthy p
      && match numbers ob !! "prog_disc" with
         | None => true
         | Some d =>
             (50 <? d)
             && match int p with
                | inr n => (5000 <? n) && bool_decide (strings ob !! "name" = None)
                | inl _ => false
                end
         end
  end.

(** A city, and the row of the city table the server sends for it: the
    population comes as its decimal rendering. *)
Record City : Type := mkCity {
  location : Geom;
  label : string;
  inhabitants : Z;
  disclosure : Z
}.

Definition city_row (c : City) : GeometryData Geom :=
  mkGeometryData (location c)
    (<["population" := pretty (inhabitants c)]> {[ "name" := label c ]})
    {[ "prog_disc" := disclosure c ]}.

(** Disclosure level above 50 and more than 5000 inhabitants. *)
Definition qualifies (c : City) : bool :=
  (50 <? disclosure c) && (5000 <? inhabitants c).

(** A step whose end world is related to its start world, however it ends. *)
Definition keeps {A} (R : Kernel Geom -> Kernel Geom -> Prop)
    (step : NB (Kernel Geom) A) : Prop :=
  forall w, R w (fst (step w)).

End Reading.

Arguments City : clear implicits.

(** Two counties apart from each other. *)
Definition distant_counties : list Fixtures.Boxes.Geom :=
  [Fixtures.Boxes.square 0 0; Fixtures.Boxes.square 5 0].

End Maps.

End More.

(** * Facts *)

(** ** The monad *)

Module PyFacts.

Lemma bind_inl {W A B} (m : NB W A) (k : A -> NB W B) w w' e :
  m w = (w', inl e) -> bind m k w = (w', inl e).
Proof. unfold bind. intros ->. reflexivity. Qed.

Lemma bind_inr {W A B} (m : NB W A) (k : A -> NB W B) w w' a :
  m w = (w', inr a) -> bind m k w = k a w'.
Proof. unfold bind. intros ->. reflexivity. Qed.

Lemma getitem_inr {A} (xs : list A) (i : Z) (x : A) :
  getitem xs i = inr x -> x ∈ xs.
Proof.
  unfold getitem.
  destruct (_ || _); [discriminate |].
  destruct (xs !! _) eqn:E; [| discriminate].
  intros [= <-]. eapply list_elem_of_lookup_2, E.
Qed.

Lemma getitem_past_end {A} (xs : list A) (i : Z) :
  Z.of_nat (length xs) <= i -> getitem xs i = inl IndexError.
Proof.
  intros Hi. unfold getitem.
  destruct (i <? 0) eqn:Hneg; [lia |].
  destruct (Z.of_nat (length xs) <=? i) eqn:Hle; [| lia].
  rewrite orb_true_r. reflexivity.
Qed.

Lemma getitem_within {A} (xs : list A) (i : Z) :
  0 <= i < Z.of_nat (length xs) -> exists x, getitem xs i = inr x.
Proof.
  intros Hi.
  assert (Hneg : (i <? 0) = false) by (apply Z.ltb_ge; lia).
  assert (Hle : (Z.of_nat (length xs) <=? i) = false) by (apply Z.leb_gt; lia).
  unfold getitem. cbv zeta. rewrite Hneg. cbv iota. rewrite Hneg, Hle. cbn.
  destruct (xs !! Z.to_nat i) eqn:E; [eexists; reflexivity |].
  apply lookup_ge_None in E. lia.
Qed.

Lemma getitem_lookup {A} (xs : list A) (k : nat) (x : A) :
  xs !! k = Some x -> getitem xs (Z.of_nat k) = inr x.
Proof.
  intros Hk. pose proof (lookup_lt_Some _ _ _ Hk) as Hlt.
  assert (Hneg : (Z.of_nat k <? 0) = false) by (apply Z.ltb_ge; lia).
  assert (Hle : (Z.of_nat (length xs) <=? Z.of_nat k) = false) by (apply Z.leb_gt; lia).
  unfold getitem. cbv zeta. rewrite Hneg. cbv iota. rewrite Hneg, Hle. cbn.
  rewrite Nat2Z.id, Hk. reflexivity.
Qed.

End PyFacts.



(** ** Python sequences and [int] *)

Module PyMore.

Lemma index_missing (xs : list string) (x : string) :
  x ∉ xs -> index xs x = inl ValueError.
Proof.
  induction xs as [| y ys IH]; intros Hx; [done |].
  cbn. apply not_elem_of_cons in Hx as [Hne Hys].
  destruct (String.eqb y x) eqn:E; [apply String.eqb_eq in E; congruence |].
  by rewrite IH.
Qed.

Lemma index_first (xs : list string) (x : string) (k : nat) :
  xs !! k = Some x ->
  (forall j, (j < k)%nat -> xs !! j <> Some x) ->
  index xs x = inr (Z.of_nat k).
Proof.
  revert k. induction xs as [| y ys IH]; intros k Hk Hfirst; [done |].
  cbn. destruct k as [| k].
  - injection Hk as ->. by rewrite String.eqb_refl.
  - destruct (String.eqb y x) eqn:E.
    + apply String.eqb_eq in E as ->. by destruct (Hfirst 0%nat ltac:(lia)).
    + rewrite (IH k Hk).
      * f_equal. lia.
      * intros j Hj. apply (Hfirst (S j)). lia.
Qed.

Lemma index_found (xs : list string) (x : string) (i : Z) :
  index xs x = inr i ->
  exists k, i = Z.of_nat k /\ xs !! k = Some x
            /\ forall j, (j < k)%nat -> xs !! j <> Some x.
Proof.
  revert i. induction xs as [| y ys IH]; intros i Hi; [done |].
  cbn in Hi. destruct (String.eqb y x) eqn:E.
  - injection Hi as <-. apply String.eqb_eq in E as ->.
    exists 0%nat. repeat split. intros j Hj. lia.
  - destruct (index ys x) as [e | i'] eqn:Hi'; [done |].
    injection Hi as <-. destruct (IH i' eq_refl) as (k & -> & Hk & Hfirst).
    exists (S k). split; [lia |]. split; [done |].
    intros [| j] Hj; cbn.
    + intros [= ->]. by rewrite String.eqb_refl in E.
    + apply Hfirst. lia.
Qed.

Lemma getitem_nil {A} (i : Z) : getitem (@nil A) i = inl IndexError.
Proof.
  unfold getitem. cbn [length]. change (Z.of_nat 0) with 0.
  destruct (i <? 0) eqn:Hi.
  - rewrite Z.add_0_r, Hi. reflexivity.
  - rewrite Hi. cbn. destruct (0 <=? i) eqn:Hle; [done |].
    apply Z.ltb_ge in Hi. apply Z.leb_gt in Hle. lia.
Qed.

Lemma getitem_head {A} (x : A) (xs : list A) : getitem (x :: xs) 0 = inr x.
Proof. apply (PyFacts.getitem_lookup (x :: xs) 0 x). reflexivity. Qed.

(** *** [int] of a decimal rendering *)

Lemma digit_of_char (m : N) :
  (m < 10)%N ->
  digit_of (pretty_N_char m) = Some (Z.of_N m)
  /\ Ascii.eqb (pretty_N_char m) "_" = false
  /\ is_space (pretty_N_char m) = false
  /\ Ascii.eqb (pretty_N_char m) "-" = false
  /\ Ascii.eqb (pretty_N_char m) "+" = false.
Proof.
  intros Hm.
  assert (m = 0 \/ m = 1 \/ m = 2 \/ m = 3 \/ m = 4 \/ m = 5 \/ m = 6 \/ m = 7
          \/ m = 8 \/ m = 9)%N as Hcases by lia.
  repeat (destruct Hcases as [-> | Hcases]; [by vm_compute |]). subst. by vm_compute.
Qed.

(** The characters [pretty_N_go] puts in front of [s]: they begin and end
    with a digit, and [digits] reads them as the number. *)
Lemma pretty_N_go_digits (x : N) :
  (0 < x)%N ->
  forall s, exists c cs d ds p,
    list_ascii_of_string (pretty_N_go x s) = c :: cs ++ list_ascii_of_string s
    /\ is_space c = false /\ Ascii.eqb c "-" = false /\ Ascii.eqb c "+" = false
    /\ rev (c :: cs) = d :: ds /\ is_space d = false
    /\ forall acc b rest,
         digits acc b (c :: cs ++ rest) = digits (acc * p + Z.of_N x) true rest.
Proof.
  induction (N.lt_wf_0 x) as [x _ IH]. intros Hx s.
  rewrite pretty_N_go_step by done.
  destruct (digit_of_char (x `mod` 10)%N ltac:(by apply N.mod_lt))
    as (Hd & Hu & Hs & Hm & Hp).
  destruct (decide (x `div` 10 = 0)%N) as [Hz | Hnz].
  - rewrite Hz, pretty_N_go_0.
    exists (pretty_N_char (x `mod` 10)), [], (pretty_N_char (x `mod` 10)), [], 10.
    cbn. repeat split; try done.
    intros acc b rest. rewrite Hu, Hd. f_equal.
    pose proof (N.div_mod x 10 ltac:(done)). lia.
  - destruct (IH (x `div` 10)%N) with (s := String (pretty_N_char (x `mod` 10)) s)
      as (c & cs & d & ds & p & Heq & Hc1 & Hc2 & Hc3 & Hrev & Hd1 & Hval).
    { apply N.div_lt; lia. }
    { by apply N.neq_0_lt_0. }
    exists c, (cs ++ [pretty_N_char (x `mod` 10)]),
      (pretty_N_char (x `mod` 10)), (d :: ds), (10 * p).
    rewrite Heq. cbn. rewrite <- app_assoc. cbn. repeat split; try done.
    + cbn in Hrev. rewrite rev_app_distr. cbn. by rewrite Hrev.
    + intros acc b rest.
      specialize (Hval acc b (pretty_N_char (x `mod` 10) :: rest)).
      rewrite <- app_assoc. cbn. cbn in Hval. rewrite Hval. cbn.
      rewrite Hu, Hd. f_equal.
      pose proof (N.div_mod x 10 ltac:(done)). lia.
Qed.

Lemma strip_unspaced (c : ascii) (cs : list ascii) d ds :
  is_space c = false -> rev (c :: cs) = d :: ds -> is_space d = false ->
  strip (c :: cs) = c :: cs.
Proof.
  intros Hc Hrev Hd. unfold strip. cbn [lstrip]. rewrite Hc, Hrev.
  cbn [lstrip]. rewrite Hd, <- Hrev. apply rev_involutive.
Qed.

Lemma int_pretty_pos (x : N) :
  (0 < x)%N ->
  int (pretty x) = inr (Z.of_N x)
  /\ int ("-" +:+ pretty x) = inr (- Z.of_N x)
  /\ truthy (pretty x) = true.
Proof.
  intros Hx. unfold pretty, pretty_N.
  destruct (decide (x = 0)%N) as [-> | _]; [lia |].
  destruct (pretty_N_go_digits x Hx EmptyString)
    as (c & cs & d & ds & p & Heq & Hc1 & Hc2 & Hc3 & Hrev & Hd & Hval).
  change (list_ascii_of_string EmptyString) with (@nil ascii) in Heq.
  rewrite app_nil_r in Heq.
  split; [| split].
  - unfold int. rewrite Heq, (strip_unspaced _ _ _ _ Hc1 Hrev Hd), Hc2, Hc3.
    specialize (Hval 0 false []). rewrite app_nil_r in Hval. rewrite Hval. cbn.
    f_equal.
  - unfold int.
    change ("-" +:+ pretty_N_go x EmptyString)
      with (String "-" (pretty_N_go x EmptyString)).
    cbn [list_ascii_of_string]. rewrite Heq.
    rewrite (strip_unspaced "-" (c :: cs) d (ds ++ ["-"%char])); cycle 1.
    + reflexivity.
    + change (rev ("-"%char :: c :: cs)) with (rev (c :: cs) ++ ["-"%char]).
      by rewrite Hrev.
    + exact Hd.
    + change (Ascii.eqb "-" "-") with true. cbv iota beta.
      specialize (Hval 0 false []). rewrite app_nil_r in Hval. rewrite Hval. cbn.
      f_equal.
  - unfold truthy. destruct (pretty_N_go x EmptyString); [done | done].
Qed.

(** [int(str(z))] is [z]. *)
Lemma int_pretty (z : Z) : int (pretty z) = inr z /\ truthy (pretty z) = true.
Proof.
  destruct z as [| q | q].
  - by vm_compute.
  - destruct (int_pretty_pos (N.pos q) ltac:(lia)) as (Hint & _ & Htruthy). done.
  - destruct (int_pretty_pos (N.pos q) ltac:(lia)) as (_ & Hint & _). done.
Qed.

End PyMore.


(** ** Failures in the log of calls *)

Module JournalFacts.
Import Spec.Journal.

Lemma snoc_split {A} (xs pre post : list A) (x y : A) :
  xs ++ [x] = pre ++ y :: post ->
  (post = [] /\ pre = xs /\ y = x)
  \/ (exists post', post = post' ++ [x] /\ xs = pre ++ y :: post').
Proof.
  intros Heq. destruct post as [| z post _] using rev_ind.
  - left. apply app_inj_tail in Heq as [-> ->]. done.
  - right. exists post.
    rewrite app_comm_cons, app_assoc in Heq.
    apply app_inj_tail in Heq as [-> ->]. done.
Qed.

Section Journal.
Context {W J : Type} (journal : W -> list J) (failure : J -> option Exn).

Lemma quiet_app (xs ys : list J) :
  quiet failure xs -> quiet failure ys -> quiet failure (xs ++ ys).
Proof. unfold quiet. intros Hxs Hys. by apply Forall_app. Qed.

Lemma ends_quiet {A} (calls : list J) (r : Exn + A) :
  quiet failure calls -> ends failure calls r.
Proof. intros Hq. destruct r; [by left | done]. Qed.

Lemma ends_after {A} (before calls : list J) (r : Exn + A) :
  quiet failure before -> ends failure calls r -> ends failure (before ++ calls) r.
Proof.
  intros Hq. destruct r as [e | a]; cbn.
  - intros [Hcalls | (b & last & -> & Hb & Hlast)].
    + left. by apply quiet_app.
    + right. exists (before ++ b), last. rewrite app_assoc.
      split; [done |]. split; [by apply quiet_app | done].
  - by apply quiet_app.
Qed.

(** A step that makes no call. *)
Lemma unhandled_silent {A} (step : NB W A) :
  (forall w, journal (fst (step w)) = journal w) -> unhandled journal failure step.
Proof.
  intros Hstep w. exists []. rewrite app_nil_r. split; [apply Hstep |].
  apply ends_quiet. constructor.
Qed.

Lemma unhandled_ret {A} (a : A) : unhandled journal failure (mret a : NB W A).
Proof. by apply unhandled_silent. Qed.

Lemma unhandled_lift {A} (r : Exn + A) : unhandled journal failure (lift r : NB W A).
Proof. by apply unhandled_silent. Qed.

Lemma unhandled_bind {A B} (step : NB W A) (k : A -> NB W B) :
  unhandled journal failure step ->
  (forall a, unhandled journal failure (k a)) ->
  unhandled journal failure (step ≫= k).
Proof.
  intros Hstep Hk w. destruct (Hstep w) as (calls & Hcalls & Hends).
  unfold mbind, nb_bind, bind.
  destruct (step w) as [w1 [e | a]]; cbn in *.
  - by exists calls.
  - destruct (Hk a w1) as (calls' & Hcalls' & Hends').
    exists (calls ++ calls'). rewrite Hcalls', Hcalls, app_assoc.
    split; [done |]. by apply ends_after.
Qed.

Lemma unhandled_for_each {A} (xs : list A) (body : A -> NB W unit) :
  (forall x, unhandled journal failure (body x)) ->
  unhandled journal failure (for_each xs body).
Proof.
  intros Hbody. induction xs as [| x xs IH]; [apply (unhandled_ret tt) |].
  cbn [for_each]. apply (unhandled_bind (body x) (fun _ => for_each xs body)).
  - apply Hbody.
  - intros _. exact IH.
Qed.

(** One call, logged with the exception it raised, if any. *)
Lemma unhandled_journaled {A} (step : NB W A) (c : W -> J) :
  (forall w, journal (fst (step w)) = journal w ++ [c w]) ->
  (forall w, failure (c w) = failure_of (snd (step w))) ->
  unhandled journal failure step.
Proof.
  intros Hlog Hfail w. exists [c w]. split; [apply Hlog |].
  specialize (Hfail w). destruct (snd (step w)) as [e | a]; cbn in *.
  - right. exists [], (c w). split; [done |]. split; [constructor | done].
  - by constructor.
Qed.

Lemma unhandled_surface {A} (step : NB W A) :
  unhandled journal failure step -> failures_surface journal failure step.
Proof.
  intros Hstep w before c after e Hlog Hc.
  destruct (Hstep w) as (calls & Hcalls & Hends).
  rewrite Hcalls in Hlog. apply app_inv_head in Hlog. subst calls.
  assert (Hloud : ~ quiet failure (before ++ c :: after)).
  { intros Hq. apply Forall_app in Hq as [_ Hq].
    apply Forall_cons in Hq as [Hq _]. congruence. }
  destruct (snd (step w)) as [e' | a]; cbn in Hends; [| done].
  destruct Hends as [Hq | (b & last & Heq & Hb & Hlast)]; [done |].
  symmetry in Heq. apply snoc_split in Heq as [(-> & -> & ->) | (post' & -> & ->)].
  - split; [done |]. congruence.
  - exfalso. apply Forall_app in Hb as [_ Hb].
    apply Forall_cons in Hb as [Hb _]. congruence.
Qed.

End Journal.

End JournalFacts.
(** ** The satellite notebook *)

Module SatelliteFacts.
Import SatelliteSfcObs Spec.Sat Spec.Journal PyFacts PyMore JournalFacts.

Ltac run := unfold mbind, nb_bind, mret, nb_ret, bind, ret, call, lift, modify in *; cbn in *.

(** *** The index into the catalog *)

Lemma file_num_min (cat : Catalog) :
  file_num cat = Z.min (Z.of_nat (length (datasets cat))) 10.
Proof.
  unfold file_num, names. rewrite length_map.
  destruct (_ <? 10) eqn:E; lia.
Qed.

Lemma file_num_out_of_range (cat : Catalog) :
  (length (datasets cat) <= 10)%nat ->
  getitem (entries cat) (file_num cat) = inl IndexError.
Proof.
  intros Hlen. apply getitem_past_end.
  rewrite file_num_min. unfold entries. rewrite length_map. lia.
Qed.

Lemma file_num_in_range (cat : Catalog) :
  (10 < length (datasets cat))%nat ->
  exists ds, getitem (entries cat) (file_num cat) = inr ds.
Proof.
  intros Hlen. apply getitem_within.
  rewrite file_num_min. unfold entries. rewrite length_map. lia.
Qed.

Lemma get_goes_image_short_catalog `{Siphon} date channel region cat w :
  TDSCatalog (goes_url region channel date) = inr cat ->
  (length (datasets cat) <= 10)%nat ->
  get_goes_image date channel region w = (log TDSCatalog_ w, inl IndexError).
Proof.
  intros Hcat Hlen. unfold get_goes_image. run.
  rewrite Hcat, (file_num_out_of_range cat Hlen). reflexivity.
Qed.

(** C8: on a catalog of three datasets [file_num] is 3, one past the last
    valid index, and [get_goes_image] ends in IndexError instead of returning
    a dataset. *)
Theorem get_goes_image_three_datasets_raises :
  file_num Fixtures.Sat.three_images = 3
  /\ length (entries Fixtures.Sat.three_images) = 3%nat
  /\ getitem (entries Fixtures.Sat.three_images) (file_num Fixtures.Sat.three_images)
     = inl IndexError
  /\ snd (@get_goes_image (Fixtures.Sat.siphon Fixtures.Sat.three_images)
            Fixtures.Sat.noon 14 "CONUS" Fixtures.Sat.fresh) = inl IndexError.
Proof. repeat split; vm_compute; reflexivity. Qed.

(** *** The two temperature layers *)

Lemma freezing_split (x : float) :
  is_nan x = false -> PrimFloat.ltb 32 x = negb (PrimFloat.leb x 32).
Proof.
  unfold is_nan. rewrite FloatAxioms.eqb_spec, FloatAxioms.ltb_spec, FloatAxioms.leb_spec.
  change (Prim2SF 32) with (S754_finite false 4503599627370496 (-47)).
  destruct (Prim2SF x) as [s|s| |s m e]; try destruct s;
    cbv [SFeqb SFltb SFleb SFcompare negb CompOpp]; try reflexivity; try discriminate.
  intros _.
  rewrite (Z.compare_antisym (-47) e).
  destruct (-47 ?= e) eqn:E; cbv [CompOpp]; try reflexivity.
  pose proof (Pos.compare_cont_antisym 4503599627370496 m Eq) as Hanti.
  cbv [CompOpp] in Hanti.
  destruct (Pos.compare_cont Eq 4503599627370496 m);
    destruct (Pos.compare_cont Eq m 4503599627370496); try discriminate; reflexivity.
Qed.
Lemma freezing_nan (x : float) :
  is_nan x = true -> PrimFloat.ltb 32 x = false /\ PrimFloat.leb x 32 = false.
Proof.
  unfold is_nan. rewrite FloatAxioms.eqb_spec, FloatAxioms.ltb_spec, FloatAxioms.leb_spec.
  change (Prim2SF 32) with (S754_finite false 4503599627370496 (-47)).
  destruct (Prim2SF x) as [s|s| |s m e]; try destruct s;
    cbv [SFeqb SFltb SFleb SFcompare negb CompOpp];
    try (split; reflexivity); try discriminate.
  all: rewrite Z.compare_refl, Pos.compare_cont_refl; discriminate.
Qed.

Lemma in_above (r : ObsRow) (df : list ObsRow) :
  In r (above_freezing df) <-> In r df /\ PrimFloat.ltb 32 (tmpf r) = true.
Proof. unfold above_freezing. apply filter_In. Qed.

Lemma in_below (r : ObsRow) (df : list ObsRow) :
  In r (at_or_below_freezing df) <-> In r df /\ PrimFloat.leb (tmpf r) 32 = true.
Proof. unfold at_or_below_freezing. apply filter_In. Qed.

(** C9, as the code has it: a row whose temperature is a number is in exactly
    one layer, a row whose temperature is NaN is in neither, and no row is in
    both. *)
Theorem layers_split_numeric_rows (df : list ObsRow) (r : ObsRow) :
  In r df ->
  (is_nan (tmpf r) = false -> in_exactly_one_layer r df)
  /\ (is_nan (tmpf r) = true ->
      ~ In r (above_freezing df) /\ ~ In r (at_or_below_freezing df))
  /\ ~ (In r (above_freezing df) /\ In r (at_or_below_freezing df)).
Proof.
  intros Hin. unfold in_exactly_one_layer. rewrite in_above, in_below.
  destruct (is_nan (tmpf r)) eqn:Hnan.
  - destruct (freezing_nan _ Hnan) as [Hlt Hle]. rewrite Hlt, Hle.
    repeat split; try discriminate; intros [_ ?]; try discriminate.
    intuition discriminate.
  - pose proof (freezing_split _ Hnan) as Hs.
    destruct (PrimFloat.leb (tmpf r) 32); cbn in Hs; rewrite Hs.
    + repeat split; try discriminate; [| intuition discriminate].
      intros _. right. intuition discriminate.
    + repeat split; try discriminate; [| intuition discriminate].
      intros _. left. intuition discriminate.
Qed.

Lemma layers_split_numeric_rows_witness :
  in_exactly_one_layer
    (mkObsRow (mkMetarRow "KDEN" 39.85 (-104.65) (-3)) 26.6)
    (conus_subset [mkObsRow (mkMetarRow "KDEN" 39.85 (-104.65) (-3)) 26.6;
                   mkObsRow (mkMetarRow "KBJC" 39.9 (-105.1) nan) nan]).
Proof.
  refine (proj1 (layers_split_numeric_rows _ _ _) _).
  - vm_compute. left. reflexivity.
  - vm_compute. reflexivity.
Defined.

(** C9, as stated, fails: the report without a temperature passes the CONUS
    subset and is in neither plotted layer. *)
Lemma nan_row_in_neither_layer :
  ~ (forall (df : list ObsRow) (r : ObsRow),
       In r (conus_subset df) -> in_exactly_one_layer r (conus_subset df)).
Proof.
  intros Hclaim.
  specialize (Hclaim [mkObsRow (mkMetarRow "KBJC" 39.9 (-105.1) nan) nan]
                     (mkObsRow (mkMetarRow "KBJC" 39.9 (-105.1) nan) nan)).
  vm_compute in Hclaim.
  destruct Hclaim as [[[] _] | [_ []]]. left. reflexivity.
Qed.

(** *** What each cell leaves alone *)

Lemma get_goes_image_files `{Siphon} date channel region :
  leaves_files_alone (get_goes_image date channel region).
Proof.
  intros w. unfold get_goes_image. run.
  destruct (TDSCatalog _) as [e | cat]; [reflexivity |].
  destruct (getitem _ _) as [e | ds]; [reflexivity |].
  destruct (remote_access ds); reflexivity.
Qed.

Lemma convert_cell_files `{MetPy} df : leaves_files_alone (convert_cell df).
Proof.
  intros w. unfold convert_cell. run.
  destruct (units df !! _); [| reflexivity]. cbn.
  destruct (units_to _ _); reflexivity.
Qed.

Lemma plot_cell_files `{MetPy} df ds vtime : leaves_files_alone (plot_cell df ds vtime).
Proof. intros w. unfold plot_cell. run. by destruct (show _). Qed.

Lemma plot_cell_directories `{MetPy} df ds vtime :
  leaves_directories_alone (plot_cell df ds vtime).
Proof. intros w path. unfold plot_cell. run. by destruct (show _). Qed.

(** The METAR cell leaves the files as they were unless it gets as far as
    writing: then the one file it writes is the entry found under the name
    for the satellite time. *)
Lemma metar_cell_files `{Siphon} `{MetPy} vtime w :
  files (fst (metar_cell vtime w)) = files w
  \/ exists cat k ds content,
       TDSCatalog metar_catalog_url = inr cat
       /\ index (names cat) (metar_file_name vtime) = inr k
       /\ getitem (entries cat) k = inr ds
       /\ remote_read ds = inr content
       /\ open_wb w (data_path ds) = None
       /\ files (fst (metar_cell vtime w)) = <[data_path ds := content]> (files w).
Proof.
  unfold metar_cell, download, parse_metar_file, opened_for_download, parsed_file. run.
  destruct (TDSCatalog _) as [e | cat] eqn:Hcat; [left; reflexivity |].
  destruct (index _ _) as [e | k] eqn:Hk; [left; reflexivity |].
  destruct (getitem _ _) as [e | ds] eqn:Hds; [left; reflexivity |].
  destruct (remote_read ds) as [e | content] eqn:Hread; [left; reflexivity |].
  destruct (open_wb w (data_path ds)) as [e |] eqn:Hopen; [left; reflexivity |].
  right. exists cat, k, ds, content.
  do 5 (split; [done |]).
  cbn. rewrite lookup_insert_eq. destruct (parse_metar_text _); reflexivity.
Qed.

Lemma get_goes_image_directories `{Siphon} date channel region :
  leaves_directories_alone (get_goes_image date channel region).
Proof.
  intros w path. unfold get_goes_image. run.
  destruct (TDSCatalog _) as [e | cat]; [reflexivity |].
  destruct (getitem _ _) as [e | ds]; [reflexivity |].
  destruct (remote_access ds); reflexivity.
Qed.

Lemma metar_cell_directories `{Siphon} `{MetPy} vtime :
  leaves_directories_alone (metar_cell vtime).
Proof.
  intros w path.
  unfold metar_cell, download, parse_metar_file, opened_for_download, parsed_file. run.
  destruct (TDSCatalog _) as [e | cat]; [reflexivity |].
  destruct (index _ _) as [e | k]; [reflexivity |].
  destruct (getitem _ _) as [e | ds]; [reflexivity |].
  destruct (remote_read ds) as [e | content]; [reflexivity |].
  destruct (open_wb w (data_path ds)) as [e |]; [reflexivity |].
  cbn. rewrite lookup_insert_eq. destruct (parse_metar_text _); reflexivity.
Qed.

Lemma convert_cell_directories `{MetPy} df : leaves_directories_alone (convert_cell df).
Proof.
  intros w path. unfold convert_cell. run.
  destruct (units df !! _); [| reflexivity]. cbn.
  destruct (units_to _ _); reflexivity.
Qed.

(** *** No cell handles a failure *)

Lemma unhandled_call {A} (f : LibCall) (r : Exn + A) : unhandled trace snd (call f r).
Proof. by apply (unhandled_journaled trace snd (call f r) (fun _ => (f, failure_of r))). Qed.

Lemma unhandled_get_goes_image `{Siphon} date channel region :
  unhandled trace snd (get_goes_image date channel region).
Proof.
  unfold get_goes_image.
  apply unhandled_bind; [apply unhandled_call | intros cat].
  apply unhandled_bind; [apply unhandled_lift | intros ds].
  apply unhandled_bind; [apply unhandled_call | intros x].
  apply unhandled_ret.
Qed.

Lemma unhandled_download `{Siphon} ds filename : unhandled trace snd (download ds filename).
Proof.
  unfold download. apply unhandled_bind.
  - by apply (JournalFacts.unhandled_journaled trace snd _
                (fun w => (download_, failure_of (opened_for_download ds filename w)))).
  - intros content. by apply unhandled_silent.
Qed.

Lemma unhandled_parse_metar_file `{MetPy} filename :
  unhandled trace snd (parse_metar_file filename).
Proof.
  by apply (JournalFacts.unhandled_journaled trace snd _
              (fun w => (parse_metar_file_, failure_of (parsed_file filename w)))).
Qed.

Lemma unhandled_metar_cell `{Siphon} `{MetPy} vtime : unhandled trace snd (metar_cell vtime).
Proof.
  unfold metar_cell.
  apply unhandled_bind; [apply unhandled_call | intros cat].
  apply unhandled_bind; [apply unhandled_lift | intros k].
  apply unhandled_bind; [apply unhandled_lift | intros ds].
  apply unhandled_bind; [apply unhandled_download | intros _].
  apply unhandled_bind; [apply unhandled_parse_metar_file | intros df].
  apply unhandled_ret.
Qed.

Lemma unhandled_convert_cell `{MetPy} df : unhandled trace snd (convert_cell df).
Proof.
  unfold convert_cell.
  apply unhandled_bind; [apply unhandled_lift | intros unit_name].
  apply unhandled_bind; [apply unhandled_call | intros to_degF].
  apply unhandled_ret.
Qed.

Lemma unhandled_plot_cell `{MetPy} df ds vtime :
  unhandled trace snd (plot_cell df ds vtime).
Proof.
  unfold plot_cell.
  do 6 (apply unhandled_bind; [apply unhandled_call | intros _]).
  by apply unhandled_silent.
Qed.

Lemma unhandled_satellite_notebook `{Siphon} `{MetPy} utcnow : unhandled trace snd (notebook utcnow).
Proof.
  unfold notebook, get_satellite_cell.
  apply unhandled_bind; [apply unhandled_get_goes_image | intros ds].
  apply unhandled_bind; [apply unhandled_metar_cell | intros df].
  apply unhandled_bind; [apply unhandled_convert_cell | intros obs].
  apply unhandled_plot_cell.
Qed.

(** *** Each library failure, where it is raised *)

Lemma get_goes_image_catalog_failure `{Siphon} date channel region w e :
  TDSCatalog (goes_url region channel date) = inl e ->
  get_goes_image date channel region w = (record TDSCatalog_ (Some e) w, inl e).
Proof. intros Hcat. unfold get_goes_image. run. rewrite Hcat. reflexivity. Qed.

Lemma get_goes_image_access_failure `{Siphon} date channel region w cat ds e :
  TDSCatalog (goes_url region channel date) = inr cat ->
  getitem (entries cat) (file_num cat) = inr ds ->
  remote_access ds = inl e ->
  get_goes_image date channel region w
  = (record remote_access_ (Some e) (log TDSCatalog_ w), inl e).
Proof.
  intros Hcat Hds Hopen. unfold get_goes_image. run.
  rewrite Hcat, Hds. cbn. rewrite Hopen. reflexivity.
Qed.

Lemma metar_cell_catalog_failure `{Siphon} `{MetPy} vtime w e :
  TDSCatalog metar_catalog_url = inl e ->
  metar_cell vtime w = (record TDSCatalog_ (Some e) w, inl e).
Proof. intros Hcat. unfold metar_cell. run. rewrite Hcat. reflexivity. Qed.

(** The download fails, reading the remote file or opening the local one:
    no file changes. *)
Lemma metar_cell_download_failure `{Siphon} `{MetPy} vtime w cat k ds e :
  TDSCatalog metar_catalog_url = inr cat ->
  index (names cat) (metar_file_name vtime) = inr k ->
  getitem (entries cat) k = inr ds ->
  opened_for_download ds (data_path ds) w = inl e ->
  metar_cell vtime w = (record download_ (Some e) (log TDSCatalog_ w), inl e).
Proof.
  intros Hcat Hk Hds Hfail. unfold metar_cell, download, opened_for_download in *. run.
  rewrite Hcat, Hk. cbn. rewrite Hds. cbn.
  destruct (remote_read ds) as [e' | content]; [by injection Hfail as -> |].
  destruct (open_wb w (data_path ds)) as [e' |]; [| discriminate].
  by injection Hfail as ->.
Qed.

(** The parser fails: the downloaded file stays. *)
Lemma metar_cell_parse_failure `{Siphon} `{MetPy} vtime w cat k ds content e :
  TDSCatalog metar_catalog_url = inr cat ->
  index (names cat) (metar_file_name vtime) = inr k ->
  getitem (entries cat) k = inr ds ->
  opened_for_download ds (data_path ds) w = inr content ->
  parse_metar_text content = inl e ->
  metar_cell vtime w
  = (record parse_metar_file_ (Some e)
       (write_file (data_path ds) content (log download_ (log TDSCatalog_ w))),
     inl e).
Proof.
  intros Hcat Hk Hds Hget Hparse.
  unfold metar_cell, download, parse_metar_file, parsed_file, opened_for_download in *.
  run. rewrite Hcat, Hk. cbn. rewrite Hds. cbn.
  destruct (remote_read ds) as [e' | content']; [discriminate |].
  destruct (open_wb w (data_path ds)) as [e' |]; [discriminate |].
  injection Hget as ->. cbn. rewrite lookup_insert_eq, Hparse. reflexivity.
Qed.

Lemma convert_cell_units_failure `{MetPy} df w unit_name e :
  units df !! "air_temperature" = Some unit_name ->
  units_to unit_name "degF" = inl e ->
  convert_cell df w = (record units_to_ (Some e) w, inl e).
Proof. intros Hunit Hfail. unfold convert_cell. run. by rewrite Hunit, Hfail. Qed.

(** *** The calls of a cell that returns *)

Lemma calls_from_trace {A} (step : NB Kernel A) w calls :
  trace (fst (step w)) = trace w ++ calls -> calls_from step w = map fst calls.
Proof. intros Hrun. unfold calls_from. by rewrite Hrun, drop_app_length. Qed.

Lemma get_goes_image_calls `{Siphon} date channel region w w' x :
  get_goes_image date channel region w = (w', inr x) ->
  calls_from (get_goes_image date channel region) w = [TDSCatalog_; remote_access_].
Proof.
  intros Hrun. apply (calls_from_trace _ _ [(TDSCatalog_, None); (remote_access_, None)]).
  revert Hrun. unfold get_goes_image. run.
  destruct (TDSCatalog _) as [e | cat]; [discriminate |].
  destruct (getitem _ _) as [e | ds]; [discriminate |]. cbn.
  destruct (remote_access ds) as [e | y]; [discriminate |]. cbn.
  intros _. by rewrite <- app_assoc.
Qed.

Lemma metar_cell_calls `{Siphon} `{MetPy} vtime w w' df :
  metar_cell vtime w = (w', inr df) ->
  calls_from (metar_cell vtime) w = [TDSCatalog_; download_; parse_metar_file_].
Proof.
  intros Hrun.
  apply (calls_from_trace _ _
           [(TDSCatalog_, None); (download_, None); (parse_metar_file_, None)]).
  revert Hrun.
  unfold metar_cell, download, parse_metar_file, opened_for_download, parsed_file. run.
  destruct (TDSCatalog _) as [e | cat]; [discriminate |].
  destruct (index _ _) as [e | k]; [discriminate |].
  destruct (getitem _ _) as [e | ds]; [discriminate |]. cbn.
  destruct (remote_read ds) as [e | content]; [discriminate |].
  destruct (open_wb w (data_path ds)) as [e |]; [discriminate |].
  cbn. rewrite lookup_insert_eq.
  destruct (parse_metar_text content) as [e | y]; [discriminate |]. cbn.
  intros _. by rewrite <- !app_assoc.
Qed.

Lemma convert_cell_calls `{MetPy} df w w' obs :
  convert_cell df w = (w', inr obs) ->
  calls_from (convert_cell df) w = [units_to_].
Proof.
  intros Hrun. apply (calls_from_trace _ _ [(units_to_, None)]).
  revert Hrun. unfold convert_cell. run.
  destruct (units df !! _); [| discriminate]. cbn.
  destruct (units_to _ _) as [e | f]; [discriminate |]. done.
Qed.

Lemma plot_cell_calls `{MetPy} df ds vtime w w' :
  plot_cell df ds vtime w = (w', inr tt) ->
  calls_from (plot_cell df ds vtime) w
  = [PlotObs_; PlotObs_; ImagePlot_; MapPanel_; PanelContainer_; show_].
Proof.
  intros Hrun.
  apply (calls_from_trace _ _
           [(PlotObs_, None); (PlotObs_, None); (ImagePlot_, None); (MapPanel_, None);
            (PanelContainer_, None); (show_, None)]).
  revert Hrun. unfold plot_cell. run.
  destruct (show _) as [e | []]; [discriminate |]. cbn.
  intros _. by rewrite <- !app_assoc.
Qed.

(** The cell ends as [show] does on the container it built: with the
    exception of [show] and nothing displayed, or with the container
    displayed. *)
Lemma plot_cell_ends_as_show `{MetPy} df ds vtime w :
  exists pc,
    match show pc with
    | inl e =>
        snd (plot_cell df ds vtime w) = inl e
        /\ displayed (fst (plot_cell df ds vtime w)) = displayed w
    | inr _ =>
        snd (plot_cell df ds vtime w) = inr tt
        /\ displayed (fst (plot_cell df ds vtime w)) = displayed w ++ [pc]
    end.
Proof.
  unfold plot_cell. cbv zeta.
  match goal with |- context [call show_ (show ?p)] => exists p end.
  run. by destruct (show _) as [e | []].
Qed.

End SatelliteFacts.

(** ** The satellite notebook, cell by cell *)

Module SatelliteMore.
Import SatelliteSfcObs Spec.Sat More.Sat PyFacts PyMore.

Ltac run := unfold mbind, nb_bind, mret, nb_ret, bind, ret, call, lift, modify in *; cbn in *.

(** *** [get_goes_image] when it returns *)

Lemma entries_lookup (cat : Catalog) (k : nat) name ds :
  datasets cat !! k = Some (name, ds) -> entries cat !! k = Some ds.
Proof. intros Hk. unfold entries. by rewrite list_lookup_fmap, Hk. Qed.

(** X1: [get_goes_image] returns a dataset exactly when the catalog has an
    entry at position 10 and that entry opens; what it returns is that entry
    opened, however many entries follow it. *)
Theorem get_goes_image_returns_entry_ten `{Siphon} date channel region w x :
  snd (get_goes_image date channel region w) = inr x
  <-> exists cat name ds,
        TDSCatalog (goes_url region channel date) = inr cat
        /\ datasets cat !! 10%nat = Some (name, ds)
        /\ remote_access ds = inr x.
Proof.
  unfold get_goes_image. run. split.
  - destruct (TDSCatalog _) as [e | cat] eqn:Hcat; [done |].
    destruct (decide (length (datasets cat) <= 10)%nat) as [Hshort | Hlong].
    { by rewrite (SatelliteFacts.file_num_out_of_range cat Hshort). }
    rewrite SatelliteFacts.file_num_min.
    replace (Z.min _ 10) with (Z.of_nat 10) by lia.
    destruct (datasets cat !! 10%nat) as [[name ds] |] eqn:Hten;
      [| apply lookup_ge_None in Hten; lia].
    rewrite (getitem_lookup _ _ _ (entries_lookup _ _ _ _ Hten)). cbn.
    destruct (remote_access ds) as [e | y] eqn:Hopen; [done |].
    intros [= <-]. by exists cat, name, ds.
  - intros (cat & name & ds & -> & Hten & Hopen).
    pose proof (lookup_lt_Some _ _ _ Hten) as Hlen.
    rewrite SatelliteFacts.file_num_min.
    replace (Z.min _ 10) with (Z.of_nat 10) by lia.
    rewrite (getitem_lookup _ _ _ (entries_lookup _ _ _ _ Hten)). cbn.
    by rewrite Hopen.
Qed.

Lemma get_goes_image_returns_entry_ten_witness :
  snd (@get_goes_image (Fixtures.Sat.siphon eleven_images) Fixtures.Sat.noon 14 "CONUS"
         Fixtures.Sat.fresh)
  = inr (mkXDataset "img_10.nc" Fixtures.Sat.noon).
Proof.
  apply (proj2 (@get_goes_image_returns_entry_ten (Fixtures.Sat.siphon eleven_images)
                  Fixtures.Sat.noon 14 "CONUS" Fixtures.Sat.fresh _)).
  exists eleven_images, "img_10.nc",
    (mkDataset "img_10.nc" "https://thredds.ucar.edu/img_10.nc").
  repeat split; vm_compute; reflexivity.
Defined.

(** *** The METAR cell *)

(** X2: when the catalog does not list the file for the satellite time, the
    METAR cell stops with ValueError right after reading the catalog:
    nothing is downloaded and no file changes. *)
Theorem metar_cell_file_not_listed `{Siphon} `{MetPy} vtime w cat :
  TDSCatalog metar_catalog_url = inr cat ->
  metar_file_name vtime ∉ names cat ->
  metar_cell vtime w = (log TDSCatalog_ w, inl ValueError).
Proof.
  intros Hcat Hmissing. unfold metar_cell. run.
  by rewrite Hcat, (index_missing _ _ Hmissing).
Qed.

Lemma metar_cell_file_not_listed_witness :
  @metar_cell (Fixtures.Sat.siphon Fixtures.Sat.three_images) Fixtures.Sat.metpy
    (mkDatetime 2020 1 14 18 0 0 0) Fixtures.Sat.fresh
  = (log TDSCatalog_ Fixtures.Sat.fresh, inl ValueError).
Proof.
  apply (@metar_cell_file_not_listed (Fixtures.Sat.siphon Fixtures.Sat.three_images)
           Fixtures.Sat.metpy _ _ Fixtures.Sat.metar_files).
  - reflexivity.
  - vm_compute. intros Hin. apply list_elem_of_In in Hin.
    destruct Hin as [Heq | [Heq | []]]; discriminate Heq.
Defined.

(** X3: when the catalog lists the file, first at position [k], and the
    remote file can be read, everything turns on whether the local file can
    be opened for writing.  If it can, the cell writes the downloaded text to
    ../../data/<entry name>, whatever was there before, and returns the parse
    of that same text.  If it cannot (the directory ../../data is missing),
    the cell stops with the exception of [open] inside [download]: no file
    changes and the parser is not called. *)
Theorem metar_cell_parses_what_it_downloaded `{Siphon} `{MetPy} vtime w cat k ds content :
  TDSCatalog metar_catalog_url = inr cat ->
  datasets cat !! k = Some (metar_file_name vtime, ds) ->
  (forall j, (j < k)%nat -> names cat !! j <> Some (metar_file_name vtime)) ->
  remote_read ds = inr content ->
  (open_wb w (data_path ds) = None ->
   snd (metar_cell vtime w) = parse_metar_text content
   /\ files (fst (metar_cell vtime w)) = <[data_path ds := content]> (files w)
   /\ map fst (trace (fst (metar_cell vtime w)))
      = map fst (trace w) ++ [TDSCatalog_; download_; parse_metar_file_])
  /\ (forall e, open_wb w (data_path ds) = Some e ->
        snd (metar_cell vtime w) = inl e
        /\ files (fst (metar_cell vtime w)) = files w
        /\ map fst (trace (fst (metar_cell vtime w)))
           = map fst (trace w) ++ [TDSCatalog_; download_]).
Proof.
  intros Hcat Hk Hfirst Hread.
  assert (Hname : names cat !! k = Some (metar_file_name vtime)).
  { unfold names. by rewrite list_lookup_fmap, Hk. }
  unfold metar_cell, download, parse_metar_file, opened_for_download, parsed_file. run.
  rewrite Hcat, (index_first _ _ _ Hname Hfirst). cbn.
  rewrite (getitem_lookup _ _ _ (entries_lookup _ _ _ _ Hk)). cbn.
  rewrite Hread. split.
  - intros ->. cbn. rewrite lookup_insert_eq.
    destruct (parse_metar_text content); cbn; by rewrite !map_app, <- !app_assoc.
  - intros e ->. cbn. by rewrite !map_app, <- !app_assoc.
Qed.

Lemma metar_cell_parses_what_it_downloaded_witness :
  snd (@metar_cell (Fixtures.Sat.siphon Fixtures.Sat.three_images) Fixtures.Sat.metpy
         Fixtures.Sat.noon
         (write_file "../../data/metar_20200114_1200.txt" "stale" Fixtures.Sat.fresh))
  = inr Fixtures.Sat.two_reports
  /\ snd (@metar_cell (Fixtures.Sat.siphon Fixtures.Sat.three_images) Fixtures.Sat.metpy
            Fixtures.Sat.noon Fixtures.Sat.without_data_directory)
     = inl (FileNotFoundError "../../data/metar_20200114_1200.txt").
Proof.
  split.
  - refine (proj1 (proj1 (@metar_cell_parses_what_it_downloaded
                     (Fixtures.Sat.siphon Fixtures.Sat.three_images) Fixtures.Sat.metpy
                     Fixtures.Sat.noon _ Fixtures.Sat.metar_files 1%nat
                     (mkDataset "metar_20200114_1200.txt"
                        "https://thredds.ucar.edu/metar_20200114_1200.txt")
                     "METAR metar_20200114_1200.txt" _ _ _ _) _)).
    + reflexivity.
    + vm_compute. reflexivity.
    + intros [| j] Hj; [| lia]. vm_compute. discriminate.
    + reflexivity.
    + reflexivity.
  - refine (proj1 (proj2 (@metar_cell_parses_what_it_downloaded
                     (Fixtures.Sat.siphon Fixtures.Sat.three_images) Fixtures.Sat.metpy
                     Fixtures.Sat.noon _ Fixtures.Sat.metar_files 1%nat
                     (mkDataset "metar_20200114_1200.txt"
                        "https://thredds.ucar.edu/metar_20200114_1200.txt")
                     "METAR metar_20200114_1200.txt" _ _ _ _) _ _)).
    + reflexivity.
    + vm_compute. reflexivity.
    + intros [| j] Hj; [| lia]. vm_compute. discriminate.
    + reflexivity.
    + reflexivity.
Defined.

(** *** The conversion cell *)

(** X4: the conversion cell raises KeyError, before any library call, when
    the frame has no unit for air_temperature; passes on the failure of the
    unit conversion; and otherwise gives each report the conversion of its
    own temperature, keeps the reports in order and returns the CONUS rows,
    also for a frame without rows. *)
Theorem convert_cell_outcomes `{MetPy} (df : DataFrame) w :
  (units df !! "air_temperature" = None ->
   convert_cell df w = (w, inl (KeyError "air_temperature")))
  /\ (forall unit_name e,
        units df !! "air_temperature" = Some unit_name ->
        units_to unit_name "degF" = inl e ->
        snd (convert_cell df w) = inl e)
  /\ (forall unit_name to_degF,
        units df !! "air_temperature" = Some unit_name ->
        units_to unit_name "degF" = inr to_degF ->
        convert_cell df w
        = (log units_to_ w,
           inr (conus_subset
                  (map (fun r => mkObsRow r (to_degF (air_temperature r))) (rows df))))).
Proof.
  unfold convert_cell. run. split; [| split].
  - by intros ->.
  - by intros unit_name e -> ->.
  - by intros unit_name to_degF -> ->.
Qed.

Lemma convert_cell_outcomes_witness :
  snd (@convert_cell Fixtures.Sat.metpy Fixtures.Sat.two_reports Fixtures.Sat.fresh)
  = inr [mkObsRow (mkMetarRow "KDEN" 39.85 (-104.65) (-3))
           (PrimFloat.add (PrimFloat.mul (-3) 1.8) 32);
         mkObsRow (mkMetarRow "KBJC" 39.9 (-105.1) nan)
           (PrimFloat.add (PrimFloat.mul nan 1.8) 32)]
  /\ snd (@convert_cell Fixtures.Sat.strict_metpy Fixtures.Sat.two_reports
            Fixtures.Sat.fresh)
     = inl (LibraryError "pint" "UndefinedUnitError").
Proof.
  split.
  - rewrite (proj2 (proj2 (@convert_cell_outcomes Fixtures.Sat.metpy
                             Fixtures.Sat.two_reports Fixtures.Sat.fresh))
               "degC" (fun c => PrimFloat.add (PrimFloat.mul c 1.8) 32)
               eq_refl eq_refl).
    vm_compute. reflexivity.
  - exact (proj1 (proj2 (@convert_cell_outcomes Fixtures.Sat.strict_metpy
                           Fixtures.Sat.two_reports Fixtures.Sat.fresh))
             "degC" _ eq_refl eq_refl).
Defined.

(** *** Floats *)

Lemma is_nan_Prim2SF (x : float) : is_nan x = true -> Prim2SF x = S754_nan.
Proof.
  unfold is_nan. rewrite FloatAxioms.eqb_spec.
  destruct (Prim2SF x) as [s | s | | s m e]; try destruct s;
    cbv [SFeqb SFcompare negb CompOpp]; try discriminate; try reflexivity.
  all: rewrite Z.compare_refl, Pos.compare_cont_refl; discriminate.
Qed.

Lemma ltb_not_nan (x y : float) :
  PrimFloat.ltb x y = true -> is_nan x = false /\ is_nan y = false.
Proof.
  intros Hlt. rewrite FloatAxioms.ltb_spec in Hlt. split.
  - destruct (is_nan x) eqn:Hx; [| done].
    rewrite (is_nan_Prim2SF _ Hx) in Hlt. discriminate.
  - destruct (is_nan y) eqn:Hy; [| done].
    rewrite (is_nan_Prim2SF _ Hy) in Hlt.
    by destruct (Prim2SF x).
Qed.

(** X5: a row is in the CONUS subset exactly when it is in the frame with
    25 < latitude < 60 and -150 < longitude < -60; in particular a report
    whose latitude or longitude is NaN is never kept. *)
Theorem conus_subset_keeps_located_rows (df : list ObsRow) (r : ObsRow) :
  (In r (conus_subset df)
   <-> In r df
       /\ PrimFloat.ltb 25 (latitude (report r)) = true
       /\ PrimFloat.ltb (latitude (report r)) 60 = true
       /\ PrimFloat.ltb (longitude (report r)) (-60) = true
       /\ PrimFloat.ltb (-150) (longitude (report r)) = true)
  /\ (In r (conus_subset df) ->
      is_nan (latitude (report r)) = false /\ is_nan (longitude (report r)) = false).
Proof.
  assert (Hiff : In r (conus_subset df)
                 <-> In r df
                     /\ PrimFloat.ltb 25 (latitude (report r)) = true
                     /\ PrimFloat.ltb (latitude (report r)) 60 = true
                     /\ PrimFloat.ltb (longitude (report r)) (-60) = true
                     /\ PrimFloat.ltb (-150) (longitude (report r)) = true).
  { unfold conus_subset, in_longitudes, in_latitudes.
    rewrite !filter_In, !andb_true_iff. tauto. }
  split; [exact Hiff |].
  intros (_ & Hlat & _ & Hlon & _)%Hiff.
  split; [apply (ltb_not_nan _ _ Hlat) | apply (ltb_not_nan _ _ Hlon)].
Qed.

Lemma conus_subset_keeps_located_rows_witness :
  is_nan (latitude (mkMetarRow "KDEN" 39.85 (-104.65) (-3))) = false
  /\ is_nan (longitude (mkMetarRow "KDEN" 39.85 (-104.65) (-3))) = false.
Proof.
  apply (proj2 (conus_subset_keeps_located_rows
                  [mkObsRow (mkMetarRow "KDEN" 39.85 (-104.65) (-3)) 26.6]
                  (mkObsRow (mkMetarRow "KDEN" 39.85 (-104.65) (-3)) 26.6))).
  vm_compute. left. reflexivity.
Defined.

(** X6: the two plotted layers and the rows without a temperature account
    for every row of the frame, each counted once. *)
Theorem layers_and_missing_count_every_row (df : list ObsRow) :
  (length (above_freezing df) + length (at_or_below_freezing df)
   + length (List.filter (fun r => is_nan (tmpf r)) df))%nat
  = length df.
Proof.
  unfold above_freezing, at_or_below_freezing.
  induction df as [| r df IH]; [done |].
  cbn [List.filter].
  destruct (is_nan (tmpf r)) eqn:Hnan.
  - destruct (SatelliteFacts.freezing_nan _ Hnan) as [-> ->]. cbn [length]. lia.
  - rewrite (SatelliteFacts.freezing_split _ Hnan).
    destruct (PrimFloat.leb (tmpf r) 32); cbn [negb length]; lia.
Qed.

(** *** What is shown *)

Lemma get_goes_image_shows_nothing `{Siphon} date channel region :
  shows_nothing (get_goes_image date channel region).
Proof.
  intros w. unfold get_goes_image. run.
  destruct (TDSCatalog _) as [e | cat]; [reflexivity |].
  destruct (getitem _ _) as [e | ds]; [reflexivity |].
  destruct (remote_access ds); reflexivity.
Qed.

Lemma metar_cell_shows_nothing `{Siphon} `{MetPy} vtime : shows_nothing (metar_cell vtime).
Proof.
  intros w.
  unfold metar_cell, download, parse_metar_file, opened_for_download, parsed_file. run.
  destruct (TDSCatalog _) as [e | cat]; [reflexivity |].
  destruct (index _ _) as [e | i]; [reflexivity |].
  destruct (getitem _ _) as [e | ds]; [reflexivity |].
  destruct (remote_read ds) as [e | content]; [reflexivity |].
  destruct (open_wb w (data_path ds)) as [e |]; [reflexivity |].
  cbn. rewrite lookup_insert_eq. destruct (parse_metar_text _); reflexivity.
Qed.

Lemma convert_cell_shows_nothing `{MetPy} df : shows_nothing (convert_cell df).
Proof.
  intros w. unfold convert_cell. run.
  destruct (units df !! _); [| reflexivity]. cbn.
  destruct (units_to _ _); reflexivity.
Qed.

(** X7: the satellite notebook shows a figure only when every step
    succeeded: a run that raises leaves the displayed figures as they were,
    a run that returns adds exactly one container with one panel. *)
Theorem notebook_shows_one_figure_or_none `{Siphon} `{MetPy} utcnow w :
  (exists e, snd (notebook utcnow w) = inl e
             /\ displayed (fst (notebook utcnow w)) = displayed w)
  \/ (snd (notebook utcnow w) = inr tt
      /\ exists pc, displayed (fst (notebook utcnow w)) = displayed w ++ [pc]
                    /\ length (pc_panels pc) = 1%nat).
Proof.
  unfold notebook, get_satellite_cell.
  pose proof (get_goes_image_shows_nothing utcnow 14 "CONUS" w) as H1.
  unfold mbind, nb_bind, bind.
  destruct (get_goes_image utcnow 14 "CONUS" w) as [w1 [e | ds]]; cbn in H1.
  { left. by exists e. }
  pose proof (metar_cell_shows_nothing (vtime_cell ds) w1) as H2.
  destruct (metar_cell (vtime_cell ds) w1) as [w2 [e | df]]; cbn in H2.
  { left. exists e. cbn. split; [done | congruence]. }
  pose proof (convert_cell_shows_nothing df w2) as H3.
  destruct (convert_cell df w2) as [w3 [e | obs]]; cbn in H3.
  { left. exists e. cbn. split; [done | congruence]. }
  unfold plot_cell. run.
  destruct (show _) as [e | []]; cbn.
  { left. exists e. split; [done | congruence]. }
  right. split; [reflexivity |].
  eexists. split.
  - rewrite H3, H2, H1. reflexivity.
  - reflexivity.
Qed.

End SatelliteMore.

(** ** The maps notebook *)

Module MapFacts.
Import MapResources Spec.Maps Spec.Journal PyFacts PyMore JournalFacts.

Ltac run :=
  unfold mbind, nb_bind, mret, nb_ret, bind, ret, call, lift, modify in *; cbn in *.

(** The library calls, down to [call]. *)
Ltac calls :=
  unfold np_array_empty, np_append, shapely_cascaded_union, shapely_buffer,
    shapely_bounds, shapely_Polygon, shapely_intersects, shapely_intersection,
    geometry_call, scatter, annotate, ShapelyFeature_of, ShapelyFeature,
    NaturalEarthFeature, add_feature, getGeometry, getString, getNumber,
    newDataRequest, addIdentifier, setLocationNames, setParameters, setEnvelope,
    getRawData, getLatLonCoords, reduction, contourf, make_map, changeEDEXHost in *.

Section Runs.
Context {Geom : Type} `{Shapely Geom}.
Implicit Types (w : Kernel Geom) (ob : GeometryData Geom).

(** *** Worlds *)

Lemma emit_nil w : emit [] [] w = w.
Proof. destruct w as [tr host [fs pr ex arts]]. unfold emit. cbn. by rewrite !app_nil_r. Qed.

Lemma emit_emit evs1 arts1 evs2 arts2 w :
  emit evs2 arts2 (emit evs1 arts1 w) = emit (evs1 ++ evs2) (arts1 ++ arts2) w.
Proof. unfold emit. cbn. by rewrite !app_assoc. Qed.

Lemma log_emit e w : log e w = emit [e] [] w.
Proof. destruct w as [tr host [fs pr ex arts]]. unfold emit, log. cbn. by rewrite app_nil_r. Qed.

Lemma draw_emit a w : draw a w = emit [] [a] w.
Proof. destruct w as [tr host [fs pr ex arts]]. unfold emit, draw, set_figure. cbn. by rewrite app_nil_r. Qed.

Lemma calls_from_emit {A} (step : NB (Kernel Geom) A) w evs arts :
  fst (step w) = emit evs arts w -> calls_from step w = map fn evs.
Proof. intros Hrun. unfold calls_from. rewrite Hrun. cbn. by rewrite drop_app_length. Qed.

Lemma drawn_from_emit {A} (step : NB (Kernel Geom) A) w evs arts :
  fst (step w) = emit evs arts w -> drawn_from step w = arts.
Proof. intros Hrun. unfold drawn_from. rewrite Hrun. cbn. by rewrite drop_app_length. Qed.

Lemma flat_map_single {A B} (f : A -> B) (xs : list A) :
  flat_map (fun x => [f x]) xs = map f xs.
Proof. induction xs as [| x xs IH]; [done |]. cbn. by rewrite IH. Qed.

(** A loop whose every round succeeds. *)
Lemma for_each_run {A} (xs : list A) (body : A -> NB (Kernel Geom) unit)
    (evs : A -> list (Event Geom)) (arts : A -> list (Artist Geom)) :
  (forall x w, body x w = (emit (evs x) (arts x) w, inr tt)) ->
  forall w, for_each xs body w = (emit (flat_map evs xs) (flat_map arts xs) w, inr tt).
Proof.
  intros Hbody. induction xs as [| x xs IH]; intros w; cbn.
  - by rewrite emit_nil.
  - unfold bind. rewrite Hbody, IH, emit_emit. reflexivity.
Qed.

(** *** Collecting the geometries *)

Lemma collect_geometries_run (response : list (GeometryData Geom)) arr w :
  collect_geometries arr response w
  = (emit (collect_events response) [] w, inr (arr ++ collected response)).
Proof.
  revert arr w. induction response as [| ob rest IH]; intros arr w.
  - cbn. by rewrite emit_nil, app_nil_r.
  - cbn [collect_geometries]. calls. run.
    rewrite IH, !log_emit, !emit_emit. cbn. by rewrite <- app_assoc.
Qed.

(** *** The outline loop *)

Lemma intersecting_run cbounds geometries w :
  intersecting cbounds geometries w
  = (emit (intersecting_events cbounds geometries) [] w,
     inr (map (intersection cbounds) (List.filter (intersects cbounds) geometries))).
Proof.
  revert w. induction geometries as [| geom rest IH]; intros w; cbn.
  - by rewrite emit_nil.
  - calls. run. rewrite log_emit. destruct (intersects cbounds geom); cbn.
    + rewrite log_emit, IH, !emit_emit. reflexivity.
    + rewrite IH, emit_emit. reflexivity.
Qed.

Lemma plot_outlines_run geometries style w :
  plot_outlines geometries style w
  = (emit (flat_map (outline_events geometries) geometries)
          (map (fun geom => ShapelyFeat (parts geometries geom) style) geometries) w,
     inr tt).
Proof.
  unfold plot_outlines.
  rewrite (for_each_run _ _ (outline_events geometries)
             (fun geom => [ShapelyFeat (parts geometries geom) style])).
  - by rewrite flat_map_single.
  - intros geom w'. calls. run.
    rewrite intersecting_run. cbn.
    rewrite !log_emit, draw_emit, !emit_emit. cbn. rewrite !app_nil_r.
    reflexivity.
Qed.

(** *** The line loop *)

Lemma plot_lines_run (response : list (GeometryData Geom)) style w :
  plot_lines response style w
  = (emit (flat_map line_events response)
          (map (fun ob => ShapelyFeat [geometry ob] style) response) w,
     inr tt).
Proof.
  unfold plot_lines.
  rewrite (for_each_run _ _ line_events (fun ob => [ShapelyFeat [geometry ob] style])).
  - by rewrite flat_map_single.
  - intros ob w'. calls. run.
    rewrite !log_emit, draw_emit, !emit_emit. cbn. rewrite !app_nil_r. reflexivity.
Qed.

Lemma single_pass_run (geometries : list Geom) style w :
  single_pass geometries style w
  = (emit (flat_map (fun geom => [event ShapelyFeature_ [] [geom] [];
                                  event add_feature_ [] [geom] []]) geometries)
          (map (fun geom => ShapelyFeat [geom] style) geometries) w,
     inr tt).
Proof.
  unfold single_pass.
  rewrite (for_each_run _ _ (fun geom => [event ShapelyFeature_ [] [geom] [];
                                          event add_feature_ [] [geom] []])
             (fun geom => [ShapelyFeat [geom] style])).
  - by rewrite flat_map_single.
  - intros geom w'. calls. run.
    rewrite !log_emit, draw_emit, !emit_emit. cbn. rewrite !app_nil_r. reflexivity.
Qed.

(** *** The city filter *)

(** A run of the filter that ends normally made the calls [city_calls] lists
    for each row, touched nothing but the trace, and appended the geometry
    and the name of exactly the selected rows. *)
Lemma city_filter_run (cities : list (GeometryData Geom)) :
  forall citylist0 cityname0 w w' citylist cityname,
    city_filter citylist0 cityname0 cities w = (w', inr (citylist, cityname)) ->
    exists evs names,
      w' = emit evs [] w
      /\ map fn evs = flat_map city_calls cities
      /\ citylist = citylist0 ++ map geometry (List.filter selected cities)
      /\ cityname = cityname0 ++ names
      /\ Forall2 (fun ob name => strings ob !! "name" = Some name)
                 (List.filter selected cities) names.
Proof.
  induction cities as [| ob rest IH]; intros cl cn w w' citylist cityname Hrun.
  - cbn in Hrun. injection Hrun as <- <- <-.
    exists [], []. rewrite emit_nil, !app_nil_r. repeat split. constructor.
  - cbn [city_filter] in Hrun. calls.
    unfold selected, city_calls, has_population, disclosed, populous. cbn [List.filter flat_map].
    run.
    destruct (strings ob !! "population") as [p |] eqn:Hp; [| discriminate].
    destruct (truthy p) eqn:Htruthy; cbn in Hrun |- *.
    2: { apply IH in Hrun as (evs & names & -> & Hcalls & -> & -> & Hnames).
         eexists (_ :: evs), names. rewrite log_emit, emit_emit. cbn.
         rewrite Hcalls. repeat split; assumption. }
    destruct (numbers ob !! "prog_disc") as [d |] eqn:Hd; [| discriminate].
    destruct (50 <? d) eqn:Hdisc; cbn in Hrun |- *.
    2: { apply IH in Hrun as (evs & names & -> & Hcalls & -> & -> & Hnames).
         eexists (_ :: _ :: evs), names. rewrite !log_emit, !emit_emit. cbn.
         rewrite Hcalls. repeat split; assumption. }
    destruct (int p) as [e | n] eqn:Hint; [discriminate |].
    destruct (5000 <? n) eqn:Hpop; cbn in Hrun |- *.
    2: { apply IH in Hrun as (evs & names & -> & Hcalls & -> & -> & Hnames).
         eexists (_ :: _ :: _ :: evs), names. rewrite !log_emit, !emit_emit. cbn.
         rewrite Hcalls. repeat split; assumption. }
    destruct (strings ob !! "name") as [name |] eqn:Hname; [| discriminate].
    apply IH in Hrun as (evs & names & -> & Hcalls & -> & -> & Hnames).
    eexists (_ :: _ :: _ :: _ :: _ :: evs), (name :: names).
    rewrite !log_emit, !emit_emit. cbn. rewrite Hcalls, <- !app_assoc. cbn.
    repeat split. constructor; assumption.
Qed.

Lemma selected_passes ob : selected ob = true <-> passes ob.
Proof.
  unfold selected, passes, has_population, disclosed, populous, truthy.
  split.
  - intros Hsel. apply andb_prop in Hsel as [Hsel Hpop].
    apply andb_prop in Hsel as [Hhas Hdisc].
    destruct (strings ob !! "population") as [p |] eqn:Hp; [| discriminate].
    destruct (numbers ob !! "prog_disc") as [d |] eqn:Hd; [| discriminate].
    destruct (int p) as [e | n] eqn:Hint; [discriminate |].
    apply Z.ltb_lt in Hdisc, Hpop.
    exists p, d, n. repeat split; try assumption.
    intros ->. discriminate.
  - intros (p & d & n & -> & Hp & -> & Hd & -> & Hn).
    apply String.eqb_neq in Hp. rewrite Hp. cbn.
    apply andb_true_intro. split; [apply Z.ltb_lt; lia |]. apply Z.ltb_lt. lia.
Qed.

Lemma annotate_cities_run (cityname : list string) :
  forall (k : nat) (citylist : list Geom) w,
    (k + length cityname <= length citylist)%nat ->
    annotate_cities (Z.of_nat k) citylist cityname w
    = (emit (zip_with (fun g name => event annotate_ [name] [g; g] [])
                      (drop k citylist) cityname)
            (annotations (drop k citylist) cityname) w,
       inr tt).
Proof.
  induction cityname as [| txt rest IH]; intros k citylist w Hlen.
  - cbn. unfold annotations. rewrite !zip_with_nil_r, emit_nil. reflexivity.
  - cbn in Hlen.
    destruct (citylist !! k) as [g |] eqn:Hg;
      [| apply lookup_ge_None in Hg; lia].
    cbn [annotate_cities]. calls. run. rewrite (getitem_lookup _ _ _ Hg). cbn.
    replace (Z.of_nat k + 1) with (Z.of_nat (S k)) by lia.
    rewrite IH by lia. rewrite log_emit, draw_emit, !emit_emit.
    rewrite (drop_S _ _ _ Hg). reflexivity.
Qed.


End Runs.


(** *** Single pass or every pair *)

Section Passes.
Context {Geom : Type} `{Shapely Geom}.
Implicit Types (w : Kernel Geom).

Lemma intersecting_tests cbounds (geometries : list Geom) :
  length (List.filter is_intersects (map fn (intersecting_events cbounds geometries)))
  = length geometries.
Proof.
  induction geometries as [| geom rest IH]; [done |].
  unfold intersecting_events in *. cbn [flat_map].
  rewrite map_app, List.filter_app, length_app, IH.
  by destruct (intersects cbounds geom).
Qed.

Lemma outline_round_tests (geometries : list Geom) (geom : Geom) :
  length (List.filter is_intersects (map fn (outline_events geometries geom)))
  = length geometries.
Proof.
  unfold outline_events. rewrite !map_cons, map_app.
  transitivity
    (length (List.filter is_intersects
               (map fn (intersecting_events (Polygon geom) geometries)
                ++ [add_feature_]))); [reflexivity |].
  rewrite List.filter_app, length_app, intersecting_tests.
  change (length (List.filter is_intersects [add_feature_])) with 0%nat.
  lia.
Qed.

Lemma outline_tests (geometries round : list Geom) :
  length (List.filter is_intersects (map fn (flat_map (outline_events geometries) round)))
  = (length round * length geometries)%nat.
Proof.
  induction round as [| geom rest IH]; [done |].
  cbn [flat_map]. rewrite map_app, List.filter_app, length_app, IH.
  rewrite outline_round_tests. cbn [length]. lia.
Qed.


Lemma plot_lines_calls (response : list (GeometryData Geom)) style w :
  calls_from (plot_lines response style) w
  = flat_map (fun _ => [getGeometry_; ShapelyFeature_; add_feature_]) response.
Proof.
  rewrite (calls_from_emit _ w _ _ (f_equal fst (plot_lines_run response style w))).
  induction response as [| ob rest IH]; [done |]. cbn. by rewrite IH.
Qed.

Lemma intersecting_calls cbounds (geometries : list Geom) w :
  calls_from (intersecting cbounds geometries) w
  = flat_map (fun geom => intersects_
                          :: (if intersects cbounds geom then [intersection_] else []))
             geometries.
Proof.
  rewrite (calls_from_emit _ w _ _ (f_equal fst (intersecting_run cbounds geometries w))).
  induction geometries as [| geom rest IH]; [done |].
  unfold intersecting_events in *. cbn [flat_map].
  rewrite map_app, IH. by destruct (intersects cbounds geom).
Qed.

Lemma city_filter_calls (cities : list (GeometryData Geom)) w w' result :
  city_filter [] [] cities w = (w', inr result) ->
  calls_from (city_filter [] [] cities) w = flat_map city_calls cities.
Proof.
  intros Hrun. destruct result as [citylist cityname].
  pose proof Hrun as Hrun'.
  apply city_filter_run in Hrun' as (evs & names & -> & Hcalls & _).
  rewrite <- Hcalls. eapply calls_from_emit. by rewrite Hrun.
Qed.

End Passes.



(** *** A logic of traces *)

Section Logic.
Context {Geom : Type}.
Implicit Types (e : Event Geom) (tr : list (Event Geom)) (g : Geom) (gs : list Geom)
  (w : Kernel Geom).

Lemma phase_snoc tr e : phase (tr ++ [e]) = next (phase tr) e.
Proof. unfold phase. by rewrite fold_left_app. Qed.

Lemma produced_app tr more g : produced tr g -> produced (tr ++ more) g.
Proof.
  intros (e & He & Hstage & Hg). exists e. split; [| done].
  apply elem_of_app. by left.
Qed.

Lemma produced_snoc tr e g :
  produces (fn e) -> g ∈ defs e -> produced (tr ++ [e]) g.
Proof.
  intros Hstage Hg. exists e. split; [| done].
  apply elem_of_app. right. by apply list_elem_of_singleton.
Qed.

Lemma sound_nil : sound (@nil (Event Geom)).
Proof.
  split.
  - intros pre e post g Heq. by destruct pre.
  - intros pre e post Heq. by destruct pre.
Qed.

Lemma sound_snoc tr e :
  sound tr ->
  (forall g, g ∈ uses e -> produced tr g) ->
  permitted (phase tr) e ->
  sound (tr ++ [e]).
Proof.
  intros [Hreads Hconf] Huses Hperm. split.
  - intros pre e' post g Heq Hg.
    apply snoc_split in Heq as [(-> & -> & ->) | (post' & -> & ->)].
    + by apply Huses.
    + by eapply Hreads.
  - intros pre e' post Heq.
    apply snoc_split in Heq as [(-> & -> & ->) | (post' & -> & ->)].
    + exact Hperm.
    + by eapply Hconf.
Qed.

Lemma known_weaken gs gs' ph tr :
  (forall g, g ∈ gs' -> g ∈ gs) -> known gs ph tr -> known gs' ph tr.
Proof. intros Hsub [Hgs Hph]. split; [| done]. intros g Hg. by apply Hgs, Hsub. Qed.

(** **** Rules *)

Lemma spec_conseq {A} (P P' : list (Event Geom) -> Prop) (step : NB (Kernel Geom) A)
    (Q Q' : A -> list (Event Geom) -> Prop) :
  spec P step Q ->
  (forall tr, P' tr -> P tr) ->
  (forall a tr, Q a tr -> Q' a tr) ->
  spec P' step Q'.
Proof.
  intros Hspec HP HQ w Hsound Hpre.
  destruct (Hspec w Hsound (HP _ Hpre)) as (Hmore & Hs & Hpost).
  split; [done |]. split; [done |].
  destruct (snd (step w)); [done |]. by apply HQ.
Qed.

Lemma spec_assume {A} (fact : Prop) (P : list (Event Geom) -> Prop)
    (step : NB (Kernel Geom) A) (Q : A -> list (Event Geom) -> Prop) :
  (fact -> spec P step Q) -> spec (fun tr => fact /\ P tr) step Q.
Proof. intros Hspec w Hsound [Hfact Hpre]. by apply Hspec. Qed.

Lemma spec_ret {A} (a : A) (P : list (Event Geom) -> Prop) :
  spec P (mret a) (fun x tr => x = a /\ P tr).
Proof.
  intros w Hsound Hpre. cbn. split; [| by split].
  exists []. by rewrite app_nil_r.
Qed.

Lemma spec_bind {A B} (P : list (Event Geom) -> Prop) (step : NB (Kernel Geom) A)
    (Q : A -> list (Event Geom) -> Prop) (k : A -> NB (Kernel Geom) B)
    (R : B -> list (Event Geom) -> Prop) :
  spec P step Q ->
  (forall a, spec (Q a) (k a) R) ->
  spec P (step ≫= k) R.
Proof.
  intros Hstep Hk w Hsound Hpre.
  destruct (Hstep w Hsound Hpre) as ([more Hmore] & Hs & Hpost).
  unfold mbind, nb_bind, bind.
  destruct (step w) as [w1 [e | a]]; cbn in *.
  - split; [by exists more | by split].
  - destruct (Hk a w1 Hs Hpost) as ([more' Hmore'] & Hs' & Hpost').
    split; [| by split].
    exists (more ++ more'). by rewrite Hmore', Hmore, app_assoc.
Qed.

Lemma spec_lift {A} (r : Exn + A) (P : list (Event Geom) -> Prop) :
  spec P (lift r) (fun a tr => r = inr a /\ P tr).
Proof.
  intros w Hsound Hpre. cbn. split; [| split; [done |]].
  - exists []. by rewrite app_nil_r.
  - by destruct r.
Qed.

Lemma spec_modify (f : Kernel Geom -> Kernel Geom) (P : list (Event Geom) -> Prop) :
  (forall w, trace (f w) = trace w) ->
  spec P (modify f) (fun _ tr => P tr).
Proof.
  intros Hf w Hsound Hpre. cbn. rewrite Hf. split; [| by split].
  exists []. by rewrite app_nil_r.
Qed.

(** One logged call [e] with outcome [r]: it reads known geometries and is
    permitted in the phase. *)
Lemma spec_log {A} e (r : Exn + A) gs ph :
  (forall g, g ∈ uses e -> g ∈ gs) ->
  permitted ph e ->
  spec (known gs ph) (fun w => (log e w, r))
       (fun a tr => r = inr a /\ known gs (next ph e) tr).
Proof.
  intros Hus Hperm w Hsound [Hgs Hph]. cbn.
  split; [| split].
  - by eexists.
  - apply sound_snoc; [done | | by rewrite Hph].
    intros g Hg. by apply Hgs, Hus.
  - destruct r; [done |]. split; [done |]. split.
    + intros g Hg. by apply produced_app, Hgs.
    + by rewrite phase_snoc, Hph.
Qed.

(** The same for a call whose results count as produced: what it returns
    becomes known. *)
Lemma spec_log_def {A} e (r : Exn + A) gs ph :
  produces (fn e) ->
  (forall g, g ∈ uses e -> g ∈ gs) ->
  permitted ph e ->
  spec (known gs ph) (fun w => (log e w, r))
       (fun a tr => r = inr a /\ known (defs e ++ gs) (next ph e) tr).
Proof.
  intros Hstage Hus Hperm w Hsound [Hgs Hph]. cbn.
  split; [| split].
  - by eexists.
  - apply sound_snoc; [done | | by rewrite Hph].
    intros g Hg. by apply Hgs, Hus.
  - destruct r; [done |]. split; [done |]. split.
    + intros g [Hg | Hg]%elem_of_app.
      * by apply produced_snoc.
      * by apply produced_app, Hgs.
    + by rewrite phase_snoc, Hph.
Qed.

(** A call that reads known geometries and is permitted in the phase. *)
Lemma spec_call {A} (f : LibCall) ss us ds (r : Exn + A) gs ph :
  (forall g, g ∈ us -> g ∈ gs) ->
  permitted ph (event f ss us ds) ->
  spec (known gs ph) (call f ss us ds r)
       (fun a tr => r = inr a /\ known gs (next ph (event f ss us ds)) tr).
Proof. intros Hus Hperm. by apply (spec_log (mkEvent f ss us ds None (failure_of r))). Qed.

(** A geometry operation, or [np.append]: what it returns becomes known. *)
Lemma spec_call_def {A} (f : LibCall) ss us ds (r : Exn + A) gs ph :
  produces f ->
  (forall g, g ∈ us -> g ∈ gs) ->
  permitted ph (event f ss us ds) ->
  spec (known gs ph) (call f ss us ds r)
       (fun a tr => r = inr a /\ known (ds ++ gs) (next ph (event f ss us ds)) tr).
Proof.
  intros Hf Hus Hperm.
  by apply (spec_log_def (mkEvent f ss us ds None (failure_of r))).
Qed.

Lemma spec_exists {A X} (P : X -> list (Event Geom) -> Prop)
    (step : NB (Kernel Geom) A) (Q : A -> list (Event Geom) -> Prop) :
  (forall x, spec (P x) step Q) -> spec (fun tr => exists x, P x tr) step Q.
Proof. intros Hspec w Hsound [x Hpre]. by apply (Hspec x). Qed.

Lemma spec_for_each {A} (xs : list A) (body : A -> NB (Kernel Geom) unit)
    (I : list (Event Geom) -> Prop) :
  (forall x, x ∈ xs -> spec I (body x) (fun _ tr => I tr)) ->
  spec I (for_each xs body) (fun _ tr => I tr).
Proof.
  induction xs as [| x xs IH]; intros Hbody.
  - eapply spec_conseq; [apply (spec_ret tt) | done |]. by intros a tr [_ ?].
  - cbn [for_each].
    apply (spec_bind I (body x) (fun _ tr => I tr) (fun _ => for_each xs body)).
    + apply Hbody. by left.
    + intros _. apply IH. intros y Hy. apply Hbody. by right.
Qed.

End Logic.

(** *** The calls and the loops, one by one *)

Section Steps.
Context {Geom : Type} `{Shapely Geom} `{Awips Geom}.
Implicit Types (tr : list (Event Geom)) (g : Geom) (gs : list Geom)
  (request : Request Geom) (ob : GeometryData Geom).

(** One more step of a cell: [lem] is the rule of the step's first call. *)
Ltac step lem :=
  eapply spec_bind; [eapply lem | intros ?; cbv beta; apply spec_assume; intros ?].

Ltac finish :=
  eapply spec_conseq; [apply spec_ret | done | cbv beta; intros ? ? [-> ?]].

(** **** Requests: each setter returns the request it was given with one
    field replaced *)

Lemma spec_newDataRequest datatype (envelope : option Geom) gs ph :
  (forall g, g ∈ option_list envelope -> g ∈ gs) ->
  spec (known gs ph) (newDataRequest datatype envelope)
       (fun r tr => r = mkRequest datatype ∅ [] [] envelope /\ known gs (Open false) tr).
Proof.
  intros Henv. unfold newDataRequest.
  eapply spec_conseq; [by apply (spec_call _ _ _ _ _ gs ph) | done |].
  intros r tr [[= <-] Hk]. done.
Qed.

Lemma spec_addIdentifier request key value gs identified :
  spec (known gs (Open identified)) (addIdentifier request key value)
       (fun r tr =>
          r = mkRequest (datatype request) (<[key := value]> (identifiers request))
                (locationNames request) (parameters request) (envelope request)
          /\ known gs (Open true) tr).
Proof.
  unfold addIdentifier.
  eapply spec_conseq;
    [apply (spec_call _ _ _ _ _ gs (Open identified)); [by intros g ?%elem_of_nil | by eexists]
    | done |].
  intros r tr [[= <-] Hk]. done.
Qed.

Lemma spec_setLocationNames request names gs identified :
  spec (known gs (Open identified)) (setLocationNames request names)
       (fun r tr =>
          r = mkRequest (datatype request) (identifiers request) names
                (parameters request) (envelope request)
          /\ known gs (Open identified) tr).
Proof.
  unfold setLocationNames.
  eapply spec_conseq;
    [apply (spec_call _ _ _ _ _ gs (Open identified)); [by intros g ?%elem_of_nil | by eexists]
    | done |].
  intros r tr [[= <-] Hk]. done.
Qed.

Lemma spec_setParameters request params gs identified :
  spec (known gs (Open identified)) (setParameters request params)
       (fun r tr =>
          r = mkRequest (datatype request) (identifiers request)
                (locationNames request) params (envelope request)
          /\ known gs (Open identified) tr).
Proof.
  unfold setParameters.
  eapply spec_conseq;
    [apply (spec_call _ _ _ _ _ gs (Open identified)); [by intros g ?%elem_of_nil | by eexists]
    | done |].
  intros r tr [[= <-] Hk]. done.
Qed.

Lemma spec_setEnvelope request env gs identified :
  env ∈ gs ->
  spec (known gs (Open identified)) (setEnvelope request env)
       (fun r tr =>
          r = mkRequest (datatype request) (identifiers request)
                (locationNames request) (parameters request) (Some env)
          /\ known gs (Open identified) tr).
Proof.
  intros Henv. unfold setEnvelope.
  eapply spec_conseq;
    [apply (spec_call _ _ _ _ _ gs (Open identified)); [| by eexists] | done |].
  - intros g ->%list_elem_of_singleton. done.
  - intros r tr [[= <-] Hk]. done.
Qed.

(** A submission: the request must name its source and have a spatial
    filter, and its envelope must have been produced. *)
Lemma spec_getGeometryData request gs :
  well_configured request ->
  (forall g, g ∈ option_list (envelope request) -> g ∈ gs) ->
  spec (known gs (Open true)) (getGeometryData request)
       (fun response tr => True /\ known (map geometry response ++ gs) Submitted tr).
Proof.
  intros Hwf Henv w Hsound Hk. unfold getGeometryData, submit.
  set (r := getGeometryData_on (edex_host w) request).
  set (ev := mkEvent getGeometryData_ [datatype request]
               (option_list (envelope request)) (fetched r) (Some request)
               (failure_of r)).
  assert (Hperm : permitted (Open true) ev).
  { split; [done |]. by exists request. }
  assert (Hproduces : produces (fn ev)) by by left.
  generalize (spec_log_def ev r gs (Open true) Hproduces Henv Hperm w Hsound Hk).
  subst ev. cbn. destruct r as [e | response];
    intros (Hmore & Hs & Hpost); (split; [done |]); (split; [done |]).
  - done.
  - destruct Hpost as [_ Hknown]. split; [done | exact Hknown].
Qed.

Lemma spec_getGridData request gs :
  well_configured request ->
  (forall g, g ∈ option_list (envelope request) -> g ∈ gs) ->
  spec (known gs (Open true)) (getGridData request)
       (fun _ tr => True /\ known gs Submitted tr).
Proof.
  intros Hwf Henv w Hsound Hk. unfold getGridData, submit.
  set (r := getGridData_on (edex_host w) request).
  set (ev := mkEvent getGridData_ [datatype request]
               (option_list (envelope request)) [] (Some request) (failure_of r)).
  assert (Hperm : permitted (Open true) ev).
  { split; [done |]. by exists request. }
  pose proof (spec_log ev r gs (Open true) Henv Hperm w Hsound Hk) as (Hmore & Hs & Hpost).
  subst ev.
  split; [done |]. split; [done |].
  cbn in *. destruct r; [done |]. by destruct Hpost.
Qed.

Lemma spec_getGeometry ob gs ph :
  geometry ob ∈ gs ->
  spec (known gs ph) (getGeometry ob) (fun g tr => g = geometry ob /\ known gs ph tr).
Proof.
  intros Hg. unfold getGeometry.
  eapply spec_conseq; [apply (spec_call _ _ _ _ _ gs ph); [| done] | done |].
  - intros g ->%list_elem_of_singleton. done.
  - intros g tr [[= <-] Hk]. done.
Qed.

Lemma spec_getString ob param gs ph :
  spec (known gs ph) (getString ob param) (fun _ tr => True /\ known gs ph tr).
Proof.
  unfold getString.
  eapply spec_conseq;
    [apply (spec_call _ _ _ _ _ gs ph); [by intros g ?%elem_of_nil | done] | done |].
  intros s tr [_ Hk]. done.
Qed.

Lemma spec_getNumber ob param gs ph :
  spec (known gs ph) (getNumber ob param) (fun _ tr => True /\ known gs ph tr).
Proof.
  unfold getNumber.
  eapply spec_conseq;
    [apply (spec_call _ _ _ _ _ gs ph); [by intros g ?%elem_of_nil | done] | done |].
  intros s tr [_ Hk]. done.
Qed.

(** A call that reads no geometry and belongs to no request. *)
Lemma spec_plain_call {A} (f : LibCall) ss (r : Exn + A) gs ph :
  stage f = Render \/ stage f = Other ->
  spec (known gs ph) (call f ss [] [] r) (fun a tr => r = inr a /\ known gs ph tr).
Proof.
  intros Hstage.
  eapply spec_conseq; [apply (spec_call _ _ _ _ _ gs ph) | done |].
  - by intros g ?%elem_of_nil.
  - unfold permitted. cbn. destruct f; try done; by destruct Hstage.
  - intros a tr [Hr Hk]. split; [done |].
    replace ph with (next ph (event (Geom := Geom) f ss [] [])) at 1; [done |].
    unfold next. cbn. destruct f; try done; by destruct Hstage.
Qed.

Lemma spec_draw (a : Artist Geom) gs ph :
  spec (known gs ph) (modify (draw a)) (fun _ tr => True /\ known gs ph tr).
Proof.
  eapply spec_conseq; [by apply (spec_modify (draw a)) | done | done].
Qed.

(** **** Geometry operations: what they return becomes known *)

Lemma spec_geometry_call (f : LibCall) (us : list Geom) g gs ph :
  stage f = Geometry ->
  (forall u, u ∈ us -> u ∈ gs) ->
  spec (known gs ph) (geometry_call f us g)
       (fun a tr => a = g /\ known (g :: gs) ph tr).
Proof.
  intros Hstage Hus. unfold geometry_call.
  eapply spec_conseq; [apply (spec_call_def _ _ _ _ _ gs ph) | done |].
  - right. by left.
  - exact Hus.
  - unfold permitted. cbn. by destruct f.
  - intros a tr [[= <-] Hk]. split; [done |].
    replace ph with (next ph (event (Geom := Geom) f [] us [g])) at 1; [done |].
    unfold next. cbn. by destruct f.
Qed.

Lemma spec_np_append (arr : list Geom) g gs ph :
  g ∈ gs ->
  spec (known gs ph) (np_append arr g)
       (fun arr' tr => arr' = arr ++ as_elements g /\ known (as_elements g ++ gs) ph tr).
Proof.
  intros Hg. unfold np_append.
  eapply spec_conseq; [apply (spec_call_def _ _ _ _ _ gs ph) | done |].
  - right. by right.
  - intros u ->%list_elem_of_singleton. done.
  - done.
  - intros a tr [[= <-] Hk]. done.
Qed.

Lemma spec_shapely_bounds g gs ph :
  g ∈ gs ->
  spec (known gs ph) (shapely_bounds g) (fun b tr => b = bounds g /\ known gs ph tr).
Proof.
  intros Hg. unfold shapely_bounds.
  eapply spec_conseq; [apply (spec_call _ _ _ _ _ gs ph); [| done] | done |].
  - intros u ->%list_elem_of_singleton. done.
  - intros b tr [[= <-] Hk]. done.
Qed.

Lemma spec_shapely_intersects g h gs ph :
  g ∈ gs -> h ∈ gs ->
  spec (known gs ph) (shapely_intersects g h)
       (fun b tr => b = intersects g h /\ known gs ph tr).
Proof.
  intros Hg Hh. unfold shapely_intersects.
  eapply spec_conseq; [apply (spec_call _ _ _ _ _ gs ph); [| done] | done |].
  - intros u [-> | ->%list_elem_of_singleton]%elem_of_cons; done.
  - intros b tr [[= <-] Hk]. done.
Qed.

(** **** Rendering *)

Lemma spec_ShapelyFeature (geometries : list Geom) style gs ph :
  (forall g, g ∈ geometries -> g ∈ gs) ->
  spec (known gs ph) (ShapelyFeature geometries style)
       (fun a tr => a = ShapelyFeat geometries style /\ known gs ph tr).
Proof.
  intros Hgs. unfold ShapelyFeature.
  eapply spec_conseq; [by apply (spec_call _ _ _ _ _ gs ph) | done |].
  intros a tr [[= <-] Hk]. done.
Qed.

(** The feature built from a generator holds what the generator yields. *)
Lemma spec_ShapelyFeature_of (generator : NB (Kernel Geom) (list Geom)) style gs ph :
  spec (known gs ph) generator (fun found tr => True /\ known (found ++ gs) ph tr) ->
  spec (known gs ph) (ShapelyFeature_of generator style)
       (fun a tr => exists found, a = ShapelyFeat found style /\ known (found ++ gs) ph tr).
Proof.
  intros Hgen. unfold ShapelyFeature_of.
  eapply spec_bind; [apply spec_plain_call; by left |].
  intros []. cbv beta. apply spec_assume. intros _.
  eapply spec_bind; [exact Hgen |].
  intros found. cbv beta. apply spec_assume. intros _.
  eapply spec_conseq; [apply spec_ret | done |].
  cbv beta. intros a tr [-> Hk]. by exists found.
Qed.

Lemma spec_NaturalEarthFeature category name scale style gs ph :
  spec (known gs ph) (NaturalEarthFeature category name scale style)
       (fun a tr => a = NaturalEarth category name scale style /\ known gs ph tr).
Proof.
  unfold NaturalEarthFeature.
  eapply spec_conseq; [by apply spec_plain_call; left | done |].
  intros a tr [[= <-] Hk]. done.
Qed.

Lemma spec_add_feature (feature : Artist Geom) kwargs gs ph :
  (forall g, g ∈ artist_geoms feature -> g ∈ gs) ->
  spec (known gs ph) (add_feature feature kwargs) (fun _ tr => True /\ known gs ph tr).
Proof.
  intros Hgs. unfold add_feature.
  eapply spec_bind.
  - by apply (spec_call _ _ _ _ _ gs ph).
  - intros []. cbv beta. apply spec_assume. intros _. apply spec_draw.
Qed.

Lemma spec_scatter (points : list Geom) marker facecolor gs ph :
  (forall g, g ∈ points -> g ∈ gs) ->
  spec (known gs ph) (scatter points marker facecolor) (fun _ tr => True /\ known gs ph tr).
Proof.
  intros Hgs. unfold scatter.
  eapply spec_bind.
  - by apply (spec_call _ _ _ _ _ gs ph).
  - intros []. cbv beta. apply spec_assume. intros _. apply spec_draw.
Qed.

Lemma spec_annotate txt (p q : Geom) xytext gs ph :
  p ∈ gs -> q ∈ gs ->
  spec (known gs ph) (annotate txt p q xytext) (fun _ tr => True /\ known gs ph tr).
Proof.
  intros Hp Hq. unfold annotate.
  eapply spec_bind.
  - apply (spec_call _ _ _ _ _ gs ph); [| done].
    intros u [-> | ->%list_elem_of_singleton]%elem_of_cons; done.
  - intros []. cbv beta. apply spec_assume. intros _. apply spec_draw.
Qed.

(** **** Loops *)

Lemma spec_collect_geometries (response : list (GeometryData Geom)) :
  forall arr gs ph,
    (forall ob, ob ∈ response -> geometry ob ∈ gs) ->
    spec (known gs ph) (collect_geometries arr response)
         (fun arr' tr => arr' = arr ++ collected response
                         /\ known (collected response ++ gs) ph tr).
Proof.
  induction response as [| ob rest IH]; intros arr gs ph Hgs; cbn [collect_geometries].
  - finish. by rewrite app_nil_r.
  - step spec_getGeometry; [apply Hgs; by left |]. subst.
    eapply spec_bind; [apply spec_np_append; apply Hgs; by left |].
    intros arr'. cbv beta. apply spec_assume. intros ->.
    eapply spec_conseq; [apply IH | done |].
    + intros ob' Hob'. apply elem_of_app. right. apply Hgs. by right.
    + cbv beta. intros arr' tr [-> Hk]. split.
      * unfold collected. cbn [flat_map]. by rewrite <- app_assoc.
      * eapply known_weaken; cycle 1; [exact Hk |].
        unfold collected. cbn [flat_map]. intros g.
        rewrite !elem_of_app. tauto.
Qed.

Lemma spec_intersecting (geometries : list Geom) :
  forall cbounds gs ph,
    cbounds ∈ gs ->
    (forall g, g ∈ geometries -> g ∈ gs) ->
    spec (known gs ph) (intersecting cbounds geometries)
         (fun found tr => True /\ known (found ++ gs) ph tr).
Proof.
  induction geometries as [| geom rest IH]; intros cbounds gs ph Hcb Hgs;
    cbn [intersecting].
  - finish. done.
  - eapply spec_bind; [apply spec_shapely_intersects; [done | apply Hgs; by left] |].
    intros hit. cbv beta. apply spec_assume. intros _.
    destruct hit.
    + eapply spec_bind.
      { apply (spec_geometry_call intersection_); [done |].
        intros u [-> | ->%list_elem_of_singleton]%elem_of_cons; [done |].
        apply Hgs. by left. }
      intros part. cbv beta. apply spec_assume. intros ->.
      eapply spec_bind.
      * apply IH.
        -- by right.
        -- intros g Hg. right. apply Hgs. by right.
      * intros found. cbv beta. apply spec_assume. intros _.
        finish. split; [done |].
        eapply known_weaken; cycle 1; [eassumption |].
        intros g. rewrite ?elem_of_app, ?elem_of_cons, ?elem_of_app. tauto.
    + apply IH; [done |]. intros g Hg. apply Hgs. by right.
Qed.

Lemma spec_plot_outlines (geometries : list Geom) style gs ph :
  (forall g, g ∈ geometries -> g ∈ gs) ->
  spec (known gs ph) (plot_outlines geometries style) (fun _ tr => known gs ph tr).
Proof.
  intros Hgs. unfold plot_outlines. apply spec_for_each. intros geom Hgeom.
  eapply spec_bind.
  { apply (spec_geometry_call Polygon_); [done |].
    intros u ->%list_elem_of_singleton. by apply Hgs. }
  intros cbounds. cbv beta. apply spec_assume. intros ->.
  eapply spec_bind.
  { apply spec_ShapelyFeature_of, spec_intersecting.
    - by left.
    - intros g Hg. right. by apply Hgs. }
  intros feature. cbv beta. apply spec_exists. intros found.
  apply spec_assume. intros ->.
  eapply spec_conseq; [apply spec_add_feature | done |].
  - intros g Hg. apply elem_of_app. by left.
  - cbv beta. intros _ tr [_ Hk]. eapply known_weaken; [| exact Hk].
    intros g Hg. apply elem_of_app. right. by right.
Qed.

Lemma spec_plot_lines (response : list (GeometryData Geom)) style gs ph :
  (forall ob, ob ∈ response -> geometry ob ∈ gs) ->
  spec (known gs ph) (plot_lines response style) (fun _ tr => known gs ph tr).
Proof.
  intros Hgs. unfold plot_lines. apply spec_for_each. intros ob Hob.
  step spec_getGeometry; [by apply Hgs |]. subst.
  eapply spec_bind.
  { apply spec_ShapelyFeature. intros g ->%list_elem_of_singleton. by apply Hgs. }
  intros feature. cbv beta. apply spec_assume. intros ->.
  eapply spec_conseq; [apply spec_add_feature | done |].
  - intros g ->%list_elem_of_singleton. by apply Hgs.
  - cbv beta. by intros _ tr [_ Hk].
Qed.

Lemma spec_city_filter (cities : list (GeometryData Geom)) :
  forall citylist cityname gs ph,
    (forall ob, ob ∈ cities -> geometry ob ∈ gs) ->
    (forall g, g ∈ citylist -> g ∈ gs) ->
    spec (known gs ph) (city_filter citylist cityname cities)
         (fun lists tr => (forall g, g ∈ fst lists -> g ∈ gs) /\ known gs ph tr).
Proof.
  induction cities as [| ob rest IH]; intros citylist cityname gs ph Hgs Hlist;
    cbn [city_filter].
  - finish. done.
  - assert (Hrest : forall ob', ob' ∈ rest -> geometry ob' ∈ gs).
    { intros ob' Hob'. apply Hgs. by right. }
    step spec_getString.
    destruct (truthy _); [| by apply IH].
    step spec_getNumber.
    destruct (50 <? _); [| by apply IH].
    step spec_getString.
    eapply spec_bind; [apply spec_lift |].
    intros population. cbv beta. apply spec_assume. intros _.
    destruct (5000 <? population); [| by apply IH].
    step spec_getGeometry; [apply Hgs; by left |]. subst.
    step spec_getString.
    apply IH; [done |].
    intros g [Hg | ->%list_elem_of_singleton]%elem_of_app; [by apply Hlist |].
    apply Hgs. by left.
Qed.

Lemma spec_annotate_cities (cityname : list string) :
  forall i (citylist : list Geom) gs ph,
    (forall g, g ∈ citylist -> g ∈ gs) ->
    spec (known gs ph) (annotate_cities i citylist cityname) (fun _ tr => known gs ph tr).
Proof.
  induction cityname as [| txt rest IH]; intros i citylist gs ph Hlist;
    cbn [annotate_cities].
  - finish. done.
  - eapply spec_bind; [apply spec_lift |].
    intros p. cbv beta. apply spec_assume. intros Hp%getitem_inr.
    eapply spec_bind; [apply spec_lift |].
    intros q. cbv beta. apply spec_assume. intros Hq%getitem_inr.
    step spec_annotate; [by apply Hlist | by apply Hlist |].
    by apply IH.
Qed.

End Steps.

(** *** The cells *)

Section Cells.
Context {Geom : Type} `{Shapely Geom} `{Awips Geom}.
Implicit Types (tr : list (Event Geom)) (g : Geom) (gs : list Geom)
  (request : Request Geom).

Tactic Notation "step" uconstr(lem) "as" simple_intropattern(x) simple_intropattern(Hx) :=
  eapply spec_bind;
  [eapply lem | intros x; cbv beta; apply spec_assume; intros Hx].

(** A rendering or bookkeeping call that reads no geometry. *)
Ltac plain :=
  eapply spec_bind;
  [apply spec_plain_call; first [left; reflexivity | right; reflexivity]
  | intros ?; cbv beta; apply spec_assume; intros _].

Ltac update :=
  eapply spec_bind; [apply spec_modify; reflexivity | intros ?; cbv beta].

Ltac finish :=
  eapply spec_conseq; [apply spec_ret | done | cbv beta; intros ? ? [-> ?]].

Lemma no_envelope gs : forall g, g ∈ option_list (@None Geom) -> g ∈ gs.
Proof. by intros g ?%elem_of_nil. Qed.

Lemma the_envelope env gs : env ∈ gs -> forall g, g ∈ option_list (Some env) -> g ∈ gs.
Proof. by intros Henv g ->%list_elem_of_singleton. Qed.

(** A request for a table inside an envelope names its source and has a
    spatial filter; so does the topography request. *)
Lemma table_request_well_configured table params (env : Geom) :
  well_configured (table_request table params env).
Proof.
  split.
  - left. cbn. rewrite lookup_insert_ne by done. rewrite lookup_insert_eq. by eexists.
  - right. by eexists.
Qed.

Lemma topo_request_well_configured (env : Geom) : well_configured (topo_request env).
Proof.
  split.
  - right. cbn. split.
    + rewrite lookup_insert_ne by done. rewrite lookup_insert_eq. by eexists.
    + rewrite lookup_insert_eq. by eexists.
  - right. by eexists.
Qed.

Lemma county_request_well_configured request :
  is_Some (identifiers request !! "table") -> well_configured (county_request request).
Proof.
  intros Htable. split.
  - left. cbn. by rewrite !lookup_insert_ne.
  - left. done.
Qed.

Lemma spec_make_map bbox projection gs ph :
  spec (known gs ph) (make_map bbox projection) (fun _ tr => True /\ known gs ph tr).
Proof.
  unfold make_map.
  plain. update. plain. update. plain. update. plain.
  eapply spec_conseq; [apply spec_modify; reflexivity | done | done].
Qed.

Lemma spec_setup_cell gs ph :
  spec (known gs ph) setup_cell
       (fun request tr =>
          (envelope request = None /\ is_Some (identifiers request !! "table"))
          /\ known gs (Open true) tr).
Proof.
  unfold setup_cell, changeEDEXHost.
  eapply spec_bind.
  { plain. eapply spec_conseq; [apply spec_modify; reflexivity | done |].
    cbv beta. intros ? ? Hk. exact Hk. }
  intros []. cbv beta.
  step spec_newDataRequest as request Hrequest; [apply no_envelope |]. subst request.
  eapply spec_conseq; [apply spec_addIdentifier | done |].
  cbv beta. intros r tr [-> Hk]. split; [| done]. cbn. split; [done |].
  rewrite lookup_insert_eq. by eexists.
Qed.

Lemma spec_county_cell request gs :
  envelope request = None ->
  is_Some (identifiers request !! "table") ->
  spec (known gs (Open true)) (county_cell request)
       (fun vars tr => True /\ known (envelope_var vars :: boundaries vars) Submitted tr).
Proof.
  intros Hnone Htable. unfold county_cell.
  step spec_setLocationNames as r1 H1. subst r1.
  step spec_addIdentifier as r2 H2. subst r2.
  step spec_addIdentifier as r3 H3. subst r3.
  step spec_addIdentifier as r4 H4. subst r4.
  step spec_addIdentifier as r5 H5. subst r5.
  step spec_getGeometryData as response Hresponse.
  { by apply (county_request_well_configured request). }
  { cbn. rewrite Hnone. apply no_envelope. }
  unfold np_array_empty.
  eapply spec_bind; [apply spec_plain_call; by right |].
  intros arr. cbv beta. apply spec_assume. intros [= <-].
  step spec_collect_geometries as counties Hcounties.
  { intros ob Hob. apply elem_of_app. left. by apply list_elem_of_fmap_2. }
  cbn [app] in Hcounties. subst counties.
  eapply spec_bind.
  { apply (spec_geometry_call cascaded_union_); [done |].
    intros g Hg. apply elem_of_app. by left. }
  intros merged. cbv beta. apply spec_assume. intros ->.
  eapply spec_bind.
  { apply (spec_geometry_call buffer_); [done |].
    intros g ->%list_elem_of_singleton. by left. }
  intros env. cbv beta. apply spec_assume. intros ->.
  step spec_shapely_bounds as box Hbox; [right; by left |].
  eapply spec_bind; [apply spec_lift |].
  intros bbox. cbv beta. apply spec_assume. intros _.
  step spec_make_map as u1 Hu1.
  step spec_NaturalEarthFeature as political Hpolitical. subst political.
  step spec_NaturalEarthFeature as states Hstates. subst states.
  step spec_add_feature as u2 Hu2; [by intros g ?%elem_of_nil |].
  step spec_add_feature as u3 Hu3; [by intros g ?%elem_of_nil |].
  eapply spec_bind.
  { apply spec_plot_outlines. intros g Hg. do 2 right. apply elem_of_app. by left. }
  intros u4. cbv beta.
  finish. split; [done |]. cbn.
  eapply known_weaken; cycle 1; [eassumption |].
  intros g [-> | ->%list_elem_of_singleton]%elem_of_cons.
  - by left.
  - right. by left.
Qed.

Lemma spec_boundary_cell (boundaries : list Geom) gs ph :
  (forall g, g ∈ boundaries -> g ∈ gs) ->
  spec (known gs ph) (boundary_cell boundaries) (fun _ tr => known gs ph tr).
Proof. intros Hgs. unfold boundary_cell. by apply spec_plot_outlines. Qed.

(** The four cells that query a table inside the envelope start alike. *)
Ltac envelope_request Henv :=
  let r1 := fresh "r" in let r2 := fresh "r" in let r3 := fresh "r" in
  let r4 := fresh "r" in
  let H1 := fresh "Hr" in let H2 := fresh "Hr" in let H3 := fresh "Hr" in
  let H4 := fresh "Hr" in
  step spec_newDataRequest as r1 H1; [by apply the_envelope |]; subst r1;
  step spec_addIdentifier as r2 H2; subst r2;
  step spec_addIdentifier as r3 H3; subst r3;
  step spec_setParameters as r4 H4; subst r4;
  eapply spec_bind;
  [apply spec_getGeometryData;
   [apply table_request_well_configured | by apply the_envelope] |];
  intros ?; cbv beta; apply spec_assume; intros _.

Lemma spec_interstate_cell env gs ph :
  env ∈ gs ->
  spec (known gs ph) (interstate_cell env) (fun _ tr => known gs Submitted tr).
Proof.
  intros Henv. unfold interstate_cell. envelope_request env.
  eapply spec_conseq; [apply spec_plot_lines | done |].
  - intros ob Hob. apply elem_of_app. left. by apply list_elem_of_fmap_2.
  - cbv beta. intros _ tr Hk. eapply known_weaken; [| exact Hk].
    intros g Hg. apply elem_of_app. by right.
Qed.

Lemma spec_river_cell env gs ph :
  env ∈ gs ->
  spec (known gs ph) (river_cell env) (fun _ tr => known gs Submitted tr).
Proof.
  intros Henv. unfold river_cell. envelope_request env.
  eapply spec_conseq; [apply spec_plot_lines | done |].
  - intros ob Hob. apply elem_of_app. left. by apply list_elem_of_fmap_2.
  - cbv beta. intros _ tr Hk. eapply known_weaken; [| exact Hk].
    intros g Hg. apply elem_of_app. by right.
Qed.

Lemma spec_lake_cell env gs ph :
  env ∈ gs ->
  spec (known gs ph) (lake_cell env) (fun _ tr => known gs Submitted tr).
Proof.
  intros Henv. unfold lake_cell. envelope_request env.
  unfold np_array_empty.
  eapply spec_bind; [apply spec_plain_call; by right |].
  intros arr. cbv beta. apply spec_assume. intros [= <-].
  step spec_collect_geometries as lakes Hlakes.
  { intros ob Hob. apply elem_of_app. left. by apply list_elem_of_fmap_2. }
  cbn [app] in Hlakes. subst lakes.
  eapply spec_conseq; [apply spec_plot_outlines | done |].
  - intros g Hg. apply elem_of_app. by left.
  - cbv beta. intros _ tr Hk. eapply known_weaken; [| exact Hk].
    intros g Hg. apply elem_of_app. right. apply elem_of_app. by right.
Qed.

Lemma spec_city_cell env gs ph :
  env ∈ gs ->
  spec (known gs ph) (city_cell env) (fun _ tr => known gs Submitted tr).
Proof.
  intros Henv. unfold city_cell. envelope_request env.
  eapply spec_bind.
  { apply spec_city_filter.
    - intros ob Hob. apply elem_of_app. left. by apply list_elem_of_fmap_2.
    - by intros g ?%elem_of_nil. }
  intros [citylist cityname]. cbv beta. apply spec_assume. cbn [fst]. intros Hlist.
  step spec_scatter as u1 Hu1; [exact Hlist |].
  eapply spec_bind; [by apply spec_annotate_cities |].
  intros u2. cbv beta.
  finish. eapply known_weaken; cycle 1; [eassumption |].
  intros g Hg. apply elem_of_app. by right.
Qed.

Lemma spec_topo_request_cell env gs ph :
  env ∈ gs ->
  spec (known gs ph) (topo_request_cell env) (fun _ tr => known gs Submitted tr).
Proof.
  intros Henv. unfold topo_request_cell, getRawData.
  step spec_newDataRequest as r1 H1; [apply no_envelope |]. subst r1.
  step spec_addIdentifier as r2 H2. subst r2.
  step spec_addIdentifier as r3 H3. subst r3.
  step spec_setEnvelope as r4 H4; [exact Henv |]. subst r4.
  step spec_getGridData as gridData HgridData.
  { apply topo_request_well_configured. }
  { by apply the_envelope. }
  eapply spec_bind; [apply spec_lift |].
  intros first. cbv beta. apply spec_assume. intros _.
  plain.
  eapply spec_bind; [apply spec_lift |].
  intros first'. cbv beta. apply spec_assume. intros _.
  plain.
  finish. done.
Qed.

Lemma spec_topo_plot_cell gridData gs ph :
  spec (known gs ph) (topo_plot_cell gridData) (fun _ tr => known gs ph tr).
Proof.
  unfold topo_plot_cell, getRawData, getLatLonCoords, reduction, contourf.
  eapply spec_bind; [apply spec_lift |].
  intros grid. cbv beta. apply spec_assume. intros _.
  plain. plain.
  eapply spec_bind; [apply spec_plain_call; by right |].
  intros [lons lats]. cbv beta. apply spec_assume. intros _.
  plain. plain. plain.
  eapply spec_bind.
  { plain. eapply spec_conseq; [apply spec_modify; reflexivity | done |].
    cbv beta. intros ? ? Hk. exact Hk. }
  intros []. cbv beta.
  plain. plain.
  eapply spec_conseq; [apply spec_modify; reflexivity | done | done].
Qed.

Lemma spec_notebook :
  spec (known [] NoRequest) (notebook (Geom := Geom)) (fun _ _ => True).
Proof.
  unfold notebook.
  step spec_setup_cell as request Hrequest. destruct Hrequest as [Hnone Htable].
  step (spec_county_cell request) as vars Hvars; [exact Hnone | exact Htable |].
  assert (Henv : envelope_var vars ∈ envelope_var vars :: boundaries vars) by by left.
  eapply spec_bind.
  { apply spec_boundary_cell. intros g Hg. by right. }
  intros u1. cbv beta.
  eapply spec_bind; [by apply spec_interstate_cell |]. intros u2. cbv beta.
  eapply spec_bind; [by apply spec_city_cell |]. intros u3. cbv beta.
  eapply spec_bind; [by apply spec_lake_cell |]. intros u4. cbv beta.
  eapply spec_bind; [by apply spec_river_cell |]. intros u5. cbv beta.
  eapply spec_bind; [by apply spec_topo_request_cell |]. intros gridData. cbv beta.
  eapply spec_conseq; [apply spec_topo_plot_cell | done | done].
Qed.

(** C6, as the code has it: on any server and with any geometry library, in
    the run of the whole notebook, however it ends, every setter acts on a
    request that is not submitted yet, and every submission sends a request
    that is not submitted yet, names its source (a table, or a group and a
    dataset) and has a spatial filter (location names or an envelope); and
    every geometry that any call reads (a set operation, a rendering call, a
    request's envelope) was returned by an earlier request, an earlier
    geometry operation, or by [np.append] from such a geometry. *)
Theorem notebook_reads_what_was_produced :
  configured_before_submitted (trace (fst (notebook (Geom := Geom) fresh)))
  /\ reads_produced (trace (fst (notebook (Geom := Geom) fresh))).
Proof.
  destruct (spec_notebook fresh sound_nil) as (_ & [Hreads Hconf] & _).
  - split; [| done]. by intros g ?%elem_of_nil.
  - done.
Qed.

End Cells.

(** *** A request that fails *)

Section Failures.
Context {Geom : Type} `{Shapely Geom} `{Awips Geom}.
Implicit Types (w : Kernel Geom) (env : Geom).

Ltac steps :=
  unfold mbind, nb_bind, mret, nb_ret, bind, ret, call, submit, lift, modify;
  cbn -[plot_lines plot_outlines collect_geometries city_filter annotate_cities].

(** The county request is refused: the cell stops with that exception after
    one submission, with the host and the figure as they were. *)
Lemma county_cell_request_failure (request : Request Geom) w e :
  getGeometryData_on (edex_host w) (county_request request) = inl e ->
  snd (county_cell request w) = inl e
  /\ calls_from (county_cell request) w
     = [setLocationNames_; addIdentifier_; addIdentifier_; addIdentifier_;
        addIdentifier_; getGeometryData_]
  /\ edex_host (fst (county_cell request w)) = edex_host w
  /\ figure (fst (county_cell request w)) = figure w.
Proof.
  unfold county_request. intros Hfail.
  unfold calls_from, county_cell, getGeometryData. calls. steps.
  rewrite Hfail. cbn.
  rewrite <- !app_assoc. cbn. rewrite drop_app_length. done.
Qed.

(** A request for a table inside the envelope is refused: the cell stops
    with that exception and draws nothing. *)
Lemma line_request_failure w env e :
  (getGeometryData_on (edex_host w) (table_request "mapdata.interstate" ["name"] env)
   = inl e ->
   snd (interstate_cell env w) = inl e /\ drawn_from (interstate_cell env) w = [])
  /\ (getGeometryData_on (edex_host w) (table_request "mapdata.majorrivers" ["pname"] env)
      = inl e ->
      snd (river_cell env w) = inl e /\ drawn_from (river_cell env) w = []).
Proof.
  unfold table_request, drawn_from, interstate_cell, river_cell, getGeometryData.
  calls. steps.
  split; intros ->; cbn; by rewrite drop_all.
Qed.

Lemma city_request_failure w env e :
  getGeometryData_on (edex_host w)
    (table_request "mapdata.city" ["name"; "population"; "prog_disc"] env) = inl e ->
  snd (city_cell env w) = inl e /\ drawn_from (city_cell env) w = [].
Proof.
  unfold table_request, drawn_from, city_cell, getGeometryData.
  calls. steps.
  intros ->; cbn; by rewrite drop_all.
Qed.

Lemma lake_request_failure w env e :
  getGeometryData_on (edex_host w) (table_request "mapdata.lake" ["name"] env)
  = inl e ->
  snd (lake_cell env w) = inl e /\ drawn_from (lake_cell env) w = [].
Proof.
  unfold table_request, drawn_from, lake_cell, getGeometryData.
  calls. steps.
  intros ->; cbn; by rewrite drop_all.
Qed.

Lemma topo_request_failure w env e :
  getGridData_on (edex_host w) (topo_request env) = inl e ->
  snd (topo_request_cell env w) = inl e.
Proof.
  unfold topo_request, topo_request_cell, getGridData. calls. steps.
  by intros ->.
Qed.

(** A record without the field the filter asks for first: the loop stops
    with the KeyError of [getString]. *)
Lemma city_filter_malformed_record (ob : GeometryData Geom) rest citylist cityname w :
  strings ob !! "population" = None ->
  snd (city_filter citylist cityname (ob :: rest) w) = inl (KeyError "population").
Proof.
  intros Hmissing. cbn [city_filter]. calls. steps. by rewrite Hmissing.
Qed.

End Failures.

(** C6, as stated, fails.  In the run against the fixture server the
    interstate is handed to the renderer as it was fetched: no geometry
    operation before that call returned it.  And the county request is
    submitted without an envelope, so not every request has a table, a
    location filter and an envelope. *)
Lemma interstate_rendered_as_fetched :
  ~ renders_only_set_operation_results
      (trace (fst (@notebook _ Fixtures.Boxes.shapely Fixtures.Boxes.colorado fresh)))
  /\ ~ submits_fully_configured
         (trace (fst (@notebook _ Fixtures.Boxes.shapely Fixtures.Boxes.colorado fresh))).
Proof.
  set (tr := trace (fst (@notebook _ Fixtures.Boxes.shapely Fixtures.Boxes.colorado fresh))).
  split; intros Hclaim.
  - destruct (Hclaim (take 50 tr)
                (event ShapelyFeature_ [] [[Fixtures.Boxes.mkBox (-2) 1 6 1]] [])
                (drop 51 tr) [Fixtures.Boxes.mkBox (-2) 1 6 1])
      as (e' & Hin & Hstage & Hdef).
    + vm_compute. reflexivity.
    + reflexivity.
    + by left.
    + assert (Hex : Exists (fun e' => stage (fn e') = Geometry
                              /\ [Fixtures.Boxes.mkBox (-2) 1 6 1] ∈ defs e') (take 50 tr)).
      { apply Exists_exists. eauto. }
      revert Hex. apply (proj1 (bool_decide_eq_false _)). vm_compute. reflexivity.
  - destruct (tr !! 8%nat) as [e |] eqn:He; [| by vm_compute in He].
    pose proof (list_elem_of_lookup_2 _ _ _ He) as Hin.
    vm_compute in He. injection He as <-.
    destruct (Hclaim _ _ Hin eq_refl) as (_ & _ & [env Henv]).
    discriminate Henv.
Qed.

End MapFacts.

(** ** The maps notebook, cell by cell *)

Module MapMore.
Import MapResources Spec.Maps Spec.Journal More.Maps PyFacts PyMore JournalFacts MapFacts.

Ltac run :=
  unfold mbind, nb_bind, mret, nb_ret, bind, ret, call, lift, modify in *; cbn in *.

Section Loops.
Context {Geom : Type} `{Shapely Geom}.
Implicit Types (w : Kernel Geom) (ob : GeometryData Geom).

(** *** Collecting the geometries *)

Lemma collect_events_calls (response : list (GeometryData Geom)) :
  map fn (collect_events response) = collect_calls response.
Proof.
  unfold collect_events, collect_calls.
  induction response as [| ob rest IH]; [done |]. cbn. by rewrite IH.
Qed.

Lemma intersecting_events_calls cbounds (geometries : list Geom) :
  map fn (intersecting_events cbounds geometries)
  = flat_map (fun h => intersects_ :: (if intersects cbounds h then [intersection_] else []))
             geometries.
Proof.
  unfold intersecting_events.
  induction geometries as [| geom rest IH]; [done |]. cbn [flat_map].
  rewrite map_app, IH. by destruct (intersects cbounds geom).
Qed.

Lemma outline_round_calls (geometries round : list Geom) :
  map fn (flat_map (outline_events geometries) round)
  = flat_map (fun geom =>
      [Polygon_; ShapelyFeature_]
      ++ flat_map (fun h =>
           intersects_
           :: (if intersects (Polygon geom) h then [intersection_] else []))
           geometries
      ++ [add_feature_]) round.
Proof.
  induction round as [| geom rest IH]; [done |]. cbn [flat_map].
  rewrite map_app, IH. f_equal.
  unfold outline_events. cbn. by rewrite map_app, intersecting_events_calls.
Qed.

Lemma outline_events_calls (geometries : list Geom) :
  map fn (flat_map (outline_events geometries) geometries) = outline_calls geometries.
Proof. apply outline_round_calls. Qed.

Lemma line_events_calls (response : list (GeometryData Geom)) :
  map fn (flat_map line_events response) = line_calls response.
Proof.
  unfold line_calls.
  induction response as [| ob rest IH]; [done |]. cbn. by rewrite IH.
Qed.

Lemma collected_single_parts (response : list (GeometryData Geom)) :
  (forall ob, ob ∈ response -> as_elements (geometry ob) = [geometry ob]) ->
  collected response = map geometry response.
Proof.
  induction response as [| ob rest IH]; intros Hsingle; [done |].
  unfold collected in *. cbn. rewrite (Hsingle ob) by by left. cbn.
  f_equal. apply IH. intros ob' Hob'. apply Hsingle. by right.
Qed.

(** X8: the loop that fills [counties] and [lakes] never raises; it returns
    what the array held followed by the elements numpy makes of each row's
    geometry, in the order of the response, with two library calls per row,
    and it draws nothing.  When numpy takes every geometry as one element,
    the array holds the geometry of every row. *)
Theorem collect_geometries_in_order (response : list (GeometryData Geom)) arr w :
  snd (collect_geometries arr response w) = inr (arr ++ collected response)
  /\ calls_from (collect_geometries arr response) w = collect_calls response
  /\ drawn_from (collect_geometries arr response) w = []
  /\ ((forall ob, ob ∈ response -> as_elements (geometry ob) = [geometry ob]) ->
      snd (collect_geometries arr response w) = inr (arr ++ map geometry response)).
Proof.
  pose proof (collect_geometries_run response arr w) as Hrun.
  split; [by rewrite Hrun |]. split; [| split].
  - rewrite (calls_from_emit _ w _ _ (f_equal fst Hrun)). apply collect_events_calls.
  - by rewrite (drawn_from_emit _ w _ _ (f_equal fst Hrun)).
  - intros Hsingle. by rewrite Hrun, (collected_single_parts _ Hsingle).
Qed.

(** *** Outlines of geometries that do not touch *)

Lemma filter_none {A} (f : A -> bool) (l : list A) :
  (forall y, y ∈ l -> f y = false) -> List.filter f l = [].
Proof.
  induction l as [| y l IH]; intros Hf; [done |].
  cbn. rewrite (Hf y) by by left. apply IH. intros z Hz. apply Hf. by right.
Qed.

Lemma filter_only {A} (f : A -> bool) (x : A) (l : list A) :
  NoDup l -> x ∈ l -> (forall y, y ∈ l -> f y = true <-> y = x) ->
  List.filter f l = [x].
Proof.
  induction l as [| y l IH]; intros Hnodup Hx Hf; [by apply elem_of_nil in Hx |].
  apply NoDup_cons in Hnodup as [Hy Hnodup]. cbn.
  apply elem_of_cons in Hx as [-> | Hx].
  - rewrite (proj2 (Hf y ltac:(by left)) eq_refl). f_equal.
    apply filter_none. intros z Hz.
    destruct (f z) eqn:Hfz; [| done].
    apply Hf in Hfz; [| by right]. by subst z.
  - destruct (f y) eqn:Hfy.
    + apply Hf in Hfy; [| by left]. by subst y.
    + apply IH; [done | done |].
      intros z Hz. apply Hf. by right.
Qed.

(** X9: when the fetched geometries are distinct, each polygon intersects
    only its own geometry and the intersection with it gives the geometry
    back, the outline loop draws what the single pass draws. *)
Theorem plot_outlines_of_separate_geometries (geometries : list Geom) style w :
  NoDup geometries ->
  (forall g h, g ∈ geometries -> h ∈ geometries ->
               intersects (Polygon g) h = true <-> h = g) ->
  (forall g, g ∈ geometries -> intersection (Polygon g) g = g) ->
  drawn_from (plot_outlines geometries style) w
  = drawn_from (single_pass geometries style) w.
Proof.
  intros Hnodup Hmeet Hself.
  rewrite (drawn_from_emit _ w _ _ (f_equal fst (plot_outlines_run geometries style w))).
  rewrite (drawn_from_emit _ w _ _ (f_equal fst (single_pass_run geometries style w))).
  apply map_ext_in. intros g Hg%list_elem_of_In. f_equal.
  unfold parts. rewrite (filter_only _ g); [| done | done |].
  - cbn. by rewrite Hself.
  - intros h Hh. by apply Hmeet.
Qed.

End Loops.

Lemma collect_geometries_in_order_witness :
  snd (@collect_geometries _ Fixtures.Boxes.shapely [] Fixtures.Boxes.county_rows fresh)
  = inr [Fixtures.Boxes.square 0 0; Fixtures.Boxes.square 2 0]
  /\ snd (@collect_geometries _ Fixtures.Boxes.shapely [] Fixtures.Boxes.two_part_lake_rows
            fresh)
     = inr [[Fixtures.Boxes.mkBox 1 1 1 2]; [Fixtures.Boxes.mkBox 3 1 3 2]].
Proof.
  split.
  - refine (proj2 (proj2 (proj2 (@collect_geometries_in_order _ Fixtures.Boxes.shapely
                                   Fixtures.Boxes.county_rows [] fresh))) _).
    intros ob Hob. apply list_elem_of_In in Hob as [<- | [<- | []]]; reflexivity.
  - exact (proj1 (@collect_geometries_in_order _ Fixtures.Boxes.shapely
                    Fixtures.Boxes.two_part_lake_rows [] fresh)).
Defined.

Lemma plot_outlines_of_separate_geometries_witness :
  drawn_from (@plot_outlines _ Fixtures.Boxes.shapely distant_counties []) fresh
  = drawn_from (single_pass distant_counties []) fresh.
Proof.
  apply (@plot_outlines_of_separate_geometries _ Fixtures.Boxes.shapely).
  - apply NoDup_cons. split; [| apply NoDup_singleton].
    intros Hin%list_elem_of_singleton. discriminate Hin.
  - intros g h Hg Hh.
    apply list_elem_of_In in Hg as [<- | [<- | []]];
      apply list_elem_of_In in Hh as [<- | [<- | []]];
      vm_compute; split; intros Heq; try reflexivity; discriminate Heq.
  - intros g Hg.
    apply list_elem_of_In in Hg as [<- | [<- | []]]; vm_compute; reflexivity.
Defined.

Section Outcomes.
Context {Geom : Type} `{Shapely Geom} `{Awips Geom}.
Implicit Types (w : Kernel Geom) (ob : GeometryData Geom).

(** *** When the city filter returns *)

Lemma city_filter_outcome (cities : list (GeometryData Geom)) :
  forall citylist cityname w,
    match snd (city_filter citylist cityname cities w) with
    | inr _ => forallb readable cities = true
    | inl _ => forallb readable cities = false
    end.
Proof.
  induction cities as [| ob rest IH]; intros citylist cityname w; [done |].
  cbn [city_filter forallb]. unfold readable. calls. run.
  destruct (strings ob !! "population") as [p |]; [| done].
  destruct (truthy p); cbn; [| apply IH].
  destruct (numbers ob !! "prog_disc") as [d |]; [| done].
  destruct (50 <? d); cbn; [| apply IH].
  destruct (int p) as [e | n]; [done |]. cbn.
  destruct (5000 <? n); cbn; [| apply IH].
  destruct (strings ob !! "name") as [name |]; [| done]. cbn.
  apply IH.
Qed.

Lemma lacks_field_unreadable ob : lacks_field ob = true -> readable ob = false.
Proof.
  unfold lacks_field, readable.
  destruct (strings ob !! "population") as [p |]; [| done].
  destruct (truthy p); [| done]. cbn.
  destruct (numbers ob !! "prog_disc") as [d |]; [| done].
  destruct (50 <? d); [| done]. cbn.
  destruct (int p) as [e | n]; [done |].
  destruct (5000 <? n); [| done]. cbn.
  destruct (strings ob !! "name"); [| done].
  intros Hnone. by apply bool_decide_eq_true in Hnone.
Qed.

(** X10: the filtering loop returns when every row is readable as far as
    the tests take it, and raises when some row lacks a field the loop asks
    it for: the population string, the prog_disc of a row with a non-empty
    population, or the name of a row that passes the three tests. *)
Theorem city_filter_returns_on_readable_rows (cities : list (GeometryData Geom))
    citylist cityname w :
  (forallb readable cities = true ->
   exists w' result, city_filter citylist cityname cities w = (w', inr result))
  /\ (existsb lacks_field cities = true ->
      exists w' e, city_filter citylist cityname cities w = (w', inl e)).
Proof.
  pose proof (city_filter_outcome cities citylist cityname w) as Hout.
  destruct (city_filter citylist cityname cities w) as [w' [e | result]]; cbn in Hout.
  - split; [congruence | eauto].
  - split; [eauto |].
    intros (ob & Hin & Hlacks%lacks_field_unreadable)%existsb_exists.
    rewrite forallb_forall in Hout. rewrite (Hout ob Hin) in Hlacks. discriminate.
Qed.

(** *** An empty list of grids *)

(** X11: the topography request cell passes on the failure of the request,
    raises IndexError when the request returns no grid (after the request
    was submitted), and returns the list when it has a first element; the
    plot cell raises IndexError on an empty list before calling any library
    function. *)
Theorem topography_cells_need_a_grid (env : Geom) w :
  (forall e,
      getGridData_on (edex_host w)
        (mkRequest "topo" (<["dataset" := "full"]> (<["group" := "/"]> ∅)) [] []
           (Some env)) = inl e ->
      snd (topo_request_cell env w) = inl e)
  /\ (getGridData_on (edex_host w)
        (mkRequest "topo" (<["dataset" := "full"]> (<["group" := "/"]> ∅)) [] []
           (Some env)) = inr [] ->
      snd (topo_request_cell env w) = inl IndexError
      /\ calls_from (topo_request_cell env) w
         = [newDataRequest_; addIdentifier_; addIdentifier_; setEnvelope_;
            getGridData_])
  /\ (forall grid grids,
        getGridData_on (edex_host w)
          (mkRequest "topo" (<["dataset" := "full"]> (<["group" := "/"]> ∅)) [] []
             (Some env)) = inr (grid :: grids) ->
        snd (topo_request_cell env w) = inr (grid :: grids))
  /\ topo_plot_cell [] w = (w, inl IndexError).
Proof.
  unfold calls_from, topo_request_cell, getGridData, submit. calls.
  run. split; [| split; [| split]].
  - by intros e ->.
  - intros ->. cbn. rewrite !getitem_nil. cbn. split; [done |].
    rewrite <- !app_assoc. cbn. by rewrite drop_app_length.
  - intros grid grids ->. cbn. by rewrite !getitem_head.
  - unfold topo_plot_cell. run. by rewrite getitem_nil.
Qed.

End Outcomes.

Lemma city_filter_returns_on_readable_rows_witness :
  (exists w' result,
      city_filter [] [] Fixtures.Boxes.city_rows (fresh (Geom := Fixtures.Boxes.Geom))
      = (w', inr result))
  /\ (exists w' e,
        city_filter [] []
          [Fixtures.Boxes.row (Fixtures.Boxes.point 1 1) [("name", "Denver")] []]
          (fresh (Geom := Fixtures.Boxes.Geom))
        = (w', inl e)).
Proof.
  split.
  - apply (proj1 (@city_filter_returns_on_readable_rows _ Fixtures.Boxes.city_rows [] []
                    fresh)).
    vm_compute. reflexivity.
  - apply (proj2 (@city_filter_returns_on_readable_rows _
                    [Fixtures.Boxes.row (Fixtures.Boxes.point 1 1) [("name", "Denver")] []]
                    [] [] fresh)).
    vm_compute. reflexivity.
Defined.

Lemma topography_cells_need_a_grid_witness :
  snd (@topo_request_cell _ Fixtures.Boxes.colorado (Fixtures.Boxes.square 0 0) fresh)
  = inr [Fixtures.Boxes.topo_grid].
Proof.
  apply (proj1 (proj2 (proj2 (@topography_cells_need_a_grid _ Fixtures.Boxes.colorado
                                (Fixtures.Boxes.square 0 0) fresh)))).
  reflexivity.
Defined.

(** *** What a cell leaves alone *)

Section Frames.
Context {Geom : Type} `{Shapely Geom} `{Awips Geom}.
Context (R : Kernel Geom -> Kernel Geom -> Prop).
Hypothesis R_refl : forall w, R w w.
Hypothesis R_trans : forall w1 w2 w3, R w1 w2 -> R w2 w3 -> R w1 w3.
Hypothesis R_log : forall e w, R w (log e w).
Hypothesis R_draw : forall a w, R w (draw a w).

Lemma keeps_ret {A} (a : A) : keeps R (mret a).
Proof. intros w. apply R_refl. Qed.

Lemma keeps_bind {A B} (step : NB (Kernel Geom) A) (k : A -> NB (Kernel Geom) B) :
  keeps R step -> (forall a, keeps R (k a)) -> keeps R (step ≫= k).
Proof.
  intros Hstep Hk w. specialize (Hstep w).
  unfold mbind, nb_bind, bind. destruct (step w) as [w1 [e | a]]; [done |].
  eapply R_trans; [exact Hstep | apply Hk].
Qed.

Lemma keeps_call {A} f ss us ds (r : Exn + A) : keeps R (call f ss us ds r).
Proof. intros w. apply R_log. Qed.

Lemma keeps_lift {A} (r : Exn + A) : keeps R (lift r).
Proof. intros w. apply R_refl. Qed.

Lemma keeps_draw a : keeps R (modify (draw a)).
Proof. intros w. apply R_draw. Qed.

Lemma keeps_for_each {A} (xs : list A) (body : A -> NB (Kernel Geom) unit) :
  (forall x, keeps R (body x)) -> keeps R (for_each xs body).
Proof.
  intros Hbody. induction xs as [| x xs IH]; [apply (keeps_ret tt) |].
  cbn [for_each]. apply (keeps_bind (body x) (fun _ => for_each xs body)); [apply Hbody |].
  intros _. exact IH.
Qed.

Lemma keeps_getGeometryData request : keeps R (getGeometryData request).
Proof. intros w. apply R_log. Qed.

Lemma keeps_getGridData request : keeps R (getGridData request).
Proof. intros w. apply R_log. Qed.

(** One step of a proof that a cell keeps [R]. *)
Ltac keep :=
  lazymatch goal with
  | |- keeps _ (mbind _ _) => apply keeps_bind; [| intros ?]
  | |- keeps _ (mret _) => apply keeps_ret
  | |- keeps _ (call _ _ _ _ _) => apply keeps_call
  | |- keeps _ (lift _) => apply keeps_lift
  | |- keeps _ (modify (draw _)) => apply keeps_draw
  | |- keeps _ (getGeometryData _) => apply keeps_getGeometryData
  | |- keeps _ (getGridData _) => apply keeps_getGridData
  | |- keeps _ (for_each _ _) => apply keeps_for_each; intros ?
  | |- keeps _ (if ?b then _ else _) => destruct b
  | |- keeps _ (match ?p with (_, _) => _ end) => destruct p
  end.

Ltac keeps_all :=
  unfold np_array_empty, np_append, shapely_cascaded_union, shapely_buffer,
    shapely_bounds, shapely_Polygon, shapely_intersects, shapely_intersection,
    geometry_call, scatter, annotate, ShapelyFeature, NaturalEarthFeature,
    add_feature, getGeometry, getString, getNumber,
    newDataRequest, addIdentifier, setLocationNames, setParameters, setEnvelope,
    getRawData, getLatLonCoords, reduction, contourf;
  repeat keep.

Lemma keeps_collect_geometries response : forall arr, keeps R (collect_geometries arr response).
Proof.
  induction response as [| ob rest IH]; intros arr; cbn [collect_geometries];
    keeps_all. apply IH.
Qed.

Lemma keeps_intersecting geometries : forall cbounds, keeps R (intersecting cbounds geometries).
Proof.
  induction geometries as [| geom rest IH]; intros cbounds; cbn [intersecting];
    keeps_all; apply IH.
Qed.

Lemma keeps_plot_outlines geometries style : keeps R (plot_outlines geometries style).
Proof.
  unfold plot_outlines, ShapelyFeature_of. keeps_all. apply keeps_intersecting.
Qed.

Lemma keeps_plot_lines (response : list (GeometryData Geom)) style :
  keeps R (plot_lines response style).
Proof. unfold plot_lines. keeps_all. Qed.

Lemma keeps_city_filter cities :
  forall citylist cityname, keeps R (city_filter citylist cityname cities).
Proof.
  induction cities as [| ob rest IH]; intros citylist cityname; cbn [city_filter];
    keeps_all; apply IH.
Qed.

Lemma keeps_annotate_cities cityname :
  forall i (citylist : list Geom), keeps R (annotate_cities i citylist cityname).
Proof.
  induction cityname as [| txt rest IH]; intros i citylist; cbn [annotate_cities];
    keeps_all. apply IH.
Qed.

Lemma keeps_boundary_cell boundaries : keeps R (boundary_cell boundaries).
Proof. apply keeps_plot_outlines. Qed.

Lemma keeps_interstate_cell env : keeps R (interstate_cell env).
Proof. unfold interstate_cell. keeps_all. apply keeps_plot_lines. Qed.

Lemma keeps_river_cell env : keeps R (river_cell env).
Proof. unfold river_cell. keeps_all. apply keeps_plot_lines. Qed.

Lemma keeps_lake_cell env : keeps R (lake_cell env).
Proof.
  unfold lake_cell. keeps_all;
    [apply keeps_collect_geometries | apply keeps_plot_outlines].
Qed.

Lemma keeps_city_cell env : keeps R (city_cell env).
Proof.
  unfold city_cell. keeps_all;
    [apply keeps_city_filter | apply keeps_annotate_cities].
Qed.

Lemma keeps_topo_request_cell env : keeps R (topo_request_cell env).
Proof. unfold topo_request_cell. keeps_all. Qed.

Lemma keeps_topo_plot_cell gridData : keeps R (topo_plot_cell gridData).
Proof. unfold topo_plot_cell. keeps_all. Qed.

Lemma keeps_county_cell request :
  (forall bbox projection, keeps R (make_map bbox projection)) ->
  keeps R (county_cell request).
Proof.
  intros Hmap. unfold county_cell. keeps_all;
    [apply keeps_collect_geometries | apply Hmap | apply keeps_plot_outlines].
Qed.

End Frames.

(** *** No cell handles a failure *)

Section Unhandled.
Context {Geom : Type} `{Shapely Geom} `{Awips Geom}.

Local Abbreviation unhandled' := (unhandled (trace (Geom := Geom)) failure).

Lemma unhandled_event_call {A} f ss us ds (r : Exn + A) : unhandled' (call f ss us ds r).
Proof.
  by apply (JournalFacts.unhandled_journaled trace failure (call f ss us ds r)
              (fun _ => mkEvent f ss us ds None (failure_of r))).
Qed.

Lemma unhandled_modify (f : Kernel Geom -> Kernel Geom) :
  (forall w, trace (f w) = trace w) -> unhandled' (modify f).
Proof. intros Hf. by apply unhandled_silent. Qed.

Lemma unhandled_getGeometryData request : unhandled' (getGeometryData request).
Proof.
  by apply (JournalFacts.unhandled_journaled trace failure (getGeometryData request)
              (fun w => mkEvent getGeometryData_ [datatype request]
                          (option_list (envelope request))
                          (fetched (getGeometryData_on (edex_host w) request))
                          (Some request)
                          (failure_of (getGeometryData_on (edex_host w) request)))).
Qed.

Lemma unhandled_getGridData request : unhandled' (getGridData request).
Proof.
  by apply (JournalFacts.unhandled_journaled trace failure (getGridData request)
              (fun w => mkEvent getGridData_ [datatype request]
                          (option_list (envelope request)) [] (Some request)
                          (failure_of (getGridData_on (edex_host w) request)))).
Qed.

(** One step of a proof that a cell handles no failure. *)
Ltac pass :=
  lazymatch goal with
  | |- unhandled _ _ (mbind _ _) => apply unhandled_bind; [| intros ?]
  | |- unhandled _ _ (mret _) => apply unhandled_ret
  | |- unhandled _ _ (call _ _ _ _ _) => apply unhandled_event_call
  | |- unhandled _ _ (lift _) => apply unhandled_lift
  | |- unhandled _ _ (modify _) => apply unhandled_modify; reflexivity
  | |- unhandled _ _ (getGeometryData _) => apply unhandled_getGeometryData
  | |- unhandled _ _ (getGridData _) => apply unhandled_getGridData
  | |- unhandled _ _ (for_each _ _) => apply unhandled_for_each; intros ?
  | |- unhandled _ _ (if ?b then _ else _) => destruct b
  | |- unhandled _ _ (match ?p with (_, _) => _ end) => destruct p
  end.

Ltac passes_all :=
  unfold np_array_empty, np_append, shapely_cascaded_union, shapely_buffer,
    shapely_bounds, shapely_Polygon, shapely_intersects, shapely_intersection,
    geometry_call, scatter, annotate, ShapelyFeature, NaturalEarthFeature,
    add_feature, getGeometry, getString, getNumber,
    newDataRequest, addIdentifier, setLocationNames, setParameters, setEnvelope,
    getRawData, getLatLonCoords, reduction, contourf, make_map, changeEDEXHost;
  repeat pass.

Lemma unhandled_collect_geometries response :
  forall arr, unhandled' (collect_geometries arr response).
Proof.
  induction response as [| ob rest IH]; intros arr; cbn [collect_geometries];
    passes_all. apply IH.
Qed.

Lemma unhandled_intersecting geometries :
  forall cbounds, unhandled' (intersecting cbounds geometries).
Proof.
  induction geometries as [| geom rest IH]; intros cbounds; cbn [intersecting];
    passes_all; apply IH.
Qed.

Lemma unhandled_plot_outlines geometries style :
  unhandled' (plot_outlines geometries style).
Proof.
  unfold plot_outlines, ShapelyFeature_of. passes_all. apply unhandled_intersecting.
Qed.

Lemma unhandled_plot_lines (response : list (GeometryData Geom)) style :
  unhandled' (plot_lines response style).
Proof. unfold plot_lines. passes_all. Qed.

Lemma unhandled_city_filter cities :
  forall citylist cityname, unhandled' (city_filter citylist cityname cities).
Proof.
  induction cities as [| ob rest IH]; intros citylist cityname; cbn [city_filter];
    passes_all; apply IH.
Qed.

Lemma unhandled_annotate_cities cityname :
  forall i (citylist : list Geom), unhandled' (annotate_cities i citylist cityname).
Proof.
  induction cityname as [| txt rest IH]; intros i citylist; cbn [annotate_cities];
    passes_all. apply IH.
Qed.

Lemma unhandled_setup_cell : unhandled' setup_cell.
Proof. unfold setup_cell. passes_all. Qed.

Lemma unhandled_county_cell request : unhandled' (county_cell request).
Proof.
  unfold county_cell. passes_all;
    [apply unhandled_collect_geometries | apply unhandled_plot_outlines].
Qed.

Lemma unhandled_boundary_cell boundaries : unhandled' (boundary_cell boundaries).
Proof. apply unhandled_plot_outlines. Qed.

Lemma unhandled_interstate_cell env : unhandled' (interstate_cell env).
Proof. unfold interstate_cell. passes_all. apply unhandled_plot_lines. Qed.

Lemma unhandled_river_cell env : unhandled' (river_cell env).
Proof. unfold river_cell. passes_all. apply unhandled_plot_lines. Qed.

Lemma unhandled_lake_cell env : unhandled' (lake_cell env).
Proof.
  unfold lake_cell. passes_all;
    [apply unhandled_collect_geometries | apply unhandled_plot_outlines].
Qed.

Lemma unhandled_city_cell env : unhandled' (city_cell env).
Proof.
  unfold city_cell. passes_all;
    [apply unhandled_city_filter | apply unhandled_annotate_cities].
Qed.

Lemma unhandled_topo_request_cell env : unhandled' (topo_request_cell env).
Proof. unfold topo_request_cell. passes_all. Qed.

Lemma unhandled_topo_plot_cell gridData : unhandled' (topo_plot_cell gridData).
Proof. unfold topo_plot_cell. passes_all. Qed.

Lemma unhandled_maps_notebook : unhandled' notebook.
Proof.
  unfold notebook.
  apply unhandled_bind; [apply unhandled_setup_cell | intros request].
  apply unhandled_bind; [apply unhandled_county_cell | intros vars].
  apply unhandled_bind; [apply unhandled_boundary_cell | intros _].
  apply unhandled_bind; [apply unhandled_interstate_cell | intros _].
  apply unhandled_bind; [apply unhandled_city_cell | intros _].
  apply unhandled_bind; [apply unhandled_lake_cell | intros _].
  apply unhandled_bind; [apply unhandled_river_cell | intros _].
  apply unhandled_bind; [apply unhandled_topo_request_cell | intros gridData].
  apply unhandled_topo_plot_cell.
Qed.

End Unhandled.

Section Invariants.
Context {Geom : Type} `{Shapely Geom} `{Awips Geom}.
Implicit Types (w : Kernel Geom).

Lemma drawing_grows_refl w : drawing_grows w w.
Proof. unfold drawing_grows. by repeat split. Qed.

Lemma drawing_grows_trans w1 w2 w3 :
  drawing_grows w1 w2 -> drawing_grows w2 w3 -> drawing_grows w1 w3.
Proof.
  intros (Hs1 & Hp1 & He1 & Ha1) (Hs2 & Hp2 & He2 & Ha2).
  repeat split; try congruence. by etrans.
Qed.

Lemma drawing_grows_log (e : Event Geom) w : drawing_grows w (log e w).
Proof. by repeat split. Qed.

Lemma drawing_grows_draw (a : Artist Geom) w : drawing_grows w (draw a w).
Proof. repeat split. cbn. by apply prefix_app_r. Qed.

(** X12: the cells after the county cell draw on the figure they find: each
    of them, however it ends, leaves the figure's size, projection and
    extent as they were and only adds artists after the ones already
    there. *)
Theorem later_cells_only_add_artists :
  (forall boundaries : list Geom, keeps drawing_grows (boundary_cell boundaries))
  /\ (forall env : Geom, keeps drawing_grows (interstate_cell env))
  /\ (forall env : Geom, keeps drawing_grows (city_cell env))
  /\ (forall env : Geom, keeps drawing_grows (lake_cell env))
  /\ (forall env : Geom, keeps drawing_grows (river_cell env))
  /\ (forall env : Geom, keeps drawing_grows (topo_request_cell env))
  /\ (forall gridData, keeps (Geom := Geom) drawing_grows (topo_plot_cell gridData)).
Proof.
  pose proof drawing_grows_refl as Hr. pose proof drawing_grows_trans as Ht.
  pose proof drawing_grows_log as Hl. pose proof drawing_grows_draw as Hd.
  refine (conj _ (conj _ (conj _ (conj _ (conj _ (conj _ _)))))); intros ?.
  - by apply keeps_boundary_cell.
  - by apply keeps_interstate_cell.
  - by apply keeps_city_cell.
  - by apply keeps_lake_cell.
  - by apply keeps_river_cell.
  - by apply keeps_topo_request_cell.
  - by apply keeps_topo_plot_cell.
Qed.

Lemma same_host_make_map bbox projection :
  keeps (Geom := Geom) same_host (make_map bbox projection).
Proof. intros w. reflexivity. Qed.

Lemma same_host_refl w : same_host w w.
Proof. done. Qed.

Lemma same_host_trans w1 w2 w3 : same_host w1 w2 -> same_host w2 w3 -> same_host w1 w3.
Proof. unfold same_host. congruence. Qed.

Lemma same_host_log (e : Event Geom) w : same_host w (log e w).
Proof. done. Qed.

Lemma same_host_draw (a : Artist Geom) w : same_host w (draw a w).
Proof. done. Qed.

Lemma only_draws_refl w : only_draws w w.
Proof. split; [done | apply drawing_grows_refl]. Qed.

Lemma only_draws_trans w1 w2 w3 : only_draws w1 w2 -> only_draws w2 w3 -> only_draws w1 w3.
Proof.
  intros [Hh1 Hd1] [Hh2 Hd2]. split.
  - by eapply same_host_trans.
  - by eapply drawing_grows_trans.
Qed.

Lemma only_draws_log (e : Event Geom) w : only_draws w (log e w).
Proof. split; [done | apply drawing_grows_log]. Qed.

Lemma only_draws_draw (a : Artist Geom) w : only_draws w (draw a w).
Proof. split; [done | apply drawing_grows_draw]. Qed.

(** The setup cell sets the host and leaves the figure alone. *)
Lemma setup_cell_sets_host w :
  exists request,
    snd (setup_cell w) = inr request
    /\ edex_host (fst (setup_cell w)) = "edex-cloud.unidata.ucar.edu"
    /\ figure (fst (setup_cell w)) = figure w.
Proof. eexists. unfold setup_cell. calls. run. done. Qed.

(** X13: from any world and on any server, the notebook ends, normally or
    with an exception, with the data-access layer pointed at
    edex-cloud.unidata.ucar.edu: the setup cell sets the host and no later
    call changes it. *)
Theorem notebook_talks_to_one_host w :
  edex_host (fst (notebook w)) = "edex-cloud.unidata.ucar.edu".
Proof.
  pose proof same_host_refl as Hr. pose proof same_host_trans as Ht.
  pose proof same_host_log as Hl. pose proof same_host_draw as Hd.
  unfold notebook. unfold mbind at 1, nb_bind at 1, bind at 1.
  destruct (setup_cell_sets_host w) as (request & Hreturns & Hhost & _).
  destruct (setup_cell w) as [w0 [e | request']]; [discriminate |]. cbn in Hhost.
  rewrite <- Hhost.
  match goal with
  | |- edex_host (fst (?rest w0)) = _ => enough (Hrest : keeps same_host rest) by apply Hrest
  end.
  apply keeps_bind; [done | by apply keeps_county_cell; [| | | | apply same_host_make_map] |].
  intros vars.
  apply keeps_bind; [done | by apply keeps_boundary_cell |]. intros _.
  apply keeps_bind; [done | by apply keeps_interstate_cell |]. intros _.
  apply keeps_bind; [done | by apply keeps_city_cell |]. intros _.
  apply keeps_bind; [done | by apply keeps_lake_cell |]. intros _.
  apply keeps_bind; [done | by apply keeps_river_cell |]. intros _.
  apply keeps_bind; [done | by apply keeps_topo_request_cell |]. intros gridData.
  by apply keeps_topo_plot_cell.
Qed.

End Invariants.

(** *** The county cell when the request is answered *)

Section County.
Context {Geom : Type} `{Shapely Geom} `{Awips Geom}.

Ltac steps :=
  unfold mbind, nb_bind, mret, nb_ret, bind, ret, call, submit, lift, modify;
  cbn -[plot_lines plot_outlines collect_geometries city_filter annotate_cities bbox_of].

(** The county cell, once the request is answered: it collects, merges and
    buffers, and then everything turns on the bounds of the union. *)
Lemma county_cell_run (request : Request Geom) w response :
  getGeometryData_on (edex_host w) (county_request request) = inr response ->
  let counties := collected response in
  let merged := cascaded_union counties in
  let before :=
    [event setLocationNames_ ["BOU"] [] []; event addIdentifier_ ["cwa"; "BOU"] [] [];
     event addIdentifier_ ["geomField"; "the_geom"] [] [];
     event addIdentifier_ ["inLocation"; "true"] [] [];
     event addIdentifier_ ["locationField"; "cwa"] [] [];
     mkEvent getGeometryData_ [datatype request] (option_list (envelope request))
       (map geometry response) (Some (county_request request)) None;
     event np_array_ [] [] []]
    ++ collect_events response
    ++ [event cascaded_union_ [] counties [merged];
        event buffer_ [] [merged] [buffer merged 2];
        event bounds_ [] [merged] []] in
  match bbox_of (bounds merged) with
  | inl e => county_cell request w = (emit before [] w, inl e)
  | inr bbox =>
      snd (county_cell request w)
      = inr (mkCountyVars counties merged (buffer merged 2) [merged] bbox)
      /\ figure (fst (county_cell request w))
         = mkFigure (12, 12) "PlateCarree" (Some bbox)
             ([Coastlines "50m"; Gridlines true false false;
               NaturalEarth "cultural" "admin_0_boundary_lines_land" "50m"
                 [("facecolor", "none"); ("linestyle", "-"); ("edgecolor", "black")];
               NaturalEarth "cultural" "admin_1_states_provinces_lines" "50m"
                 [("facecolor", "none"); ("linestyle", "-"); ("edgecolor", "black");
                  ("linewidth", "2")]]
              ++ map (fun geom =>
                        ShapelyFeat (parts counties geom)
                          [("facecolor", "none"); ("linestyle", "-");
                           ("edgecolor", "#86989B")])
                     counties)
      /\ calls_from (county_cell request) w = county_calls response
  end.
Proof.
  unfold county_request. intros Hresponse. cbv zeta.
  unfold calls_from, county_calls, county_cell, getGeometryData. calls. steps.
  rewrite Hresponse. steps. rewrite collect_geometries_run. steps.
  destruct (bbox_of _) as [e | bbox]; steps.
  - rewrite !log_emit, !emit_emit. cbn. by rewrite <- ?app_assoc.
  - rewrite plot_outlines_run. cbn.
    split; [done |]. split; [done |].
    rewrite <- !app_assoc. cbn. rewrite drop_app_length.
    cbn. rewrite map_app, collect_events_calls. cbn.
    by rewrite outline_events_calls.
Qed.


End County.


(** *** The cells that draw what the server returns *)

Section Drawing.
Context {Geom : Type} `{Shapely Geom} `{Awips Geom}.
Implicit Types (w : Kernel Geom).

(** X15: the annotation loop labels point [i] with name [i]; with fewer
    points than names it raises IndexError after the labels for the points
    there are. *)
Theorem annotate_cities_more_names_than_points (cityname : list string) :
  forall (k : nat) (citylist : list Geom) w,
    (k <= length citylist)%nat ->
    (length citylist < k + length cityname)%nat ->
    snd (annotate_cities (Z.of_nat k) citylist cityname w) = inl IndexError
    /\ artists (figure (fst (annotate_cities (Z.of_nat k) citylist cityname w)))
       = artists (figure w) ++ annotations (drop k citylist) cityname.
Proof.
  induction cityname as [| txt rest IH]; intros k citylist w Hk Hlen.
  - cbn in Hlen. lia.
  - cbn [annotate_cities]. unfold annotate.
    unfold mbind, nb_bind, mret, nb_ret, bind, ret, call, lift, modify.
    destruct (citylist !! k) as [g |] eqn:Hg.
    + rewrite (getitem_lookup _ _ _ Hg).
      replace (Z.of_nat k + 1) with (Z.of_nat (S k)) by lia.
      pose proof (lookup_lt_Some _ _ _ Hg) as Hlt.
      cbn [length] in Hlen.
      destruct (IH (S k) citylist
                  (draw (Annotation txt (point_x g, point_y g) (3, 3))
                     (log (event annotate_ [txt] [g; g] []) w))
                  ltac:(lia) ltac:(lia))
        as [Hfail Hfig].
      split; [exact Hfail |]. cbn [failure_of]. unfold event in Hfig. rewrite Hfig.
      rewrite (drop_S _ _ _ Hg). unfold annotations. cbn [zip_with].
      cbn. by rewrite <- app_assoc.
    + apply lookup_ge_None in Hg.
      rewrite getitem_past_end by lia. cbn. split; [done |].
      rewrite drop_ge by lia. unfold annotations. cbn. by rewrite app_nil_r.
Qed.

Ltac steps :=
  unfold mbind, nb_bind, mret, nb_ret, bind, ret, call, submit, lift, modify;
  cbn -[plot_lines plot_outlines collect_geometries city_filter annotate_cities].

(** The interstate and river cells, once the request is answered. *)
Lemma line_cell_run table params style (env : Geom) w response :
  getGeometryData_on (edex_host w) (table_request table params env) = inr response ->
  (request ← newDataRequest "maps" (Some env);
   request ← addIdentifier request "table" table;
   request ← addIdentifier request "geomField" "the_geom";
   request ← setParameters request params;
   rows ← getGeometryData request;
   plot_lines rows style) w
  = (emit ([event newDataRequest_ ["maps"] [env] [];
            event addIdentifier_ ["table"; table] [] [];
            event addIdentifier_ ["geomField"; "the_geom"] [] [];
            event setParameters_ params [] [];
            mkEvent getGeometryData_ ["maps"] [env] (map geometry response)
              (Some (table_request table params env)) None]
           ++ flat_map line_events response)
          (map (fun ob => ShapelyFeat [geometry ob] style) response) w,
     inr tt).
Proof.
  unfold table_request. intros Hresponse. unfold getGeometryData. calls. steps.
  rewrite Hresponse. steps. rewrite plot_lines_run.
  rewrite !log_emit, !emit_emit. reflexivity.
Qed.

(** X16: when the interstate (or river) request is answered, the cell
    returns and draws one feature per row, in the order of the response,
    each holding that row's geometry alone; when the request fails the cell
    stops with that failure and draws nothing. *)
Theorem line_cells_draw_each_row (env : Geom) w :
  (forall response,
      getGeometryData_on (edex_host w)
        (mkRequest "maps"
           (<["geomField" := "the_geom"]> (<["table" := "mapdata.interstate"]> ∅))
           [] ["name"] (Some env)) = inr response ->
      snd (interstate_cell env w) = inr tt
      /\ drawn_from (interstate_cell env) w
         = map (fun ob => ShapelyFeat [geometry ob]
                            [("facecolor", "none"); ("linestyle", "-");
                             ("edgecolor", "orange")]) response)
  /\ (forall e,
        getGeometryData_on (edex_host w)
          (mkRequest "maps"
             (<["geomField" := "the_geom"]> (<["table" := "mapdata.interstate"]> ∅))
             [] ["name"] (Some env)) = inl e ->
        snd (interstate_cell env w) = inl e
        /\ drawn_from (interstate_cell env) w = [])
  /\ (forall response,
        getGeometryData_on (edex_host w)
          (mkRequest "maps"
             (<["geomField" := "the_geom"]> (<["table" := "mapdata.majorrivers"]> ∅))
             [] ["pname"] (Some env)) = inr response ->
        snd (river_cell env w) = inr tt
        /\ drawn_from (river_cell env) w
           = map (fun ob => ShapelyFeat [geometry ob]
                              [("facecolor", "none"); ("linestyle", ":");
                               ("edgecolor", "#20B2AA")]) response)
  /\ (forall e,
        getGeometryData_on (edex_host w)
          (mkRequest "maps"
             (<["geomField" := "the_geom"]> (<["table" := "mapdata.majorrivers"]> ∅))
             [] ["pname"] (Some env)) = inl e ->
        snd (river_cell env w) = inl e
        /\ drawn_from (river_cell env) w = []).
Proof.
  refine (conj _ (conj _ (conj _ _))).
  - intros response Hresponse.
    pose proof (line_cell_run "mapdata.interstate" ["name"]
                  [("facecolor", "none"); ("linestyle", "-"); ("edgecolor", "orange")]
                  env w response Hresponse) as Hrun.
    split; [exact (f_equal snd Hrun) |].
    exact (drawn_from_emit _ w _ _ (f_equal fst Hrun)).
  - intros e Hfail. by apply (proj1 (line_request_failure w env e)).
  - intros response Hresponse.
    pose proof (line_cell_run "mapdata.majorrivers" ["pname"]
                  [("facecolor", "none"); ("linestyle", ":"); ("edgecolor", "#20B2AA")]
                  env w response Hresponse) as Hrun.
    split; [exact (f_equal snd Hrun) |].
    exact (drawn_from_emit _ w _ _ (f_equal fst Hrun)).
  - intros e Hfail. by apply (proj2 (line_request_failure w env e)).
Qed.

Lemma selected_names (cities : list (GeometryData Geom)) names :
  Forall2 (fun ob name => strings ob !! "name" = Some name) cities names ->
  names = map name_of cities.
Proof.
  induction 1 as [| ob name obs names Hname _ IH]; [done |].
  cbn. unfold name_of at 1. rewrite Hname. cbn. by rewrite IH.
Qed.

Lemma annotate_events_calls (chosen : list (GeometryData Geom)) :
  map fn (zip_with (fun g name => event annotate_ [name] [g; g] [])
            (map geometry chosen) (map name_of chosen))
  = map (fun _ => annotate_) chosen.
Proof. induction chosen as [| ob rest IH]; [done |]. cbn. by rewrite IH. Qed.

(** The city cell, once the request is answered and the filter returns. *)
Lemma city_cell_run (env : Geom) w cities w1 citylist cityname :
  getGeometryData_on (edex_host w)
    (table_request "mapdata.city" ["name"; "population"; "prog_disc"] env) = inr cities ->
  city_filter [] [] cities
    (emit [event newDataRequest_ ["maps"] [env] [];
           event addIdentifier_ ["table"; "mapdata.city"] [] [];
           event addIdentifier_ ["geomField"; "the_geom"] [] [];
           event setParameters_ ["name"; "population"; "prog_disc"] [] [];
           mkEvent getGeometryData_ ["maps"] [env] (map geometry cities)
             (Some (table_request "mapdata.city" ["name"; "population"; "prog_disc"] env))
             None] [] w)
  = (w1, inr (citylist, cityname)) ->
  let chosen := List.filter selected cities in
  citylist = map geometry chosen
  /\ cityname = map name_of chosen
  /\ snd (city_cell env w) = inr (citylist, cityname)
  /\ drawn_from (city_cell env) w
     = Scatter (map point_x citylist) (map point_y citylist) "+" "black"
       :: annotations citylist cityname
  /\ calls_from (city_cell env) w = city_cell_calls cities.
Proof.
  unfold table_request. intros Hcities Hfilter. cbv zeta.
  pose proof Hfilter as Hrun.
  apply city_filter_run in Hrun as (evs & names & -> & Hcalls & -> & -> & Hnames).
  apply selected_names in Hnames as ->. cbn [app] in *.
  split; [done |]. split; [done |].
  unfold calls_from, drawn_from, city_cell_calls, city_cell, getGeometryData. calls. steps.
  rewrite Hcities. steps.
  rewrite !log_emit, !emit_emit. cbn [app]. unfold event in Hfilter.
  rewrite Hfilter. steps.
  rewrite (annotate_cities_run _ 0) by (rewrite !length_map; lia).
  cbn. rewrite ?app_nil_r, <- ?app_assoc, !drop_app_length.
  split; [done |]. split; [done |].
  cbn. rewrite !map_app, Hcalls. cbn.
  by rewrite drop_0, annotate_events_calls.
Qed.

(** X17: when the city request is answered with rows the filter can read,
    the cell returns the geometries and names of the selected rows, and
    draws one scatter of their points followed by one annotation per
    selected row, name [i] at point [i]. *)
Theorem city_cell_draws_selected_rows (env : Geom) w cities :
  getGeometryData_on (edex_host w)
    (mkRequest "maps"
       (<["geomField" := "the_geom"]> (<["table" := "mapdata.city"]> ∅))
       [] ["name"; "population"; "prog_disc"] (Some env)) = inr cities ->
  forallb readable cities = true ->
  snd (city_cell env w)
  = inr (map geometry (List.filter selected cities),
         map name_of (List.filter selected cities))
  /\ drawn_from (city_cell env) w
     = Scatter (map point_x (map geometry (List.filter selected cities)))
               (map point_y (map geometry (List.filter selected cities)))
               "+" "black"
       :: annotations (map geometry (List.filter selected cities))
                      (map name_of (List.filter selected cities)).
Proof.
  intros Hcities Hreadable.
  match goal with
  | |- context [city_cell env w] =>
      pose proof (city_filter_outcome cities [] []
                    (emit [event newDataRequest_ ["maps"] [env] [];
                           event addIdentifier_ ["table"; "mapdata.city"] [] [];
                           event addIdentifier_ ["geomField"; "the_geom"] [] [];
                           event setParameters_ ["name"; "population"; "prog_disc"] [] [];
                           mkEvent getGeometryData_ ["maps"] [env] (map geometry cities)
                             (Some (table_request "mapdata.city"
                                      ["name"; "population"; "prog_disc"] env))
                             None] [] w)) as Hout
  end.
  destruct (city_filter [] [] cities _) as [w1 [e | [citylist cityname]]] eqn:Hrun;
    cbn in Hout; [congruence |].
  destruct (city_cell_run env w cities w1 citylist cityname Hcities Hrun)
    as (-> & -> & Hresult & Hdrawn & _).
  done.
Qed.

(** The lake cell, once the request is answered. *)
Lemma lake_cell_run (env : Geom) w response :
  getGeometryData_on (edex_host w) (table_request "mapdata.lake" ["name"] env)
  = inr response ->
  snd (lake_cell env w) = inr tt
  /\ drawn_from (lake_cell env) w
     = map (fun geom =>
              ShapelyFeat (parts (collected response) geom)
                [("facecolor", "blue"); ("linestyle", "-"); ("edgecolor", "#20B2AA")])
           (collected response)
  /\ calls_from (lake_cell env) w = lake_calls response.
Proof.
  unfold table_request. intros Hresponse.
  unfold calls_from, drawn_from, lake_calls, lake_cell, getGeometryData. calls.
  steps. rewrite Hresponse. steps.
  rewrite collect_geometries_run. steps.
  rewrite plot_outlines_run. cbn.
  rewrite ?app_nil_r, <- ?app_assoc, !drop_app_length.
  split; [done |]. split; [done |].
  cbn. by rewrite !map_app, collect_events_calls, outline_events_calls.
Qed.

(** X18: when the lake request is answered, the cell returns and draws, for
    each geometry it collected (each element numpy makes of a returned lake,
    in the order of the response), one filled feature holding the
    intersections of its polygon with every collected geometry it
    intersects. *)
Theorem lake_cell_draws_every_lake (env : Geom) w response :
  getGeometryData_on (edex_host w)
    (mkRequest "maps"
       (<["geomField" := "the_geom"]> (<["table" := "mapdata.lake"]> ∅))
       [] ["name"] (Some env)) = inr response ->
  snd (lake_cell env w) = inr tt
  /\ drawn_from (lake_cell env) w
     = map (fun geom =>
              ShapelyFeat (parts (collected response) geom)
                [("facecolor", "blue"); ("linestyle", "-"); ("edgecolor", "#20B2AA")])
           (collected response).
Proof.
  intros Hresponse.
  destruct (lake_cell_run env w response Hresponse) as (Hreturns & Hdrawn & _). done.
Qed.

(** *** The filter on rows that carry numbers *)

Lemma city_row_selected (c : City Geom) : selected (city_row c) = qualifies c.
Proof.
  destruct (int_pretty (inhabitants c)) as [Hint Htruthy].
  unfold selected, has_population, disclosed, populous, qualifies, city_row. cbn.
  rewrite lookup_insert_eq, lookup_singleton_eq, Hint, Htruthy. done.
Qed.

Lemma city_row_readable (c : City Geom) : readable (city_row c) = true.
Proof.
  destruct (int_pretty (inhabitants c)) as [Hint Htruthy].
  unfold readable, city_row. cbn.
  rewrite lookup_insert_eq, lookup_singleton_eq, Hint, Htruthy.
  rewrite lookup_insert_ne by done. rewrite lookup_singleton_eq.
  destruct (50 <? disclosure c); [| done].
  destruct (5000 <? inhabitants c); [| done].
  apply bool_decide_eq_true. by eexists.
Qed.

Lemma filter_city_rows (cities : list (City Geom)) :
  List.filter selected (map city_row cities) = map city_row (List.filter qualifies cities).
Proof.
  induction cities as [| c rest IH]; [done |].
  cbn. rewrite city_row_selected. destruct (qualifies c); cbn; by rewrite IH.
Qed.

(** X19: on rows that carry, for each city, its name, the decimal rendering
    of its population and its disclosure level, the filtering loop returns,
    and what it returns are the locations and the names of the cities with a
    disclosure level above 50 and more than 5000 inhabitants, in the order
    of the rows. *)
Theorem city_filter_selects_by_numbers (cities : list (City Geom)) w :
  snd (city_filter [] [] (map city_row cities) w)
  = inr (map location (List.filter qualifies cities),
         map label (List.filter qualifies cities)).
Proof.
  pose proof (city_filter_outcome (map city_row cities) [] [] w) as Hout.
  destruct (city_filter [] [] (map city_row cities) w)
    as [w' [e | [citylist cityname]]] eqn:Hrun; cbn in Hout |- *.
  - assert (Hall : forallb readable (map city_row cities) = true).
    { apply forallb_forall. intros ob (c & <- & _)%in_map_iff. apply city_row_readable. }
    congruence.
  - apply city_filter_run in Hrun as (evs & names & _ & _ & -> & -> & Hnames).
    apply selected_names in Hnames as ->. cbn [app].
    assert (Hname : forall c : City Geom, name_of (city_row c) = label c).
    { intros c. unfold name_of, city_row. cbn.
      rewrite lookup_insert_ne by done. by rewrite lookup_singleton_eq. }
    rewrite filter_city_rows, !map_map.
    by rewrite (map_ext _ _ Hname).
Qed.

(** *** The calls of the remaining cells *)

Lemma setup_cell_calls w :
  calls_from setup_cell w = [changeEDEXHost_; newDataRequest_; addIdentifier_].
Proof.
  unfold calls_from, setup_cell. calls. steps.
  rewrite <- !app_assoc. cbn. by rewrite drop_app_length.
Qed.

Lemma boundary_cell_calls (boundaries : list Geom) w :
  snd (boundary_cell boundaries w) = inr tt
  /\ calls_from (boundary_cell boundaries) w = outline_calls boundaries.
Proof.
  unfold boundary_cell.
  pose proof (plot_outlines_run boundaries
                [("facecolor", "none"); ("linestyle", "-"); ("linewidth", "3.");
                 ("edgecolor", "#cc5000")] w) as Hrun.
  split; [exact (f_equal snd Hrun) |].
  rewrite (calls_from_emit _ w _ _ (f_equal fst Hrun)). apply outline_events_calls.
Qed.

Lemma topo_request_cell_calls (env : Geom) w w' gridData :
  topo_request_cell env w = (w', inr gridData) ->
  calls_from (topo_request_cell env) w = topo_request_calls.
Proof.
  unfold calls_from, topo_request_calls, topo_request_cell, getGridData. calls. steps.
  destruct (getGridData_on _ _) as [e | grids]; [discriminate |]. steps.
  destruct (getitem grids 0) as [e | grid]; [discriminate |]. steps.
  intros _. rewrite <- !app_assoc. cbn. by rewrite drop_app_length.
Qed.

Lemma topo_plot_cell_calls gridData w w' :
  topo_plot_cell gridData w = (w', inr tt) ->
  calls_from (topo_plot_cell (Geom := Geom) gridData) w = topo_plot_calls.
Proof.
  unfold calls_from, topo_plot_calls, topo_plot_cell. calls. steps.
  destruct (getitem gridData 0) as [e | grid]; [discriminate |]. steps.
  destruct (latLonCoords grid) as [lons lats]. steps.
  destruct (concat (masked_invalid (rawData grid))); [discriminate |]. steps.
  destruct (decide _); [| discriminate]. steps.
  intros _. rewrite <- !app_assoc. cbn. by rewrite drop_app_length.
Qed.

(** A cell that returns was answered; its calls are the ones listed for
    the response. *)
Lemma county_cell_returns (request : Request Geom) w w' vars :
  county_cell request w = (w', inr vars) ->
  exists response,
    getGeometryData_on (edex_host w) (county_request request) = inr response
    /\ calls_from (county_cell request) w = county_calls response.
Proof.
  intros Hrun.
  destruct (getGeometryData_on (edex_host w) (county_request request))
    as [e | response] eqn:Hanswer.
  { destruct (county_cell_request_failure request w e Hanswer) as [Hfail _].
    rewrite Hrun in Hfail. discriminate. }
  exists response. split; [done |].
  pose proof (county_cell_run request w response Hanswer) as Hcell. cbv zeta in Hcell.
  destruct (bbox_of _) as [e | bbox].
  - rewrite Hrun in Hcell. discriminate.
  - by destruct Hcell as (_ & _ & Hcalls).
Qed.

Lemma line_cells_return (env : Geom) w :
  (forall w', interstate_cell env w = (w', inr tt) ->
     exists response,
       getGeometryData_on (edex_host w) (table_request "mapdata.interstate" ["name"] env)
       = inr response
       /\ calls_from (interstate_cell env) w = table_request_calls ++ line_calls response)
  /\ (forall w', river_cell env w = (w', inr tt) ->
        exists response,
          getGeometryData_on (edex_host w)
            (table_request "mapdata.majorrivers" ["pname"] env) = inr response
          /\ calls_from (river_cell env) w = table_request_calls ++ line_calls response).
Proof.
  split; intros w' Hrun.
  - destruct (getGeometryData_on (edex_host w)
                (table_request "mapdata.interstate" ["name"] env))
      as [e | response] eqn:Hanswer.
    { destruct (proj1 (line_request_failure w env e) Hanswer) as [Hfail _].
      rewrite Hrun in Hfail. discriminate. }
    exists response. split; [done |]. unfold interstate_cell.
    rewrite (calls_from_emit _ w _ _
               (f_equal fst (line_cell_run "mapdata.interstate" ["name"]
                               [("facecolor", "none"); ("linestyle", "-");
                                ("edgecolor", "orange")] env w response Hanswer))).
    rewrite map_app, line_events_calls. done.
  - destruct (getGeometryData_on (edex_host w)
                (table_request "mapdata.majorrivers" ["pname"] env))
      as [e | response] eqn:Hanswer.
    { destruct (proj2 (line_request_failure w env e) Hanswer) as [Hfail _].
      rewrite Hrun in Hfail. discriminate. }
    exists response. split; [done |]. unfold river_cell.
    rewrite (calls_from_emit _ w _ _
               (f_equal fst (line_cell_run "mapdata.majorrivers" ["pname"]
                               [("facecolor", "none"); ("linestyle", ":");
                                ("edgecolor", "#20B2AA")] env w response Hanswer))).
    rewrite map_app, line_events_calls. done.
Qed.

Lemma city_cell_filter_failure (env : Geom) w cities w1 e :
  getGeometryData_on (edex_host w)
    (table_request "mapdata.city" ["name"; "population"; "prog_disc"] env) = inr cities ->
  city_filter [] [] cities
    (emit [event newDataRequest_ ["maps"] [env] [];
           event addIdentifier_ ["table"; "mapdata.city"] [] [];
           event addIdentifier_ ["geomField"; "the_geom"] [] [];
           event setParameters_ ["name"; "population"; "prog_disc"] [] [];
           mkEvent getGeometryData_ ["maps"] [env] (map geometry cities)
             (Some (table_request "mapdata.city" ["name"; "population"; "prog_disc"] env))
             None] [] w)
  = (w1, inl e) ->
  city_cell env w = (w1, inl e).
Proof.
  unfold table_request. intros Hcities Hfilter.
  unfold city_cell, getGeometryData. calls. steps.
  rewrite Hcities. steps.
  rewrite !log_emit, !emit_emit. cbn [app]. unfold event in Hfilter.
  by rewrite Hfilter.
Qed.

Lemma city_cell_returns (env : Geom) w w' lists :
  city_cell env w = (w', inr lists) ->
  exists cities,
    getGeometryData_on (edex_host w)
      (table_request "mapdata.city" ["name"; "population"; "prog_disc"] env) = inr cities
    /\ calls_from (city_cell env) w = city_cell_calls cities.
Proof.
  intros Hrun.
  destruct (getGeometryData_on (edex_host w)
              (table_request "mapdata.city" ["name"; "population"; "prog_disc"] env))
    as [e | cities] eqn:Hanswer.
  { destruct (city_request_failure w env e Hanswer) as [Hfail _].
    rewrite Hrun in Hfail. discriminate. }
  exists cities. split; [done |].
  destruct (city_filter [] [] cities
              (emit [event newDataRequest_ ["maps"] [env] [];
                     event addIdentifier_ ["table"; "mapdata.city"] [] [];
                     event addIdentifier_ ["geomField"; "the_geom"] [] [];
                     event setParameters_ ["name"; "population"; "prog_disc"] [] [];
                     mkEvent getGeometryData_ ["maps"] [env] (map geometry cities)
                       (Some (table_request "mapdata.city"
                                ["name"; "population"; "prog_disc"] env))
                       None] [] w))
    as [w1 [e | [citylist cityname]]] eqn:Hfilter.
  - rewrite (city_cell_filter_failure env w cities w1 e Hanswer Hfilter) in Hrun.
    discriminate.
  - by destruct (city_cell_run env w cities w1 citylist cityname Hanswer Hfilter)
      as (_ & _ & _ & _ & Hcalls).
Qed.

Lemma lake_cell_returns (env : Geom) w w' :
  lake_cell env w = (w', inr tt) ->
  exists response,
    getGeometryData_on (edex_host w) (table_request "mapdata.lake" ["name"] env)
    = inr response
    /\ calls_from (lake_cell env) w = lake_calls response.
Proof.
  intros Hrun.
  destruct (getGeometryData_on (edex_host w) (table_request "mapdata.lake" ["name"] env))
    as [e | response] eqn:Hanswer.
  { destruct (lake_request_failure w env e Hanswer) as [Hfail _].
    rewrite Hrun in Hfail. discriminate. }
  exists response. split; [done |].
  by destruct (lake_cell_run env w response Hanswer) as (_ & _ & Hcalls).
Qed.

End Drawing.

Lemma line_cells_draw_each_row_witness :
  drawn_from (@interstate_cell _ Fixtures.Boxes.colorado (Fixtures.Boxes.square 0 0)) fresh
  = [ShapelyFeat [[Fixtures.Boxes.mkBox (-2) 1 6 1]]
       [("facecolor", "none"); ("linestyle", "-"); ("edgecolor", "orange")]].
Proof.
  refine (proj2 (proj1 (@line_cells_draw_each_row _ Fixtures.Boxes.colorado
                          (Fixtures.Boxes.square 0 0) fresh)
                   Fixtures.Boxes.interstate_rows _)).
  reflexivity.
Defined.

Lemma city_cell_draws_selected_rows_witness :
  snd (@city_cell _ Fixtures.Boxes.shapely Fixtures.Boxes.colorado
         (Fixtures.Boxes.square 0 0) fresh)
  = inr ([Fixtures.Boxes.point 1 1; Fixtures.Boxes.point 3 0], ["Denver"; "Boulder"]).
Proof.
  refine (proj1 (@city_cell_draws_selected_rows _ Fixtures.Boxes.shapely
                   Fixtures.Boxes.colorado (Fixtures.Boxes.square 0 0) fresh
                   Fixtures.Boxes.city_rows _ _)).
  - reflexivity.
  - vm_compute. reflexivity.
Defined.

Lemma lake_cell_draws_every_lake_witness :
  drawn_from (@lake_cell _ Fixtures.Boxes.shapely
                (Fixtures.Boxes.edex [("mapdata.lake", Fixtures.Boxes.two_part_lake_rows)])
                (Fixtures.Boxes.square 0 0)) fresh
  = [ShapelyFeat [[Fixtures.Boxes.mkBox 1 1 1 2]]
       [("facecolor", "blue"); ("linestyle", "-"); ("edgecolor", "#20B2AA")];
     ShapelyFeat [[Fixtures.Boxes.mkBox 3 1 3 2]]
       [("facecolor", "blue"); ("linestyle", "-"); ("edgecolor", "#20B2AA")]].
Proof.
  refine (proj2 (@lake_cell_draws_every_lake _ Fixtures.Boxes.shapely
                   (Fixtures.Boxes.edex [("mapdata.lake", Fixtures.Boxes.two_part_lake_rows)])
                   (Fixtures.Boxes.square 0 0) fresh
                   Fixtures.Boxes.two_part_lake_rows _)).
  reflexivity.
Defined.

Lemma annotate_cities_more_names_than_points_witness :
  snd (@annotate_cities _ Fixtures.Boxes.shapely (Z.of_nat 0)
         [Fixtures.Boxes.point 1 1] ["Denver"; "Boulder"] fresh)
  = inl IndexError.
Proof.
  refine (proj1 (@annotate_cities_more_names_than_points _ Fixtures.Boxes.shapely
                   ["Denver"; "Boulder"] 0%nat [Fixtures.Boxes.point 1 1] fresh _ _));
    cbn; lia.
Defined.

End MapMore.

(** ** Both notebooks *)

Module NotebookFacts.
Import Spec.Journal PyFacts JournalFacts.

(** *** Failures *)



(** *** State *)



(** *** Library calls *)



End NotebookFacts.
